(** * blind: a TCP-over-DNS tunnel — wire codec, client uplink and server handler

    Shallow embedding of the Go package [tunnel] (common.go, client.go,
    server.go).  Byte slices are lists of [Z] in [0, 256); Go strings are
    lists of [ascii]; the session table is a [gmap] from session id to a
    pointer into a heap of [Session] records; the backend and the network
    are oracles passed to each call. *)

From Stdlib Require Import ZArith List Ascii String Lia Bool.
From stdpp Require Import gmap strings list.
Import ListNotations.

Open Scope Z_scope.

(** ** Go strings and byte slices *)

Definition gostring := list ascii.
Definition bytes := list Z.

Definition str (s : string) : gostring := list_ascii_of_string s.

Definition byte_of_char (c : ascii) : Z := Z.of_N (N_of_ascii c).
Definition char_of_byte (b : Z) : ascii := ascii_of_N (Z.to_N (b mod 256)).

(** [[]byte(s)] and [string(b)]. *)
Definition bytes_of_string (s : gostring) : bytes := map byte_of_char s.
Definition string_of_bytes (b : bytes) : gostring := map char_of_byte b.

Definition is_byte (b : Z) : Prop := 0 <= b < 256.

(** [==] on strings. *)
Definition gostring_eqb (a b : gostring) : bool := bool_decide (a = b).

Module GoStrings.

Definition dot : ascii := "."%char.

Definition is_sep (sep c : ascii) : bool := Ascii.eqb c sep.

(** [strings.Split(s, sep)] for a one-character separator: one more part
    than there are separators, the empty string gives one empty part. *)
Fixpoint Split (s : gostring) (sep : ascii) : list gostring :=
  match s with
  | [] => [[]]
  | c :: s' =>
      if is_sep sep c then [] :: Split s' sep
      else match Split s' sep with
           | p :: ps => (c :: p) :: ps
           | [] => [[c]]
           end
  end.

(** [strings.Join(elems, sep)]. *)
Fixpoint Join (elems : list gostring) (sep : ascii) : gostring :=
  match elems with
  | [] => []
  | [e] => e
  | e :: rest => e ++ sep :: Join rest sep
  end.

(** [strings.ReplaceAll(s, old, "")] for a one-character [old]. *)
Definition ReplaceAll_empty (s : gostring) (old : ascii) : gostring :=
  List.filter (fun c => negb (is_sep old c)) s.

(** [strings.TrimSuffix(s, suffix)] for a one-character suffix. *)
Definition TrimSuffix (s : gostring) (suffix : ascii) : gostring :=
  match rev s with
  | c :: r => if is_sep suffix c then rev r else s
  | [] => s
  end.

(** The Go slice expression [x[i:e]] (for [i <= e <= len(x)]). *)
Definition slice {A} (x : list A) (i e : nat) : list A :=
  firstn (e - i) (skipn i x).

(** The loop shared by [encodeDNSSafe] and [splitDataIntoChunks]:
    [for i := 0; i < len(x); i += size { end := i + size;
      if end > len(x) { end = len(x) }; out = append(out, x[i:end]) }].
    The loop runs at most [len(x)] times when [size > 0]; [fuel] bounds
    the iterations. *)
Fixpoint slices_from {A} (fuel : nat) (size i : nat) (x : list A)
  : list (list A) :=
  match fuel with
  | O => []
  | S fuel' =>
      if (i <? length x)%nat then
        let e := if (length x <? i + size)%nat then length x
                 else (i + size)%nat in
        slice x i e :: slices_from fuel' size (i + size) x
      else []
  end.

Definition slices {A} (size : nat) (x : list A) : list (list A) :=
  slices_from (length x) size 0 x.

End GoStrings.

(** ** encoding/base32 of the Go standard library *)

Module Base32.

(** [uint8] arithmetic wraps. *)
Definition u8 (z : Z) : Z := z mod 256.

Definition encodeStd : gostring := str "ABCDEFGHIJKLMNOPQRSTUVWXYZ234567".

(** [enc.encode[v]] *)
Definition encodeChar (alphabet : gostring) (v : Z) : ascii :=
  nth (Z.to_nat v) alphabet "000"%char.

Fixpoint index_of (c : ascii) (l : gostring) (i : Z) : option Z :=
  match l with
  | [] => None
  | d :: l' => if Ascii.eqb c d then Some i else index_of c l' (i + 1)
  end.

(** [enc.decodeMap[c]]: the position of [c] in the alphabet, 0xFF for
    every other byte. *)
Definition decodeMap (alphabet : gostring) (c : ascii) : Z :=
  match index_of c alphabet 0 with
  | Some i => i
  | None => 255
  end.

(** [EncodedLen(n)] without padding. *)
Definition EncodedLen (n : nat) : nat := ((n * 8 + 4) / 5)%nat.

(** The [switch len(src)] of [Encode], whose cases fall through: the
    block of case [k] runs when [len(src) >= k]. *)
Definition quantum (src : bytes) : list Z :=
  let n := length src in
  let s i := nth i src 0 in
  let ge k := (k <=? n)%nat in
  let b7 := if ge 5%nat then Z.land (s 4%nat) 31 else 0 in
  let b6 := if ge 5%nat then Z.shiftr (s 4%nat) 5 else 0 in
  let b6 := if ge 4%nat
            then Z.lor b6 (Z.land (u8 (Z.shiftl (s 3%nat) 3)) 31) else b6 in
  let b5 := if ge 4%nat then Z.land (Z.shiftr (s 3%nat) 2) 31 else 0 in
  let b4 := if ge 4%nat then Z.shiftr (s 3%nat) 7 else 0 in
  let b4 := if ge 3%nat
            then Z.lor b4 (Z.land (u8 (Z.shiftl (s 2%nat) 1)) 31) else b4 in
  let b3 := if ge 3%nat then Z.land (Z.shiftr (s 2%nat) 4) 31 else 0 in
  let b3 := if ge 2%nat
            then Z.lor b3 (Z.land (u8 (Z.shiftl (s 1%nat) 4)) 31) else b3 in
  let b2 := if ge 2%nat then Z.land (Z.shiftr (s 1%nat) 1) 31 else 0 in
  let b1 := if ge 2%nat then Z.land (Z.shiftr (s 1%nat) 6) 31 else 0 in
  let b1 := if ge 1%nat
            then Z.lor b1 (Z.land (u8 (Z.shiftl (s 0%nat) 2)) 31) else b1 in
  let b0 := if ge 1%nat then Z.shiftr (s 0%nat) 3 else 0 in
  [b0; b1; b2; b3; b4; b5; b6; b7].

(** One pass of the loop of [Encode] writes [min 8 (len dst)] characters
    [enc.encode[b[i]&31]]. *)
Definition emit (alphabet : gostring) (size : nat) (b : list Z) : gostring :=
  map (fun v => encodeChar alphabet (Z.land v 31)) (firstn (Nat.min 8 size) b).

(** [Encode(dst, src)] with [NoPadding]; [dstlen] is [len(dst)]. *)
Fixpoint Encode (alphabet : gostring) (dstlen : nat) (src : bytes)
  : gostring :=
  match src with
  | [] => []
  | _ :: _ :: _ :: _ :: _ :: rest =>
      emit alphabet dstlen (quantum src)
        ++ Encode alphabet (dstlen - 8) rest
  | _ => emit alphabet dstlen (quantum src)
  end.

Definition EncodeToString (alphabet : gostring) (src : bytes) : gostring :=
  Encode alphabet (EncodedLen (length src)) src.

(** [CorruptInputError(offset)] *)
Inductive error := CorruptInputError (offset : Z).

Definition is_newline (c : ascii) : bool :=
  Ascii.eqb c "010"%char || Ascii.eqb c "013"%char.

Definition stripNewlines (s : gostring) : gostring :=
  List.filter (fun c => negb (is_newline c)) s.

(** [byte(enc.padChar)] for [NoPadding = rune(-1)]. *)
Definition padByte : ascii := "255"%char.

Inductive quantum_result :=
| QRead (dbuf : list Z) (dlen : nat) (finished : bool) (rest : gostring)
| QErr (e : error).

(** The inner loop [for j := 0; j < 8; ...] of [decode]; [need = 8 - j]
    and [dbuf] holds the [j] values read so far. *)
Fixpoint read_quantum (alphabet : gostring) (olen : Z) (need : nat)
    (src : gostring) (dbuf : list Z) : quantum_result :=
  match need with
  | O => QRead dbuf 8 false src
  | S need' =>
      let j := length dbuf in
      match src with
      | [] => QRead dbuf j true []
      | c :: src' =>
          let len := Z.of_nat (length src') in
          if Ascii.eqb c padByte && (2 <=? j)%nat && (len <? 8) then
            if len + Z.of_nat j <? 8 - 1 then
              QErr (CorruptInputError olen)
            else
              match
                find (fun k => negb (Ascii.eqb (nth k src' padByte) padByte))
                     (seq 0 (8 - 1 - j))
              with
              | Some k =>
                  QErr (CorruptInputError (olen - len + Z.of_nat k - 1))
              | None =>
                  if (j =? 1)%nat || (j =? 3)%nat || (j =? 6)%nat then
                    QErr (CorruptInputError (olen - len - 1))
                  else QRead dbuf j true src'
              end
          else
            let v := decodeMap alphabet c in
            if v =? 255 then QErr (CorruptInputError (olen - len - 1))
            else read_quantum alphabet olen need' src' (dbuf ++ [v])
      end
  end.

(** The [switch dlen] of [decode], whose cases 8, 7, 5, 4, 2 fall
    through; the bytes are listed in the order of [dst]. *)
Definition pack (dbuf : list Z) (dlen : nat) : bytes :=
  let d i := nth i dbuf 0 in
  let from k := ((dlen =? 8) || ((k <=? 7) && (dlen =? 7))
                 || ((k <=? 5) && (dlen =? 5)) || ((k <=? 4) && (dlen =? 4))
                 || ((k <=? 2) && (dlen =? 2)))%nat in
  (if from 2%nat
   then [Z.lor (u8 (Z.shiftl (d 0%nat) 3)) (Z.shiftr (d 1%nat) 2)] else [])
  ++ (if from 4%nat
      then [Z.lor (Z.lor (u8 (Z.shiftl (d 1%nat) 6)) (u8 (Z.shiftl (d 2%nat) 1)))
                  (Z.shiftr (d 3%nat) 4)] else [])
  ++ (if from 5%nat
      then [Z.lor (u8 (Z.shiftl (d 3%nat) 4)) (Z.shiftr (d 4%nat) 1)] else [])
  ++ (if from 7%nat
      then [Z.lor (Z.lor (u8 (Z.shiftl (d 4%nat) 7)) (u8 (Z.shiftl (d 5%nat) 2)))
                  (Z.shiftr (d 6%nat) 3)] else [])
  ++ (if from 8%nat
      then [Z.lor (u8 (Z.shiftl (d 6%nat) 5)) (d 7%nat)] else []).

(** The outer loop [for len(src) > 0 && !end] of [decode]; each pass
    consumes at least one character, so [len(src)] passes suffice. *)
Fixpoint decode_loop (alphabet : gostring) (fuel : nat) (olen : Z)
    (src : gostring) : bytes + error :=
  match fuel with
  | O => inl []
  | S fuel' =>
      match src with
      | [] => inl []
      | _ =>
          match read_quantum alphabet olen 8 src [] with
          | QErr e => inr e
          | QRead dbuf dlen finished rest =>
              if finished then inl (pack dbuf dlen)
              else match decode_loop alphabet fuel' olen rest with
                   | inl out => inl (pack dbuf dlen ++ out)
                   | inr e => inr e
                   end
          end
      end
  end.

(** [DecodeString(s)] with [NoPadding]. *)
Definition DecodeString (alphabet : gostring) (s : gostring)
  : bytes + error :=
  let src := stripNewlines s in
  decode_loop alphabet (length src) (Z.of_nat (length src)) src.

End Base32.

(** ** common.go *)

Module Codec.
Import GoStrings.

Definition maxChunkSize : nat := 220.
Definition maxLabelSize : nat := 63.
Definition maxRetries : nat := 3.
Definition maxSafeLabelSize : nat := 40.
Definition defaultTLD : gostring := str "edu".

Definition dnsBase32Alphabet : gostring :=
  str "ABCDEFGHIJKLMNOPQRSTUVWXYZ234567".

Definition EMPTY : gostring := str "EMPTY".
Definition CLOSED : gostring := str "CLOSED".

(** The re-validation loop of [encodeDNSSafe]: a label longer than
    [maxLabelSize] replaces [result] by its own 40-character pieces. *)
Definition revalidate (result : gostring) (resultLabels : list gostring)
  : gostring :=
  fold_left
    (fun result label =>
       if (maxLabelSize <? length label)%nat
       then Join (slices maxSafeLabelSize label) dot
       else result)
    resultLabels result.

Definition encodeDNSSafe (data : bytes) : gostring :=
  if (length data =? 0)%nat then EMPTY
  else
    let encoded := Base32.EncodeToString dnsBase32Alphabet data in
    let labels := slices maxSafeLabelSize encoded in
    let result := Join labels dot in
    let resultLabels := Split result dot in
    revalidate result resultLabels.

(** [fmt.Errorf("base32 decode error: %v", err)] *)
Inductive decode_error := Base32DecodeError (e : Base32.error).

Definition decodeDNSSafe (s : gostring) : bytes + decode_error :=
  if gostring_eqb s EMPTY then inl []
  else
    let s := ReplaceAll_empty s dot in
    match Base32.DecodeString Base32.encodeStd s with
    | inr e => inr (Base32DecodeError e)
    | inl decoded => inl decoded
    end.

Definition splitDataIntoChunks (data : bytes) (chunkSize : nat)
  : list bytes :=
  slices chunkSize data.

Definition sessionIDLength : nat := 7.

(** [binary.BigEndian.Uint32(b)] *)
Definition Uint32 (b : bytes) : Z :=
  Z.lor (Z.lor (Z.lor (nth 3 b 0) (Z.shiftl (nth 2 b 0) 8))
               (Z.shiftl (nth 1 b 0) 16))
        (Z.shiftl (nth 0 b 0) 24).

(** A value brought into the type [int] of a build whose [int] has
    [intSize] bits (64 on amd64 and arm64, 32 on 386): two's complement
    wrap-around, for conversions and for [+]. *)
Definition wrap_int (intSize : Z) (z : Z) : Z :=
  (z + 2 ^ (intSize - 1)) mod 2 ^ intSize - 2 ^ (intSize - 1).

(** How a loop that may not end, or may panic, turns out. *)
Inductive loop_result (A : Type) :=
| Returns (a : A)
| Panics
| OutOfFuel.
Arguments Returns {A}.
Arguments Panics {A}.
Arguments OutOfFuel {A}.

(** The chunk size one pass of the loop of [splitIntoChunks] settles
    on: [maxChunkSize] or what remains, or the length of the leading
    packet when its length field says it fits. *)
Definition chunk_size (intSize : Z) (remaining : bytes) : Z :=
  let chunkSize := Z.of_nat maxChunkSize in
  let chunkSize :=
    if Z.of_nat (length remaining) <? chunkSize
    then Z.of_nat (length remaining) else chunkSize in
  if 4 <=? chunkSize then
    let packetLen := Uint32 (slice remaining 0 4) in
    let totalLen := wrap_int intSize (wrap_int intSize packetLen + 4) in
    if (totalLen <=? chunkSize) && (totalLen <=? Z.of_nat (length remaining))
    then totalLen else chunkSize
  else chunkSize.

(** The loop [for len(remaining) > 0] of [splitIntoChunks];
    [make([]byte, chunkSize)] panics on a negative size. *)
Fixpoint splitIntoChunks_loop (intSize : Z) (fuel : nat) (remaining : bytes)
    {struct fuel} : loop_result (list bytes) :=
  if (0 <? length remaining)%nat then
    match fuel with
    | O => OutOfFuel
    | S fuel' =>
        let chunkSize := chunk_size intSize remaining in
        if chunkSize <? 0 then Panics
        else
          let n := Z.to_nat chunkSize in
          let chunk := slice remaining 0 n in
          match splitIntoChunks_loop intSize fuel' (skipn n remaining) with
          | Returns chunks => Returns (chunk :: chunks)
          | Panics => Panics
          | OutOfFuel => OutOfFuel
          end
    end
  else Returns [].

(** [splitIntoChunks].  A pass takes at least one byte, or it takes none
    and then every later pass does the same: a run that ends at all ends
    within [len(data)] passes. *)
Definition splitIntoChunks (intSize : Z) (data : bytes)
  : loop_result (list bytes) :=
  if (length data =? 0)%nat then Returns []
  else splitIntoChunks_loop intSize (length data) data.

(** [rand.Int(rand.Reader, max)] is an oracle: [rnd i] is the [i]-th
    number drawn, a number below [max]. *)
Definition generateSessionID (rnd : nat -> Z) : gostring :=
  let chars := str "ABCDEFGHIJKLMNOPQRSTUVWXYZ234567" in
  map (fun i => nth (Z.to_nat (rnd i)) chars "000"%char)
      (seq 0 sessionIDLength).

Definition getRandomTLD (rnd : nat -> Z) : gostring :=
  let tlds := [str "com"; str "net"; str "org"; str "gov"; str "edu"] in
  nth (Z.to_nat (rnd 0%nat)) tlds [].

(** The loop [for _, b := range data { sum ^= b }]. *)
Definition xor_sum (data : bytes) : Z := fold_left Z.lxor data 0.

Definition addChecksumToData (data : bytes) : bytes :=
  let sum := xor_sum data in
  data ++ [sum].

Inductive checksum_error := DataTooShort | ChecksumMismatch.

Definition verifyAndStripChecksum (data : bytes) : bytes + checksum_error :=
  if (length data <? 1)%nat then inr DataTooShort
  else
    let checksum := nth (length data - 1) data 0 in
    let data := slice data 0 (length data - 1) in
    let sum := xor_sum data in
    if negb (sum =? checksum) then inr ChecksumMismatch
    else inl data.

End Codec.

(** ** DNS messages (github.com/miekg/dns), as far as the tunnel uses them *)

Inductive Rcode :=
| RcodeSuccess | RcodeFormatError | RcodeServerFailure | RcodeOther (n : Z).

Definition TypeTXT : Z := 16.
Definition ClassINET : Z := 1.

Record TXT := mkTXT {
  Name : gostring;
  Rrtype : Z;
  Class : Z;
  Ttl : Z;
  Txt : list gostring
}.

Inductive RR := RR_TXT (t : TXT) | RR_other.

Record Reply := mkReply {
  ReplyRcode : Rcode;
  Answer : list RR;
  Edns0 : Z * bool
}.

(** ** client.go *)

Module Client.
Import GoStrings Codec.

Definition u16 (z : Z) : Z := z mod 65536.

Definition hexdigit (v : Z) : ascii :=
  nth (Z.to_nat v) (str "0123456789abcdef") "0"%char.

(** [%04x] of a [uint16]: four lowercase hexadecimal digits. *)
Definition fmt_04x (v : Z) : gostring :=
  [hexdigit (v / 4096 mod 16); hexdigit (v / 256 mod 16);
   hexdigit (v / 16 mod 16); hexdigit (v mod 16)].

(** [dns.IsFqdn]: the name ends in a dot that is not escaped, that is,
    an even number of backslashes stands right before it. *)
Definition backslash : ascii := ascii_of_nat 92.

Fixpoint leading_backslashes (r : gostring) : nat :=
  match r with
  | c :: r' =>
      if Ascii.eqb c backslash then S (leading_backslashes r') else 0%nat
  | [] => 0%nat
  end.

Definition IsFqdn (s : gostring) : bool :=
  match rev s with
  | c :: r => is_sep dot c && Nat.even (leading_backslashes r)
  | [] => false
  end.

(** [dns.Fqdn] *)
Definition Fqdn (s : gostring) : gostring :=
  if IsFqdn s then s else s ++ [dot].

(** What [c.dnsClient.Exchange] returns: an error (with whether its text
    contains "i/o timeout") or a response. *)
Inductive exchange :=
| ExchangeErr (io_timeout : bool)
| ExchangeMsg (rcode : Rcode) (answer : list RR).

Inductive client_error :=
| ErrExchange
| ErrDecode (e : decode_error)
| ErrMaxRetries
| ErrSendChunk (sequence : Z) (cause : client_error)
| ErrSessionClosed
| ErrLocal.

(** The resolver is an oracle: the [k]-th exchange of the connection is
    answered by [net k].  A call returns its value, the question names it
    put on the wire, and the number of exchanges made so far. *)
Record ran (A : Type) := mkRan {
  value : A;
  emitted : list gostring;
  exchanges : nat
}.
Arguments mkRan {A}.
Arguments value {A}.
Arguments emitted {A}.
Arguments exchanges {A}.

Section WithResolver.
Variable net : nat -> exchange.
Variable sessionID : gostring.
Variable tld : gostring.

(** The loop [for attempt := 1; attempt <= maxRetries; attempt++] of
    [sendQuery]; [left] is the number of attempts still allowed. *)
Fixpoint sendQuery_attempts (left : nat) (name : gostring) (k : nat)
  : ran (bytes + client_error) :=
  match left with
  | O => mkRan (inr ErrMaxRetries) [] k
  | S left' =>
      let retry :=
        let r := sendQuery_attempts left' name (S k) in
        mkRan (value r) (name :: emitted r) (exchanges r) in
      match net k with
      | ExchangeErr io_timeout =>
          if io_timeout then retry
          else mkRan (inr ErrExchange) [name] (S k)
      | ExchangeMsg rcode answer =>
          match rcode with
          | RcodeSuccess =>
              match answer with
              | RR_TXT txt :: _ =>
                  let responseText := concat (Txt txt) in
                  if gostring_eqb responseText EMPTY
                  then mkRan (inl []) [name] (S k)
                  else
                    match decodeDNSSafe responseText with
                    | inr e => mkRan (inr (ErrDecode e)) [name] (S k)
                    | inl decodedResponse =>
                        mkRan (inl decodedResponse) [name] (S k)
                    end
              | _ => mkRan (inl []) [name] (S k)
              end
          | _ => retry
          end
      end
  end.

Definition sendQuery (fqdn : gostring) (k : nat)
  : ran (bytes + client_error) :=
  sendQuery_attempts maxRetries (Fqdn fqdn) k.

(** [fmt.Sprintf("%s.%04x.%s.%s", encodedData, seq, c.sessionID, c.tld)] *)
Definition dataName (encodedData : gostring) (seq : Z) : gostring :=
  encodedData ++ dot :: fmt_04x seq ++ dot :: sessionID ++ dot :: tld.

(** The loop [for i, subChunk := range chunks] of [sendChunk]. *)
Fixpoint sendChunk_range (i : nat) (chunks : list bytes) (sequence : Z)
    (k : nat) : ran (option client_error) :=
  match chunks with
  | [] => mkRan None [] k
  | subChunk :: chunks' =>
      let encodedData := encodeDNSSafe subChunk in
      let seq := u16 (sequence + u16 (Z.of_nat i)) in
      let q := sendQuery (dataName encodedData seq) k in
      match value q with
      | inr err => mkRan (Some (ErrSendChunk seq err)) (emitted q) (exchanges q)
      | inl _ =>
          let r := sendChunk_range (S i) chunks' sequence (exchanges q) in
          mkRan (value r) (emitted q ++ emitted r) (exchanges r)
      end
  end.

Definition sendChunk (chunk : bytes) (sequence : Z) (k : nat)
  : ran (option client_error) :=
  let maxChunkSize := 100%nat in
  let chunks := splitDataIntoChunks chunk maxChunkSize in
  sendChunk_range 0 chunks sequence k.

(** [fmt.Sprintf("AA.ffff.%s.%s", c.sessionID, c.tld)] *)
Definition pollName : gostring :=
  str "AA.ffff." ++ sessionID ++ dot :: tld.

Definition pollForData (k : nat) : ran (bytes + client_error) :=
  let q := sendQuery pollName k in
  match value q with
  | inr err => q
  | inl response =>
      if (length response =? 0)%nat
         || gostring_eqb (string_of_bytes response) EMPTY
      then mkRan (inl []) (emitted q) (exchanges q)
      else q
  end.

(** What [conn.Read(buffer)] on the local socket returns. *)
Inductive local_read := LocalData (data : bytes) | LocalErr.

(** The read goroutine of [handleConnection], run over the reads the
    local socket delivers; it stops at the first error. *)
Fixpoint uplink (reads : list local_read) (sequence : Z) (k : nat)
  : ran (option client_error) :=
  match reads with
  | [] => mkRan None [] k
  | LocalErr :: _ => mkRan (Some ErrLocal) [] k
  | LocalData data :: reads' =>
      if (0 <? length data)%nat then
        let c := sendChunk data sequence k in
        match value c with
        | Some err => c
        | None =>
            let r := uplink reads' (u16 (sequence + 1)) (exchanges c) in
            mkRan (value r) (emitted c ++ emitted r) (exchanges r)
        end
      else uplink reads' sequence k
  end.

Definition handleConnection_uplink (reads : list local_read)
  : ran (option client_error) :=
  uplink reads 0 0.

(** One pass of the poll goroutine of [handleConnection]. *)
Inductive poll_action :=
| PollFail (err : client_error)
| PollWrite (data : bytes)
| PollSleep.

Definition poll_pass (k : nat) : ran poll_action :=
  let p := pollForData k in
  let act :=
    match value p with
    | inr err => PollFail err
    | inl data =>
        if gostring_eqb (string_of_bytes data) CLOSED
        then PollFail ErrSessionClosed
        else if (0 <? length data)%nat
                && negb (gostring_eqb (string_of_bytes data) EMPTY)
             then PollWrite data
             else PollSleep
    end in
  mkRan act (emitted p) (exchanges p).

(** [sendData] *)
Definition sendData (data : bytes) (k : nat) : ran (option client_error) :=
  if (length data =? 0)%nat then mkRan None [] k
  else
    let sequence := 0 in
    sendChunk data sequence k.

End WithResolver.

(** The fields [sessionID] and [tld] that [NewDNSClient] sets. *)
Definition NewDNSClient (rnd : nat -> Z) : gostring * gostring :=
  (generateSessionID rnd, defaultTLD).

End Client.

(** ** server.go *)

Module Server.
Import GoStrings Codec.

Definition Conn := nat.

Record Session := mkSession {
  conn : option Conn;
  lastActive : Z;
  closed : bool
}.

(** Sessions are heap objects: the table maps a session id to a pointer,
    and [heap !! p] is the object behind pointer [p].  [closedConns] logs
    every [conn.Close()]. *)
Record DNSServer := mkServer {
  sessions : gmap gostring nat;
  heap : list Session;
  closedConns : list Conn
}.

Definition NewDNSServer : DNSServer := mkServer ∅ [] [].

(** An error value, by the three tests the server applies to it. *)
Record net_error := mkErr {
  is_EOF : bool;
  mentions_reset : bool;
  is_timeout : bool
}.

Inductive read_result := ReadData (data : bytes) | ReadErr (e : net_error).

(** The backend as seen by one request: the outcome of dialing it, of
    reading from and writing to a connection, and the clock. *)
Record Backend := mkBackend {
  dial : option Conn;
  read : Conn -> read_result;
  write : Conn -> bytes -> option net_error;
  now : Z
}.

Definition set_session (s : DNSServer) (p : nat) (ses : Session)
  : DNSServer :=
  mkServer (sessions s) (<[p := ses]> (heap s)) (closedConns s).

Definition log_close (s : DNSServer) (c : Conn) : DNSServer :=
  mkServer (sessions s) (heap s) (closedConns s ++ [c]).

(** [Session.Write]: [true] when the write succeeded. *)
Definition Session_Write (s : DNSServer) (bk : Backend) (p : nat)
    (ses : Session) (data : bytes) : bool * DNSServer :=
  match conn ses with
  | None => (false, s)
  | Some c =>
      match write bk c data with
      | Some _ =>
          (false,
           set_session (log_close s c) p
             (mkSession None (lastActive ses) (closed ses)))
      | None =>
          (true, set_session s p (mkSession (conn ses) (now bk) (closed ses)))
      end
  end.

(** [Session.Close] *)
Definition Session_Close (s : DNSServer) (p : nat) (ses : Session)
  : DNSServer :=
  if closed ses then s
  else
    match conn ses with
    | Some c =>
        set_session (log_close s c) p (mkSession None (lastActive ses) true)
    | None => set_session s p (mkSession None (lastActive ses) true)
    end.

(** [getSession]: the pointer of the session to use, or [None] when the
    backend could not be dialed. *)
Definition getSession (s : DNSServer) (bk : Backend) (sessionID : gostring)
  : option nat * DNSServer :=
  let fresh :=
    match dial bk with
    | None => (None, s)
    | Some c =>
        let p := length (heap s) in
        (Some p,
         mkServer (<[sessionID := p]> (sessions s))
                  (heap s ++ [mkSession (Some c) (now bk) false])
                  (closedConns s))
    end in
  match sessions s !! sessionID with
  | None => fresh
  | Some p =>
      match heap s !! p with
      | None => fresh
      | Some session =>
          match conn session with
          | None => fresh
          | Some _ => (Some p, s)
          end
      end
  end.

Inductive poll_result :=
| PollBytes (b : bytes)
| PollError
| PollNilConn.

(** [handlePoll]; calling [SetReadDeadline] on a nil connection is a
    run-time panic, reported as [PollNilConn]. *)
Definition handlePoll (s : DNSServer) (bk : Backend) (p : nat)
    (session : Session) : poll_result * DNSServer :=
  if closed session then (PollBytes (bytes_of_string CLOSED), s)
  else
    match conn session with
    | None => (PollNilConn, s)
    | Some c =>
        match read bk c with
        | ReadErr err =>
            if is_EOF err || mentions_reset err then
              (PollBytes (bytes_of_string CLOSED), Session_Close s p session)
            else if is_timeout err then
              (PollBytes (bytes_of_string EMPTY), s)
            else (PollError, s)
        | ReadData data =>
            if (length data =? 0)%nat
            then (PollBytes (bytes_of_string EMPTY), s)
            else (PollBytes data, s)
        end
    end.

Record Question := mkQuestion { QName : gostring; Qtype : Z }.

Record Msg := mkMsg {
  Questions : list Question;
  IsEdns0 : option (Z * bool)
}.

Inductive outcome :=
| Ignored
| Wrote (msg : Reply)
| Panic.

Record parsed := mkParsed {
  encodedData : gostring;
  sequence : gostring;
  sessionID : gostring;
  tld : gostring
}.

(** The name parsing of [handleDNSRequest]: [None] is the
    "not enough parts" branch. *)
Definition parseName (name : gostring) : option parsed :=
  let parts := Split (TrimSuffix name dot) dot in
  if (length parts <? 4)%nat then None
  else
    let n := length parts in
    Some (mkParsed (Join (firstn (n - 3) parts) dot)
                   (nth (n - 3) parts [])
                   (nth (n - 2) parts [])
                   (nth (n - 1) parts [])).

Definition txt (name : gostring) (strings : list gostring) : RR :=
  RR_TXT (mkTXT name TypeTXT ClassINET 0 strings).

Definition maxResponseChunkSize : nat := 180.

(** [msg.SetEdns0]: the options of the request, or a UDP size of 4096. *)
Definition reply_edns (r : Msg) : Z * bool :=
  match IsEdns0 r with
  | Some opt => opt
  | None => (4096, false)
  end.

Definition handleDNSRequest (s : DNSServer) (bk : Backend) (r : Msg)
  : outcome * DNSServer :=
  match Questions r with
  | [] => (Ignored, s)
  | question :: _ =>
      let reply rcode answer := Wrote (mkReply rcode answer (reply_edns r)) in
      match parseName (QName question) with
      | None => (reply RcodeFormatError [], s)
      | Some q =>
          match getSession s bk (sessionID q) with
          | (None, s1) => (reply RcodeServerFailure [], s1)
          | (Some p, s1) =>
              match heap s1 !! p with
              | None => (Panic, s1)
              | Some session =>
                  let isPoll := gostring_eqb (sequence q) (str "ffff") in
                  if isPoll then
                    match handlePoll s1 bk p session with
                    | (PollNilConn, s2) => (Panic, s2)
                    | (PollError, s2) => (reply RcodeServerFailure [], s2)
                    | (PollBytes response, s2) =>
                        if (length response =? 0)%nat then
                          (reply RcodeSuccess
                             [txt (QName question) [EMPTY]], s2)
                        else
                          let encoded := encodeDNSSafe response in
                          let chunks := Split encoded dot in
                          (reply RcodeSuccess
                             [txt (QName question) chunks], s2)
                    end
                  else
                    match decodeDNSSafe (encodedData q) with
                    | inr _ => (reply RcodeFormatError [], s1)
                    | inl decodedData =>
                        let acked s' :=
                          let responseText := EMPTY in
                          let strings :=
                            if (maxResponseChunkSize <? length responseText)%nat
                            then slices maxResponseChunkSize responseText
                            else [responseText] in
                          (reply RcodeSuccess
                             [txt (QName question) strings], s') in
                        if (0 <? length decodedData)%nat then
                          match Session_Write s1 bk p session decodedData with
                          | (false, s2) => (reply RcodeServerFailure [], s2)
                          | (true, s2) => acked s2
                          end
                        else acked s1
                    end
              end
          end
      end
  end.

(** The server run over a sequence of requests, each with the backend
    behaviour it meets. *)
Fixpoint serve (s : DNSServer) (reqs : list (Backend * Msg))
  : list outcome * DNSServer :=
  match reqs with
  | [] => ([], s)
  | (bk, r) :: reqs' =>
      let '(o, s1) := handleDNSRequest s bk r in
      let '(os, s2) := serve s1 reqs' in
      (o :: os, s2)
  end.

(** [5*time.Minute]; a [time.Duration] counts nanoseconds. *)
Definition fiveMinutes : Z := 5 * (60 * 1000000000).

(** The body of the loop of [cleanupSessions] for one entry of the
    table (an entry always points to a session object; nothing is done
    for a pointer without one). *)
Definition cleanup_entry (now : Z) (s : DNSServer) (entry : gostring * nat)
  : DNSServer :=
  let '(id, p) := entry in
  match heap s !! p with
  | None => s
  | Some session =>
      if closed session || (fiveMinutes <? now - lastActive session) then
        let s1 := Session_Close s p session in
        mkServer (delete id (sessions s1)) (heap s1) (closedConns s1)
      else s
  end.

(** One tick of [cleanupSessions]: the [range] visits every entry of the
    table once, in the order [order], which Go leaves unspecified. *)
Definition cleanupSessions_pass (now : Z) (order : list (gostring * nat))
    (s : DNSServer) : DNSServer :=
  fold_left (cleanup_entry now) order s.

(** A tick in the order of [map_to_list]; another order gives the same
    table and the same session objects, and logs the closed connections
    in another order. *)
Definition cleanupSessions_tick (now : Z) (s : DNSServer) : DNSServer :=
  cleanupSessions_pass now (map_to_list (sessions s)) s.

(** The server over time: requests, handled one at a time, and ticks of
    the cleanup timer. *)
Inductive event :=
| Request (bk : Backend) (r : Msg)
| Tick (now : Z).

Definition step (s : DNSServer) (e : event) : DNSServer :=
  match e with
  | Request bk r => snd (handleDNSRequest s bk r)
  | Tick now => cleanupSessions_tick now s
  end.

Definition run (s : DNSServer) (events : list event) : DNSServer :=
  fold_left step events s.

End Server.

(** ** Reading a question name and a reply *)

Import GoStrings Codec.

(** The sequence field of a question name, as the server reads it. *)
Definition seq_field (name : gostring) : option gostring :=
  option_map Server.sequence (Server.parseName name).



Definition reply_rcode (o : Server.outcome) : option Rcode :=
  match o with
  | Server.Wrote m => Some (ReplyRcode m)
  | _ => None
  end.

(** The strings of the TXT records of a reply. *)
Definition reply_txt (o : Server.outcome) : list (list gostring) :=
  match o with
  | Server.Wrote m =>
      flat_map (fun rr => match rr with RR_TXT t => [Txt t] | RR_other => [] end)
               (Answer m)
  | _ => []
  end.

(** A resolver that acknowledges every query with the TXT answer "EMPTY". *)
Definition ack_resolver (k : nat) : Client.exchange :=
  Client.ExchangeMsg RcodeSuccess [Server.txt [] [EMPTY]].

(** A backend that accepts the dial as connection [c] and every write, and
    answers every read with [r]. *)
Definition backend (c : Server.Conn) (r : Server.read_result) (t : Z)
  : Server.Backend :=
  Server.mkBackend (Some c) (fun _ => r) (fun _ _ => None) t.

Definition EOF : Server.net_error := Server.mkErr true false false.
Definition timeout : Server.net_error := Server.mkErr false false true.

Definition query (name : string) : Server.Msg :=
  Server.mkMsg [Server.mkQuestion (str name) TypeTXT] None.

(** ** Vocabulary of the statements *)

Definition in_alphabet (c : ascii) : Prop := In c dnsBase32Alphabet.

Definition dns_safe_label (label : gostring) : Prop :=
  (length label <= 63)%nat /\ ~ In dot label /\ Forall in_alphabet label.

(** The shape of every question name of the client. *)
Definition composeName (encoded seqHex sid tld : gostring) : gostring :=
  encoded ++ dot :: seqHex ++ dot :: sid ++ dot :: tld.

(** A read of the local socket fills at most the [maxChunkSize] buffer. *)
Definition read_fits (r : Client.local_read) : Prop :=
  match r with
  | Client.LocalData data => (length data <= maxChunkSize)%nat
  | Client.LocalErr => True
  end.

(** The reply to request [r] with the given RCODE and one TXT record per
    list of strings. *)
Definition answer (r : Server.Msg) (question : Server.Question)
    (rcode : Rcode) (strings : list (list gostring)) : Server.outcome :=
  Server.Wrote
    (mkReply rcode (map (Server.txt (Server.QName question)) strings)
       (Server.reply_edns r)).

(** A server with one open session, connected as connection 1. *)
Definition one_session : Server.DNSServer :=
  Server.mkServer {[ str "ABCDEFG" := 0%nat ]}
    [Server.mkSession (Some 1%nat) 0 false] [].

(** A resolver whose every answer is the TXT text "CLOSED". *)
Definition closed_resolver (k : nat) : Client.exchange :=
  Client.ExchangeMsg RcodeSuccess [Server.txt [] [CLOSED]].

(** The five bytes of a quantum as eight 5-bit values, arithmetically. *)
Definition symbols (s0 s1 s2 s3 s4 : Z) : list Z :=
  [s0 / 8; s0 mod 8 * 4 + s1 / 64; s1 / 2 mod 32; s1 mod 2 * 16 + s2 / 16;
   s2 mod 16 * 2 + s3 / 128; s3 / 4 mod 32; s3 mod 4 * 8 + s4 / 32;
   s4 mod 32].

(** A packet with a four-byte big-endian length field that counts the
    bytes after it, as SSH frames its packets. *)
Definition length_prefixed (p : bytes) : Prop :=
  (4 <= length p)%nat /\ Forall is_byte p
  /\ Uint32 (slice p 0 4) + 4 = Z.of_nat (length p).

(** An exchange after which [sendQuery] tries again: an i/o timeout, or a
    response whose RCODE is not success. *)
Definition retried (e : Client.exchange) : bool :=
  match e with
  | Client.ExchangeErr io_timeout => io_timeout
  | Client.ExchangeMsg RcodeSuccess _ => false
  | Client.ExchangeMsg _ _ => true
  end.

(** A response that acknowledges a data query: success, with a TXT record
    whose text is EMPTY. *)
Definition acknowledges (e : Client.exchange) : Prop :=
  exists t rest,
    e = Client.ExchangeMsg RcodeSuccess (RR_TXT t :: rest)
    /\ concat (Txt t) = EMPTY.

(** What the client's exchange returns when the server's handler had the
    given outcome: the reply, or an i/o timeout when nothing was sent. *)
Definition deliver (o : Server.outcome) : Client.exchange :=
  match o with
  | Server.Wrote m => Client.ExchangeMsg (ReplyRcode m) (Answer m)
  | _ => Client.ExchangeErr true
  end.

(** A string of a TXT record as the server writes it: one to forty
    characters of the base32 alphabet. *)
Definition txt_string_ok (text : gostring) : Prop :=
  (1 <= length text <= 40)%nat /\ Forall in_alphabet text.

(** Every entry of the session table points to a session object. *)
Definition table_valid (s : Server.DNSServer) : Prop :=
  forall id p, Server.sessions s !! id = Some p ->
               is_Some (Server.heap s !! p).

(** No two session ids share a session object. *)
Definition table_injective (s : Server.DNSServer) : Prop :=
  forall id1 id2 p,
    Server.sessions s !! id1 = Some p -> Server.sessions s !! id2 = Some p ->
    id1 = id2.

(** A closed session holds no connection. *)
Definition closed_released (s : Server.DNSServer) : Prop :=
  forall p ses, Server.heap s !! p = Some ses ->
                Server.closed ses = true -> Server.conn ses = None.

(** A session object that holds a connection is in the table. *)
Definition no_leak (s : Server.DNSServer) : Prop :=
  forall p ses c, Server.heap s !! p = Some ses ->
                  Server.conn ses = Some c ->
                  exists id, Server.sessions s !! id = Some p.

Definition wf (s : Server.DNSServer) : Prop :=
  table_valid s /\ table_injective s /\ closed_released s /\ no_leak s.

(** The condition under which [cleanupSessions] removes a session. *)
Definition expired (now : Z) (ses : Server.Session) : bool :=
  Server.closed ses || (Server.fiveMinutes <? now - Server.lastActive ses).

(** The question names of the data queries for one read of the local
    socket, the subchunks numbered from [base]. *)
Definition chunk_names (sid tld : gostring) (data : bytes) (base : Z)
  : list gostring :=
  imap (fun i sub =>
          Client.Fqdn
            (Client.dataName sid tld (encodeDNSSafe sub)
               (Client.u16 (base + Client.u16 (Z.of_nat i)))))
       (splitDataIntoChunks data 100).

Section GoStringsFacts.

Lemma is_sep_true sep c : is_sep sep c = true <-> c = sep.
Proof. unfold is_sep. apply Ascii.eqb_eq. Qed.

Lemma Split_nonempty s sep : Split s sep <> [].
Proof.
  destruct s as [|c s]; simpl; [discriminate|].
  destruct (is_sep sep c); [discriminate|].
  destruct (Split s sep); discriminate.
Qed.

Lemma Split_app_sep a b sep :
  Split (a ++ sep :: b) sep = Split a sep ++ Split b sep.
Proof.
  induction a as [|c a IH]; simpl.
  - assert (H : is_sep sep sep = true) by (apply is_sep_true; reflexivity).
    rewrite H. reflexivity.
  - destruct (is_sep sep c); [rewrite IH; reflexivity|].
    rewrite IH. pose proof (Split_nonempty a sep) as Hne.
    destruct (Split a sep) as [|p ps]; [congruence|reflexivity].
Qed.

Lemma Split_no_sep s sep : ~ In sep s -> Split s sep = [s].
Proof.
  induction s as [|c s IH]; simpl; intros Hin; [reflexivity|].
  destruct (is_sep sep c) eqn:E.
  - apply is_sep_true in E. subst. tauto.
  - rewrite IH by tauto. reflexivity.
Qed.

Lemma Split_Join ls sep :
  ls <> [] -> Forall (fun l => ~ In sep l) ls -> Split (Join ls sep) sep = ls.
Proof.
  induction ls as [|l ls IH]; intros Hne Hall; [congruence|].
  inversion Hall as [|? ? Hl Hls]; subst.
  destruct ls as [|l' ls'].
  - simpl. apply Split_no_sep, Hl.
  - change (Join (l :: l' :: ls') sep) with (l ++ sep :: Join (l' :: ls') sep).
    rewrite Split_app_sep, IH by (assumption || discriminate).
    rewrite Split_no_sep by assumption. reflexivity.
Qed.

Lemma ReplaceAll_Join ls sep :
  Forall (fun l => ~ In sep l) ls -> ReplaceAll_empty (Join ls sep) sep = concat ls.
Proof.
  unfold ReplaceAll_empty.
  assert (Hkeep : forall l, ~ In sep l ->
            List.filter (fun c => negb (is_sep sep c)) l = l).
  { induction l as [|c l IHl]; simpl; intros Hn; [reflexivity|].
    destruct (is_sep sep c) eqn:E.
    - apply is_sep_true in E. subst. tauto.
    - simpl. rewrite IHl by tauto. reflexivity. }
  induction ls as [|l ls IH]; intros Hall; [reflexivity|].
  inversion Hall as [|? ? Hl Hls]; subst.
  destruct ls as [|l' ls'].
  - simpl. rewrite app_nil_r. apply Hkeep, Hl.
  - change (Join (l :: l' :: ls') sep) with (l ++ sep :: Join (l' :: ls') sep).
    assert (H : is_sep sep sep = true) by (apply is_sep_true; reflexivity).
    rewrite List.filter_app, Hkeep by assumption.
    change (concat (l :: l' :: ls')) with (l ++ concat (l' :: ls')).
    f_equal. rewrite <- IH by assumption.
    cbn [List.filter]. rewrite H. reflexivity.
Qed.

Context {A : Type}.

Lemma slice_length (x : list A) i e : (length (slice x i e) <= e - i)%nat.
Proof. unfold slice. rewrite length_firstn. lia. Qed.

Lemma slice_In (x : list A) i e a : In a (slice x i e) -> In a x.
Proof.
  unfold slice. intros H.
  rewrite <- (firstn_skipn i x). apply in_or_app. right.
  rewrite <- (firstn_skipn (e - i) (skipn i x)). apply in_or_app. left.
  exact H.
Qed.

Lemma slices_from_bound fuel size i (x : list A) :
  Forall (fun s => (length s <= size)%nat /\ forall a, In a s -> In a x)
         (slices_from fuel size i x).
Proof.
  revert i. induction fuel as [|fuel IH]; intros i; simpl; [constructor|].
  destruct (i <? length x)%nat; [|constructor].
  constructor; [|apply IH]. split.
  - pose proof (slice_length x i
      (if (length x <? i + size)%nat then length x else (i + size)%nat)) as H.
    destruct (Nat.ltb_spec (length x) (i + size)); lia.
  - intros a. apply slice_In.
Qed.

(** Enough fuel: the pieces, concatenated, are the input from [i] on. *)
Lemma slices_from_concat fuel size i (x : list A) :
  (0 < size)%nat -> (length x <= i + fuel)%nat ->
  concat (slices_from fuel size i x) = skipn i x.
Proof.
  intros Hsize. revert i. induction fuel as [|fuel IH]; intros i Hfuel; simpl.
  - rewrite skipn_all2 by lia. reflexivity.
  - destruct (Nat.ltb_spec i (length x)) as [Hlt|Hge].
    + simpl. rewrite IH by lia. unfold slice.
      destruct (Nat.ltb_spec (length x) (i + size)) as [Hend|Hend].
      * rewrite (skipn_all2 x (n := i + size)) by lia.
        rewrite app_nil_r. apply firstn_all2. rewrite length_skipn. lia.
      * replace (i + size - i)%nat with size by lia.
        replace (i + size)%nat with (size + i)%nat by lia.
        rewrite <- skipn_skipn. apply firstn_skipn.
    + rewrite skipn_all2 by lia. reflexivity.
Qed.

Lemma slices_concat size (x : list A) :
  (0 < size)%nat -> concat (slices size x) = x.
Proof.
  intros H. unfold slices. rewrite slices_from_concat by (assumption || lia).
  reflexivity.
Qed.

(** The number of pieces: [size] times one less than it stays below
    what is left of the input. *)
Lemma slices_from_count fuel size i (x : list A) :
  (0 < size)%nat ->
  slices_from fuel size i x = [] \/
  (i + size * (length (slices_from fuel size i x) - 1) < length x)%nat.
Proof.
  intros Hsize. revert i. induction fuel as [|fuel IH]; intros i; simpl;
    [left; reflexivity|].
  destruct (Nat.ltb_spec i (length x)) as [Hlt|Hge]; [|left; reflexivity].
  right. simpl. destruct (IH (i + size)%nat) as [E|Hc].
  - rewrite E. simpl. lia.
  - destruct (slices_from fuel size (i + size) x) as [|y ys]; simpl in *; nia.
Qed.

Lemma slices_nonempty size (x : list A) : x <> [] -> slices size x <> [].
Proof.
  intros Hx. unfold slices. destruct x as [|a x]; [congruence|].
  simpl. discriminate.
Qed.

End GoStringsFacts.

Section Base32Facts.
Import Base32.

Lemma land_31_range v : 0 <= Z.land v 31 < 32.
Proof.
  change 31 with (Z.ones 5). rewrite Z.land_ones by lia.
  apply Z.mod_pos_bound. reflexivity.
Qed.

Lemma encodeChar_in_alphabet v :
  in_alphabet (encodeChar dnsBase32Alphabet (Z.land v 31)).
Proof.
  unfold in_alphabet, encodeChar. apply nth_In.
  pose proof (land_31_range v). change (length dnsBase32Alphabet) with 32%nat.
  lia.
Qed.

Lemma emit_in_alphabet size b :
  Forall in_alphabet (emit dnsBase32Alphabet size b).
Proof.
  unfold emit. apply List.Forall_forall. intros c Hc.
  apply in_map_iff in Hc as [v [<- _]]. apply encodeChar_in_alphabet.
Qed.

Lemma Encode_in_alphabet dstlen src :
  Forall in_alphabet (Encode dnsBase32Alphabet dstlen src).
Proof.
  remember (length src) as n eqn:Hn.
  assert (Hle : (length src <= n)%nat) by lia. clear Hn.
  revert dstlen src Hle. induction n as [|n IH]; intros dstlen src Hle.
  - destruct src; [constructor | simpl in Hle; lia].
  - destruct src as [|s0 [|s1 [|s2 [|s3 [|s4 rest]]]]];
      try (constructor; fail); try apply emit_in_alphabet.
    cbn [Encode]. apply List.Forall_app. split; [apply emit_in_alphabet|].
    apply IH. simpl in Hle. lia.
Qed.

Lemma dot_not_in_alphabet : ~ in_alphabet dot.
Proof.
  unfold in_alphabet, dnsBase32Alphabet, str. simpl.
  intros H. repeat (destruct H as [H|H]; [discriminate H|]). exact H.
Qed.

(** A character of the alphabet is neither the padding byte nor unknown
    to the decoder. *)
Lemma alphabet_char_decodes c :
  In c encodeStd ->
  Ascii.eqb c padByte = false /\ (decodeMap encodeStd c =? 255) = false.
Proof.
  unfold encodeStd, str. simpl. intros H.
  repeat (destruct H as [<-|H]; [split; reflexivity|]). contradiction.
Qed.

Lemma read_quantum_total olen need src dbuf :
  Forall (fun c => In c encodeStd) src ->
  exists dbuf' dlen finished rest,
    read_quantum encodeStd olen need src dbuf = QRead dbuf' dlen finished rest
    /\ Forall (fun c => In c encodeStd) rest.
Proof.
  revert src dbuf. induction need as [|need IH]; intros src dbuf Hsrc; simpl.
  - do 4 eexists. split; [reflexivity|assumption].
  - destruct src as [|c src'];
      [do 4 eexists; split; [reflexivity|constructor]|].
    inversion Hsrc as [|? ? Hc Hrest]; subst.
    destruct (alphabet_char_decodes c Hc) as [Hpad Hmap].
    rewrite Hpad, Hmap. simpl. apply IH, Hrest.
Qed.

Lemma decode_loop_total fuel olen src :
  Forall (fun c => In c encodeStd) src ->
  exists out, decode_loop encodeStd fuel olen src = inl out.
Proof.
  revert src. induction fuel as [|fuel IH]; intros src Hsrc;
    cbn [decode_loop]; [eauto|].
  destruct src as [|c src']; [eauto|].
  destruct (read_quantum_total olen 8 (c :: src') [] Hsrc)
    as (dbuf & dlen & fin & rest & -> & Hrest).
  destruct fin; [eauto|].
  destruct (IH rest Hrest) as [out ->]. eauto.
Qed.

Lemma stripNewlines_Forall (P : ascii -> Prop) s :
  Forall P s -> Forall P (stripNewlines s).
Proof.
  unfold stripNewlines. intros H. apply List.Forall_forall. intros c Hc.
  apply filter_In in Hc as [Hc _]. rewrite List.Forall_forall in H. auto.
Qed.

(** Text over the alphabet never fails to decode, whatever its length. *)
Lemma decodeDNSSafe_total s :
  Forall (fun c => In c encodeStd) (ReplaceAll_empty s dot) ->
  exists out, decodeDNSSafe s = inl out.
Proof.
  intros H. unfold decodeDNSSafe.
  destruct (gostring_eqb s EMPTY); [eauto|].
  unfold DecodeString.
  destruct (decode_loop_total
              (length (stripNewlines (ReplaceAll_empty s dot)))
              (Z.of_nat (length (stripNewlines (ReplaceAll_empty s dot))))
              (stripNewlines (ReplaceAll_empty s dot)))
    as [out ->]; [apply stripNewlines_Forall, H | eauto].
Qed.

End Base32Facts.

Section CodecLabels.

Lemma revalidate_short result labels :
  Forall (fun l => (length l <= maxLabelSize)%nat) labels ->
  revalidate result labels = result.
Proof.
  unfold revalidate. revert result.
  induction labels as [|l labels IH]; intros result H; [reflexivity|].
  inversion H as [|? ? Hl Hls]; subst. simpl.
  destruct (Nat.ltb_spec maxLabelSize (length l)); [lia|]. apply IH, Hls.
Qed.

Lemma encoded_labels_safe data :
  Forall dns_safe_label
    (slices maxSafeLabelSize (Base32.EncodeToString dnsBase32Alphabet data)).
Proof.
  pose proof (Encode_in_alphabet (Base32.EncodedLen (length data)) data) as Halpha.
  fold (Base32.EncodeToString dnsBase32Alphabet data) in Halpha.
  rewrite List.Forall_forall in Halpha.
  eapply List.Forall_impl; [|apply slices_from_bound].
  intros label [Hlen Hin]. unfold dns_safe_label.
  assert (Hall : Forall in_alphabet label)
    by (apply List.Forall_forall; auto).
  split; [unfold maxSafeLabelSize in Hlen; lia|]. split; [|exact Hall].
  intros Hdot. rewrite List.Forall_forall in Hall.
  exact (dot_not_in_alphabet (Hall _ Hdot)).
Qed.

(** For a nonempty payload the labels of the name are the 40-character
    pieces of the base32 text. *)
Lemma Split_encodeDNSSafe data :
  data <> [] ->
  slices maxSafeLabelSize (Base32.EncodeToString dnsBase32Alphabet data) <> [] ->
  Split (encodeDNSSafe data) dot
  = slices maxSafeLabelSize (Base32.EncodeToString dnsBase32Alphabet data).
Proof.
  intros Hdata Hne. unfold encodeDNSSafe.
  destruct data as [|b data]; [congruence|]. cbn [length Nat.eqb].
  pose proof (encoded_labels_safe (b :: data)) as Hsafe.
  set (labels := slices maxSafeLabelSize _) in *.
  assert (HS : Split (Join labels dot) dot = labels).
  { apply Split_Join; [exact Hne|].
    eapply List.Forall_impl; [|exact Hsafe]. intros l Hl. apply Hl. }
  rewrite HS, revalidate_short; [exact HS|].
  eapply List.Forall_impl; [|exact Hsafe].
  intros l [Hl _]. unfold maxLabelSize. lia.
Qed.

(** C7. Every dot-separated label of [encodeDNSSafe P] has at most 63
    characters, contains no dot and is written in the base32 alphabet
    [A-Z2-7]; for the empty payload the name is the literal EMPTY. *)
Theorem C7_labels_short_dotless_base32 (P : bytes) :
  Forall (fun label =>
            (length label <= 63)%nat /\ ~ In dot label /\
            Forall (fun c => In c dnsBase32Alphabet) label)
         (Split (encodeDNSSafe P) dot)
  /\ encodeDNSSafe [] = str "EMPTY".
Proof.
  split.
  - destruct P as [|b P].
    + change (Split (encodeDNSSafe []) dot) with [EMPTY].
      constructor; [|constructor]. split; [simpl; lia|]. split.
      * simpl. intros H.
        repeat (destruct H as [H|H]; [discriminate H|]). exact H.
      * unfold EMPTY, dnsBase32Alphabet, str. simpl.
        repeat (constructor; [simpl; tauto|]). constructor.
    + destruct (slices maxSafeLabelSize
                  (Base32.EncodeToString dnsBase32Alphabet (b :: P)))
        as [|l ls] eqn:E.
      * unfold encodeDNSSafe. cbn [length Nat.eqb]. rewrite E.
        change (Split (revalidate (Join [] dot) (Split (Join [] dot) dot)) dot)
          with [@nil ascii].
        constructor; [|constructor]. split; [simpl; lia|].
        split; [simpl; tauto|constructor].
      * rewrite Split_encodeDNSSafe, E by (rewrite ?E; discriminate).
        rewrite <- E. apply encoded_labels_safe.
  - reflexivity.
Qed.

End CodecLabels.

Section RoundTrip.
Import Base32.

Lemma lor_add_disjoint x y k :
  0 <= k -> x mod 2 ^ k = 0 -> 0 <= y < 2 ^ k -> Z.lor x y = x + y.
Proof.
  intros Hk Hx Hy.
  assert (Hland : Z.land x y = 0).
  { apply Z.bits_inj'. intros n Hn. rewrite Z.land_spec, Z.bits_0.
    destruct (Z.lt_ge_cases n k) as [Hlt|Hge].
    - assert (Ex : x = x / 2 ^ k * 2 ^ k).
      { pose proof (Z.div_mod x (2 ^ k)) as E.
        rewrite Hx in E. rewrite Z.mul_comm. lia. }
      rewrite Ex, Z.mul_pow2_bits_low by lia. reflexivity.
    - assert (Hyn : Z.testbit y n = false).
      { destruct (Z.eq_dec y 0) as [->|Hy0]; [apply Z.bits_0|].
        apply Z.bits_above_log2; [lia|].
        assert (Z.log2 y < k) by (apply Z.log2_lt_pow2; lia). lia. }
      rewrite Hyn. apply andb_false_r. }
  pose proof (Z.add_lor_land x y). lia.
Qed.

Ltac bits_to_arith :=
  unfold u8;
  change 31 with (Z.ones 5);
  rewrite ?Z.land_ones by lia;
  rewrite ?Z.shiftr_div_pow2, ?Z.shiftl_mul_pow2 by lia;
  change (2 ^ 1) with 2; change (2 ^ 2) with 4; change (2 ^ 3) with 8;
  change (2 ^ 4) with 16; change (2 ^ 5) with 32; change (2 ^ 6) with 64;
  change (2 ^ 7) with 128.

Ltac arith := Z.div_mod_to_equations; lia.

Ltac list_eq :=
  repeat match goal with
         | |- _ :: _ = _ :: _ => f_equal
         end.

(** The values [b[i] & 31] that [Encode] looks up for a full quantum. *)
Lemma quantum5_symbols s0 s1 s2 s3 s4 rest :
  is_byte s0 -> is_byte s1 -> is_byte s2 -> is_byte s3 -> is_byte s4 ->
  map (fun v => Z.land v 31) (quantum (s0 :: s1 :: s2 :: s3 :: s4 :: rest))
  = symbols s0 s1 s2 s3 s4.
Proof.
  unfold is_byte. intros H0 H1 H2 H3 H4.
  unfold quantum, symbols. cbn [length Nat.leb nth map]. bits_to_arith.
  rewrite (Z.lor_comm (s4 / 32)), (lor_add_disjoint _ (s4 / 32) 3) by arith.
  rewrite (Z.lor_comm (s3 / 128)), (lor_add_disjoint _ (s3 / 128) 1) by arith.
  rewrite (Z.lor_comm (s2 / 16 mod 32)),
    (lor_add_disjoint _ (s2 / 16 mod 32) 4) by arith.
  rewrite (Z.lor_comm (s1 / 64 mod 32)),
    (lor_add_disjoint _ (s1 / 64 mod 32) 2) by arith.
  list_eq; arith.
Qed.

Ltac lor_to_add :=
  repeat match goal with
         | |- context [Z.lor ?a ?b] =>
             first
               [ rewrite (lor_add_disjoint a b 1) by arith
               | rewrite (lor_add_disjoint a b 2) by arith
               | rewrite (lor_add_disjoint a b 3) by arith
               | rewrite (lor_add_disjoint a b 4) by arith
               | rewrite (lor_add_disjoint a b 5) by arith
               | rewrite (lor_add_disjoint a b 6) by arith
               | rewrite (lor_add_disjoint a b 7) by arith
               | rewrite (Z.lor_comm a b), (lor_add_disjoint b a 1) by arith
               | rewrite (Z.lor_comm a b), (lor_add_disjoint b a 2) by arith
               | rewrite (Z.lor_comm a b), (lor_add_disjoint b a 3) by arith
               | rewrite (Z.lor_comm a b), (lor_add_disjoint b a 4) by arith
               | rewrite (Z.lor_comm a b), (lor_add_disjoint b a 5) by arith ]
         end.

(** A final quantum of one to four bytes: the missing bytes count as 0. *)
Lemma quantum_short_symbols src :
  Forall is_byte src -> (length src <= 4)%nat ->
  map (fun v => Z.land v 31) (quantum src)
  = symbols (nth 0 src 0) (nth 1 src 0) (nth 2 src 0) (nth 3 src 0) 0.
Proof.
  intros Hb Hlen.
  destruct src as [|s0 [|s1 [|s2 [|s3 [|s4 rest]]]]];
    [| | | | |simpl in Hlen; lia];
    repeat match goal with
           | H : Forall is_byte (_ :: _) |- _ =>
               let Hx := fresh "Hx" in
               inversion H as [|? ? Hx ?]; subst; clear H; unfold is_byte in Hx
           end;
    unfold quantum, symbols; cbn [length Nat.leb nth map];
    bits_to_arith; lor_to_add; list_eq; arith.
Qed.

Lemma symbols_range s0 s1 s2 s3 s4 :
  is_byte s0 -> is_byte s1 -> is_byte s2 -> is_byte s3 -> is_byte s4 ->
  Forall (fun v => 0 <= v < 32) (symbols s0 s1 s2 s3 s4).
Proof.
  unfold is_byte, symbols. intros.
  repeat (constructor; [arith|]). constructor.
Qed.

(** What [decode] packs from the values of a quantum. *)
Lemma pack_symbols s0 s1 s2 s3 s4 :
  is_byte s0 -> is_byte s1 -> is_byte s2 -> is_byte s3 -> is_byte s4 ->
  pack (symbols s0 s1 s2 s3 s4) 8 = [s0; s1; s2; s3; s4]
  /\ pack (firstn 7 (symbols s0 s1 s2 s3 0)) 7 = [s0; s1; s2; s3]
  /\ pack (firstn 5 (symbols s0 s1 s2 0 0)) 5 = [s0; s1; s2]
  /\ pack (firstn 4 (symbols s0 s1 0 0 0)) 4 = [s0; s1]
  /\ pack (firstn 2 (symbols s0 0 0 0 0)) 2 = [s0].
Proof.
  unfold is_byte. intros H0 H1 H2 H3 H4.
  repeat split;
    unfold pack, symbols;
    cbn [firstn nth Nat.eqb Nat.leb orb andb app];
    bits_to_arith; lor_to_add; list_eq; arith.
Qed.

(** Looking a value up in the alphabet and back. *)
Lemma symbol_roundtrip v :
  0 <= v < 32 ->
  Ascii.eqb (encodeChar dnsBase32Alphabet v) padByte = false
  /\ decodeMap encodeStd (encodeChar dnsBase32Alphabet v) = v.
Proof.
  intros Hv.
  assert (E : exists n, (n < 32)%nat /\ v = Z.of_nat n)
    by (exists (Z.to_nat v); lia).
  destruct E as (n & Hn & ->).
  do 32 (destruct n as [|n]; [split; reflexivity|]). lia.
Qed.

Lemma read_quantum_symbols syms : forall need dbuf tail olen,
  Forall (fun v => 0 <= v < 32) syms -> length syms = need ->
  read_quantum encodeStd olen need
    (map (encodeChar dnsBase32Alphabet) syms ++ tail) dbuf
  = QRead (dbuf ++ syms) 8 false tail.
Proof.
  induction syms as [|v syms IH]; intros need dbuf tail olen Hr Hlen;
    subst need.
  - rewrite app_nil_r. reflexivity.
  - inversion Hr as [|? ? Hv Hrest]; subst.
    destruct (symbol_roundtrip v Hv) as [Hpad Hmap].
    cbn [length map app read_quantum]. rewrite Hpad, Hmap.
    cbn [andb]. destruct (Z.eqb_spec v 255) as [E|_]; [lia|].
    rewrite IH by (assumption || reflexivity).
    rewrite <- app_assoc. reflexivity.
Qed.

Lemma read_quantum_short syms : forall need dbuf olen,
  Forall (fun v => 0 <= v < 32) syms -> (length syms < need)%nat ->
  read_quantum encodeStd olen need
    (map (encodeChar dnsBase32Alphabet) syms) dbuf
  = QRead (dbuf ++ syms) (length dbuf + length syms) true [].
Proof.
  induction syms as [|v syms IH]; intros need dbuf olen Hr Hlen;
    (destruct need as [|need]; [simpl in Hlen; lia|]).
  - cbn [map read_quantum length]. rewrite app_nil_r, Nat.add_0_r.
    reflexivity.
  - inversion Hr as [|? ? Hv Hrest]; subst.
    destruct (symbol_roundtrip v Hv) as [Hpad Hmap].
    cbn [length map read_quantum]. rewrite Hpad, Hmap.
    cbn [andb]. destruct (Z.eqb_spec v 255) as [E|_]; [lia|].
    rewrite IH by (assumption || (simpl in Hlen; lia)).
    rewrite <- app_assoc, length_app. cbn [length app].
    f_equal. lia.
Qed.

Lemma emit_symbols size b :
  emit dnsBase32Alphabet size b
  = map (encodeChar dnsBase32Alphabet)
      (firstn (Nat.min 8 size) (map (fun v => Z.land v 31) b)).
Proof. unfold emit. rewrite firstn_map, map_map. reflexivity. Qed.

Lemma EncodedLen_quantum n :
  EncodedLen (S (S (S (S (S n))))) = (EncodedLen n + 8)%nat.
Proof.
  unfold EncodedLen.
  replace (S (S (S (S (S n)))) * 8 + 4)%nat with (n * 8 + 4 + 8 * 5)%nat
    by lia.
  apply Nat.div_add. discriminate.
Qed.

Lemma Forall_take {A} (P : A -> Prop) n (l : list A) :
  Forall P l -> Forall P (firstn n l).
Proof.
  intros H. rewrite <- (firstn_skipn n l) in H.
  apply List.Forall_app in H. apply H.
Qed.

(** The last pass of [decode] over a short final group. *)
Lemma decode_final syms fuel olen :
  Forall (fun v => 0 <= v < 32) syms -> (0 < length syms < 8)%nat ->
  decode_loop encodeStd (S fuel) olen
    (map (encodeChar dnsBase32Alphabet) syms)
  = inl (pack syms (length syms)).
Proof.
  intros Hr Hlen. destruct syms as [|a syms]; [simpl in Hlen; lia|].
  cbn [map decode_loop].
  change (encodeChar dnsBase32Alphabet a
            :: map (encodeChar dnsBase32Alphabet) syms)
    with (map (encodeChar dnsBase32Alphabet) (a :: syms)).
  rewrite read_quantum_short by (assumption || lia). reflexivity.
Qed.

(** A pass of [decode] over a full group of eight characters. *)
Lemma decode_full syms tail fuel olen :
  Forall (fun v => 0 <= v < 32) syms -> length syms = 8%nat ->
  decode_loop encodeStd (S fuel) olen
    (map (encodeChar dnsBase32Alphabet) syms ++ tail)
  = match decode_loop encodeStd fuel olen tail with
    | inl out => inl (pack syms 8 ++ out)
    | inr e => inr e
    end.
Proof.
  intros Hr Hlen. destruct syms as [|a syms]; [discriminate|].
  cbn [map app decode_loop].
  change (encodeChar dnsBase32Alphabet a
            :: map (encodeChar dnsBase32Alphabet) syms ++ tail)
    with (map (encodeChar dnsBase32Alphabet) (a :: syms) ++ tail).
  rewrite read_quantum_symbols by assumption. reflexivity.
Qed.

Ltac side :=
  first [ assumption
        | simpl; lia
        | repeat (apply List.Forall_cons; [assumption|]);
          apply List.Forall_nil ].

(** Decoding undoes encoding on the base32 text. *)
Lemma decode_Encode n : forall src fuel olen,
  (length src <= n)%nat -> Forall is_byte src -> (length src <= fuel)%nat ->
  decode_loop encodeStd fuel olen
    (Encode dnsBase32Alphabet (EncodedLen (length src)) src)
  = inl src.
Proof.
  assert (Z0 : is_byte 0) by (unfold is_byte; lia).
  induction n as [|n IH]; intros src fuel olen Hn Hb Hfuel.
  - destruct src; [|simpl in Hn; lia]. destruct fuel; reflexivity.
  - destruct src as [|s0 [|s1 [|s2 [|s3 [|s4 rest]]]]];
      [destruct fuel; reflexivity|..];
      (destruct fuel as [|fuel]; [simpl in Hfuel; lia|]);
      repeat match goal with
             | H : Forall is_byte (_ :: _) |- _ =>
                 let Hx := fresh "B" in
                 inversion H as [|? ? Hx ?]; subst; clear H
             end.
    + cbn [Encode]. rewrite emit_symbols, quantum_short_symbols
        by side.
      change (EncodedLen (length [s0])) with 2%nat. cbn [Nat.min nth].
      rewrite decode_final
        by (try apply Forall_take, symbols_range; assumption || (simpl; lia)).
      f_equal. apply (pack_symbols s0 0 0 0 0); assumption.
    + cbn [Encode]. rewrite emit_symbols, quantum_short_symbols
        by side.
      change (EncodedLen (length [s0; s1])) with 4%nat. cbn [Nat.min nth].
      rewrite decode_final
        by (try apply Forall_take, symbols_range; assumption || (simpl; lia)).
      f_equal. apply (pack_symbols s0 s1 0 0 0); assumption.
    + cbn [Encode]. rewrite emit_symbols, quantum_short_symbols
        by side.
      change (EncodedLen (length [s0; s1; s2])) with 5%nat.
      cbn [Nat.min nth].
      rewrite decode_final
        by (try apply Forall_take, symbols_range; assumption || (simpl; lia)).
      f_equal. apply (pack_symbols s0 s1 s2 0 0); assumption.
    + cbn [Encode]. rewrite emit_symbols, quantum_short_symbols
        by side.
      change (EncodedLen (length [s0; s1; s2; s3])) with 7%nat.
      cbn [Nat.min nth].
      rewrite decode_final
        by (try apply Forall_take, symbols_range; assumption || (simpl; lia)).
      f_equal. apply (pack_symbols s0 s1 s2 s3 0); assumption.
    + cbn [Encode length]. rewrite EncodedLen_quantum.
      rewrite emit_symbols, quantum5_symbols by assumption.
      replace (Nat.min 8 (EncodedLen (length rest) + 8)) with 8%nat by lia.
      replace (EncodedLen (length rest) + 8 - 8)%nat
        with (EncodedLen (length rest)) by lia.
      change (firstn 8 (symbols s0 s1 s2 s3 s4)) with (symbols s0 s1 s2 s3 s4).
      rewrite decode_full by (try apply symbols_range; assumption || reflexivity).
      rewrite IH by (assumption || (simpl in Hn, Hfuel; lia)).
      f_equal.
      rewrite (proj1 (pack_symbols s0 s1 s2 s3 s4 B B0 B1 B2 B3)).
      reflexivity.
Qed.

Lemma Encode_length_ge n : forall src,
  (length src <= n)%nat ->
  (length src
   <= length (Encode dnsBase32Alphabet (EncodedLen (length src)) src))%nat.
Proof.
  induction n as [|n IH]; intros src Hn.
  - destruct src; [simpl; lia|simpl in Hn; lia].
  - destruct src as [|s0 [|s1 [|s2 [|s3 [|s4 rest]]]]];
      try (cbn; lia).
    cbn [Encode length]. rewrite EncodedLen_quantum, length_app.
    replace (EncodedLen (length rest) + 8 - 8)%nat
      with (EncodedLen (length rest)) by lia.
    assert (length rest
            <= length (Encode dnsBase32Alphabet (EncodedLen (length rest)) rest))%nat
      by (apply IH; simpl in Hn; lia).
    unfold emit. rewrite length_map, length_firstn.
    replace (Nat.min 8 (EncodedLen (length rest) + 8)) with 8%nat by lia.
    change (length (quantum (s0 :: s1 :: s2 :: s3 :: s4 :: rest))) with 8%nat.
    simpl Nat.min. lia.
Qed.

Lemma stripNewlines_alphabet s :
  Forall in_alphabet s -> stripNewlines s = s.
Proof.
  unfold stripNewlines. induction s as [|c s IH]; intros H; [reflexivity|].
  inversion H as [|? ? Hc Hs]; subst. cbn [List.filter].
  assert (E : is_newline c = false).
  { unfold in_alphabet, dnsBase32Alphabet, str in Hc. simpl in Hc.
    repeat (destruct Hc as [<-|Hc]; [reflexivity|]). contradiction. }
  rewrite E. cbn [negb]. rewrite IH by assumption. reflexivity.
Qed.

(** The name of a nonempty payload is its base32 text cut into labels. *)
Lemma encodeDNSSafe_Join data :
  data <> [] ->
  encodeDNSSafe data
  = Join (slices maxSafeLabelSize (EncodeToString dnsBase32Alphabet data)) dot.
Proof.
  intros Hdata. unfold encodeDNSSafe.
  destruct data as [|b data]; [congruence|]. cbn [length Nat.eqb].
  pose proof (encoded_labels_safe (b :: data)) as Hsafe.
  set (labels := slices maxSafeLabelSize _) in *.
  apply revalidate_short.
  destruct labels as [|l ls] eqn:E.
  - cbn. constructor; [cbn; lia|constructor].
  - rewrite Split_Join.
    + eapply List.Forall_impl; [|exact Hsafe].
      intros x [Hx _]. unfold maxLabelSize. lia.
    + discriminate.
    + eapply List.Forall_impl; [|exact Hsafe]. intros x Hx. apply Hx.
Qed.

Lemma strip_dots_encodeDNSSafe data :
  data <> [] ->
  ReplaceAll_empty (encodeDNSSafe data) dot
  = EncodeToString dnsBase32Alphabet data.
Proof.
  intros Hdata. rewrite encodeDNSSafe_Join by assumption.
  rewrite ReplaceAll_Join.
  - apply slices_concat. unfold maxSafeLabelSize. lia.
  - eapply List.Forall_impl; [|apply encoded_labels_safe].
    intros x Hx. apply Hx.
Qed.

Lemma DecodeString_EncodeToString data :
  Forall is_byte data ->
  DecodeString encodeStd (EncodeToString dnsBase32Alphabet data) = inl data.
Proof.
  intros Hb. unfold DecodeString.
  rewrite stripNewlines_alphabet by apply Encode_in_alphabet.
  unfold EncodeToString. apply (decode_Encode (length data)).
  - lia.
  - assumption.
  - apply (Encode_length_ge (length data)). lia.
Qed.

(** The round trip holds whenever the name is not the word EMPTY. *)
Lemma roundtrip_unless_EMPTY data :
  Forall is_byte data -> data <> [] -> encodeDNSSafe data <> EMPTY ->
  decodeDNSSafe (encodeDNSSafe data) = inl data.
Proof.
  intros Hb Hdata Hne. unfold decodeDNSSafe, gostring_eqb.
  case_bool_decide as E; [contradiction|].
  rewrite strip_dots_encodeDNSSafe, DecodeString_EncodeToString
    by assumption.
  reflexivity.
Qed.

(** Only the payload 23 1f 3c is named EMPTY. *)
Lemma EMPTY_collision_unique data :
  Forall is_byte data -> data <> [] -> encodeDNSSafe data = EMPTY ->
  data = [35; 31; 60].
Proof.
  intros Hb Hdata E.
  pose proof (strip_dots_encodeDNSSafe data Hdata) as Hs. rewrite E in Hs.
  pose proof (DecodeString_EncodeToString data Hb) as Hd.
  rewrite <- Hs in Hd. vm_compute in Hd. congruence.
Qed.

(** The round trip of the codec, for every byte payload but the one
    whose base32 text is the word EMPTY. *)
Lemma roundtrip_except_collision data :
  Forall is_byte data -> data <> [] -> data <> [35; 31; 60] ->
  decodeDNSSafe (encodeDNSSafe data) = inl data.
Proof.
  intros Hb Hdata Hne. apply roundtrip_unless_EMPTY; try assumption.
  intros E. apply Hne, EMPTY_collision_unique; assumption.
Qed.

End RoundTrip.

(** * The checksum and the packet-aware splitter of common.go *)

Section ChecksumFacts.

Lemma fold_lxor_acc l : forall a, fold_left Z.lxor l a = Z.lxor a (xor_sum l).
Proof.
  unfold xor_sum. induction l as [|x l IH]; intros a; simpl.
  - rewrite Z.lxor_0_r. reflexivity.
  - rewrite IH, (IH (Z.lxor 0 x)), Z.lxor_0_l, Z.lxor_assoc. reflexivity.
Qed.

Lemma xor_sum_app a b : xor_sum (a ++ b) = Z.lxor (xor_sum a) (xor_sum b).
Proof.
  unfold xor_sum at 1. rewrite fold_left_app. apply fold_lxor_acc.
Qed.

Lemma xor_sum_cons x l : xor_sum (x :: l) = Z.lxor x (xor_sum l).
Proof. change (x :: l) with ([x] ++ l). rewrite xor_sum_app. reflexivity. Qed.

Lemma verify_frame d x :
  verifyAndStripChecksum (d ++ [x])
  = if xor_sum d =? x then inl d else inr ChecksumMismatch.
Proof.
  unfold verifyAndStripChecksum, slice.
  rewrite length_app. cbn [length].
  replace (length d + 1 - 1)%nat with (length d) by lia.
  replace (length d + 1 <? 1)%nat with false
    by (symmetry; apply Nat.ltb_ge; lia).
  rewrite app_nth2 by lia. rewrite Nat.sub_diag. cbn [nth skipn].
  rewrite Nat.sub_0_r, drop_0, take_app_length.
  destruct (xor_sum d =? x); reflexivity.
Qed.

Lemma frame_split (frame : bytes) :
  frame <> [] -> exists d x, frame = d ++ [x].
Proof.
  intros H. destruct (exists_last H) as (d & x & ->). eauto.
Qed.

Lemma xor_sum_frame_zero d : xor_sum (addChecksumToData d) = 0.
Proof.
  unfold addChecksumToData. rewrite xor_sum_app.
  change (xor_sum [xor_sum d]) with (Z.lxor 0 (xor_sum d)).
  rewrite Z.lxor_0_l. apply Z.lxor_nilpotent.
Qed.

Lemma verify_accepts_zero_sum (frame d : bytes) :
  verifyAndStripChecksum frame = inl d -> xor_sum frame = 0.
Proof.
  destruct frame as [|b frame']; [discriminate|].
  destruct (frame_split (b :: frame') ltac:(discriminate)) as (d' & x & E).
  rewrite E, verify_frame. destruct (xor_sum d' =? x) eqn:Ex; [|discriminate].
  apply Z.eqb_eq in Ex. intros _. rewrite xor_sum_app, Ex.
  change (xor_sum [x]) with (Z.lxor 0 x). rewrite Z.lxor_0_l.
  apply Z.lxor_nilpotent.
Qed.

(** X1. [verifyAndStripChecksum] accepts exactly the frames that
    [addChecksumToData] builds, and returns the payload: a frame is
    accepted with payload [data] if and only if it is [data] followed by
    the XOR of its bytes.  The empty frame is "data too short". *)
Theorem checksum_accepts_exactly_the_framed_payload (frame data : bytes) :
  (verifyAndStripChecksum frame = inl data
   <-> frame = addChecksumToData data)
  /\ verifyAndStripChecksum (addChecksumToData data) = inl data
  /\ verifyAndStripChecksum [] = inr DataTooShort.
Proof.
  assert (Hrt : forall d, verifyAndStripChecksum (addChecksumToData d) = inl d).
  { intros d. unfold addChecksumToData. cbv zeta.
    rewrite verify_frame, Z.eqb_refl. reflexivity. }
  split; [|split; [apply Hrt|reflexivity]].
  split.
  - destruct frame as [|b frame']; [discriminate|].
    destruct (frame_split (b :: frame') ltac:(discriminate)) as (d & x & E).
    rewrite E, verify_frame. destruct (xor_sum d =? x) eqn:Ex; [|discriminate].
    apply Z.eqb_eq in Ex. intros [= <-]. unfold addChecksumToData.
    cbv zeta. rewrite Ex. reflexivity.
  - intros ->. apply Hrt.
Qed.

Lemma xor_sum_insert (l : list Z) i b x :
  l !! i = Some x ->
  xor_sum (<[i := b]> l) = Z.lxor (xor_sum l) (Z.lxor x b).
Proof.
  intros Hi. pose proof (lookup_lt_Some _ _ _ Hi) as Hlt.
  pose proof (take_drop_middle l i x Hi) as E.
  rewrite insert_take_drop by exact Hlt.
  set (L := take i l) in *. set (R := drop (S i) l) in *.
  clearbody L R. subst l.
  rewrite !xor_sum_app, !xor_sum_cons.
  apply Z.bits_inj'. intros n _. rewrite !Z.lxor_spec.
  repeat match goal with |- context [Z.testbit ?z n] =>
           destruct (Z.testbit z n) end; reflexivity.
Qed.

(** X2. Changing any one byte of a frame built by [addChecksumToData],
    payload or checksum, makes [verifyAndStripChecksum] answer
    "checksum mismatch". *)
Theorem checksum_detects_one_changed_byte (data : bytes) (i : nat)
    (old b : Z) :
  addChecksumToData data !! i = Some old -> b <> old ->
  verifyAndStripChecksum (<[i := b]> (addChecksumToData data))
  = inr ChecksumMismatch.
Proof.
  unfold bytes in *. intros Hi Hb.
  match goal with |- ?t = _ => destruct t as [d|e] eqn:E end.
  - exfalso. apply verify_accepts_zero_sum in E.
    rewrite (xor_sum_insert _ _ _ _ Hi), xor_sum_frame_zero, Z.lxor_0_l in E.
    apply Z.lxor_eq in E. congruence.
  - destruct e; [|reflexivity]. exfalso.
    unfold verifyAndStripChecksum in E.
    rewrite length_insert in E.
    unfold addChecksumToData in E. cbv zeta in E.
    rewrite length_app in E. cbn [length] in E.
    replace (length data + 1 <? 1)%nat with false in E
      by (symmetry; apply Nat.ltb_ge; lia).
    destruct (negb _) in E; discriminate.
Qed.

End ChecksumFacts.

Section SplitFacts.

Lemma nth_is_byte (l : bytes) i : Forall is_byte l -> is_byte (nth i l 0).
Proof.
  intros H. destruct (Nat.lt_ge_cases i (length l)) as [Hlt|Hge].
  - rewrite List.Forall_forall in H. apply H, nth_In, Hlt.
  - rewrite nth_overflow by exact Hge. unfold is_byte. lia.
Qed.

Lemma Uint32_value (b : bytes) :
  Forall is_byte b ->
  Uint32 b
  = nth 0 b 0 * 16777216 + nth 1 b 0 * 65536 + nth 2 b 0 * 256 + nth 3 b 0.
Proof.
  intros H.
  pose proof (nth_is_byte b 0 H) as H0. pose proof (nth_is_byte b 1 H) as H1.
  pose proof (nth_is_byte b 2 H) as H2. pose proof (nth_is_byte b 3 H) as H3.
  unfold Uint32, is_byte in *.
  rewrite !Z.shiftl_mul_pow2 by lia.
  change (2 ^ 8) with 256. change (2 ^ 16) with 65536.
  change (2 ^ 24) with 16777216.
  set (b0 := nth 0 b 0) in *. set (b1 := nth 1 b 0) in *.
  set (b2 := nth 2 b 0) in *. set (b3 := nth 3 b 0) in *.
  rewrite (Z.lor_comm b3 (b2 * 256)), (lor_add_disjoint (b2 * 256) b3 8);
    [|lia|change (2 ^ 8) with 256; Z.div_mod_to_equations; lia
     |change (2 ^ 8) with 256; lia].
  rewrite (Z.lor_comm (b2 * 256 + b3) (b1 * 65536)),
    (lor_add_disjoint (b1 * 65536) (b2 * 256 + b3) 16);
    [|lia|change (2 ^ 16) with 65536; Z.div_mod_to_equations; lia
     |change (2 ^ 16) with 65536; lia].
  rewrite (Z.lor_comm (b1 * 65536 + (b2 * 256 + b3)) (b0 * 16777216)),
    (lor_add_disjoint (b0 * 16777216) (b1 * 65536 + (b2 * 256 + b3)) 24);
    [|lia|change (2 ^ 24) with 16777216; Z.div_mod_to_equations; lia
     |change (2 ^ 24) with 16777216; lia].
  lia.
Qed.

Lemma Uint32_range (b : bytes) :
  Forall is_byte b -> 0 <= Uint32 b < 4294967296.
Proof.
  intros H. rewrite Uint32_value by exact H.
  pose proof (nth_is_byte b 0 H) as H0. pose proof (nth_is_byte b 1 H) as H1.
  pose proof (nth_is_byte b 2 H) as H2. pose proof (nth_is_byte b 3 H) as H3.
  unfold is_byte in *. lia.
Qed.

Lemma slice_is_byte (l : bytes) i e :
  Forall is_byte l -> Forall is_byte (slice l i e).
Proof.
  intros H. apply List.Forall_forall. intros x Hx.
  rewrite List.Forall_forall in H. apply H. eapply slice_In, Hx.
Qed.

Lemma wrap_int_64 z :
  - 9223372036854775808 <= z < 9223372036854775808 -> wrap_int 64 z = z.
Proof.
  intros H. unfold wrap_int. change (64 - 1) with 63.
  change (2 ^ 63) with 9223372036854775808.
  change (2 ^ 64) with 18446744073709551616.
  rewrite Z.mod_small by lia. lia.
Qed.

Lemma chunk_size_64 (remaining : bytes) :
  Forall is_byte remaining -> remaining <> [] ->
  1 <= chunk_size 64 remaining
  /\ chunk_size 64 remaining <= 220
  /\ chunk_size 64 remaining <= Z.of_nat (length remaining).
Proof.
  intros Hb Hne.
  assert (Hlen : 1 <= Z.of_nat (length remaining))
    by (destruct remaining; [congruence|cbn [length]; lia]).
  pose proof (Uint32_range _ (slice_is_byte remaining 0 4 Hb)) as Hu.
  unfold chunk_size. cbv zeta.
  change (Z.of_nat maxChunkSize) with 220.
  rewrite (wrap_int_64 (Uint32 _)) by lia.
  rewrite wrap_int_64 by lia.
  repeat match goal with
         | |- context [?a <? ?b] => destruct (Z.ltb_spec a b)
         | |- context [?a <=? ?b] => destruct (Z.leb_spec a b)
         end; cbn [andb]; lia.
Qed.

Lemma split_loop_step intSize fuel (remaining : bytes) :
  remaining <> [] ->
  splitIntoChunks_loop intSize (S fuel) remaining
  = if chunk_size intSize remaining <? 0 then Panics
    else
      match
        splitIntoChunks_loop intSize fuel
          (skipn (Z.to_nat (chunk_size intSize remaining)) remaining)
      with
      | Returns chunks =>
          Returns (slice remaining 0 (Z.to_nat (chunk_size intSize remaining))
                     :: chunks)
      | Panics => Panics
      | OutOfFuel => OutOfFuel
      end.
Proof. destruct remaining; [congruence|reflexivity]. Qed.

Lemma split_loop_64 fuel : forall remaining : bytes,
  (length remaining <= fuel)%nat -> Forall is_byte remaining ->
  exists chunks,
    splitIntoChunks_loop 64 fuel remaining = Returns chunks
    /\ concat chunks = remaining
    /\ Forall (fun c => (1 <= length c <= maxChunkSize)%nat) chunks.
Proof.
  induction fuel as [|fuel IH]; intros remaining Hlen Hb.
  - destruct remaining; [|cbn [length] in Hlen; lia].
    exists []. repeat split. constructor.
  - destruct remaining as [|b0 rest].
    { exists []. repeat split. constructor. }
    set (remaining := b0 :: rest) in *.
    assert (Hne : remaining <> []) by discriminate.
    destruct (chunk_size_64 remaining Hb Hne) as (H1 & H2 & H3).
    rewrite split_loop_step by exact Hne.
    destruct (Z.ltb_spec (chunk_size 64 remaining) 0) as [?|_]; [lia|].
    set (n := Z.to_nat (chunk_size 64 remaining)) in *.
    assert (Hn : (1 <= n <= length remaining)%nat) by lia.
    destruct (IH (skipn n remaining)) as (chunks & E & Hc & Hall).
    + rewrite length_skipn. lia.
    + apply Forall_drop, Hb.
    + rewrite E. exists (slice remaining 0 n :: chunks). split; [reflexivity|].
      split.
      * cbn [concat]. rewrite Hc. unfold slice.
        rewrite Nat.sub_0_r, drop_0. apply take_drop.
      * constructor; [|exact Hall]. unfold slice, maxChunkSize.
        rewrite Nat.sub_0_r, drop_0, length_take. lia.
Qed.

(** X3. On a build with a 64-bit [int], [splitIntoChunks] returns for
    every byte slice; the chunks, concatenated in order, are the input,
    and each chunk has between 1 and 220 bytes. *)
Theorem splitIntoChunks_cuts_into_pieces_of_at_most_220 (data : bytes) :
  Forall is_byte data ->
  exists chunks,
    splitIntoChunks 64 data = Returns chunks
    /\ concat chunks = data
    /\ Forall (fun c => (1 <= length c <= 220)%nat) chunks.
Proof.
  intros Hb. unfold splitIntoChunks.
  destruct (Nat.eqb_spec (length data) 0) as [E|_].
  - exists []. destruct data; [|discriminate E]. repeat split. constructor.
  - apply (split_loop_64 (length data) data); [lia|exact Hb].
Qed.

Lemma chunk_size_packet (p rest : bytes) :
  length_prefixed p -> (length p <= 220)%nat ->
  chunk_size 64 (p ++ rest) = Z.of_nat (length p).
Proof.
  intros (H4 & Hb & Hlen) H220.
  assert (Hs : slice (p ++ rest) 0 4 = slice p 0 4).
  { unfold slice. rewrite !drop_0. change (4 - 0)%nat with 4%nat.
    rewrite take_app_le by lia. reflexivity. }
  pose proof (Uint32_range _ (slice_is_byte p 0 4 Hb)) as Hu.
  unfold chunk_size. cbv zeta. rewrite Hs.
  change (Z.of_nat maxChunkSize) with 220.
  rewrite (wrap_int_64 (Uint32 _)) by lia.
  rewrite wrap_int_64 by lia.
  rewrite length_app.
  repeat match goal with
         | |- context [?a <? ?b] => destruct (Z.ltb_spec a b)
         | |- context [?a <=? ?b] => destruct (Z.leb_spec a b)
         end; cbn [andb]; lia.
Qed.

Lemma split_loop_packets (ps : list bytes) : forall fuel,
  (length ps <= fuel)%nat ->
  Forall (fun p => length_prefixed p /\ (length p <= 220)%nat) ps ->
  splitIntoChunks_loop 64 fuel (concat ps) = Returns ps.
Proof.
  induction ps as [|p ps IH]; intros fuel Hfuel Hall.
  - destruct fuel; reflexivity.
  - inversion Hall as [|? ? [Hp H220] Hps]; subst.
    destruct fuel as [|fuel]; [cbn [length] in Hfuel; lia|].
    cbn [concat].
    assert (Hne : p ++ concat ps <> []).
    { destruct Hp as (H4 & _). destruct p; [cbn [length] in H4; lia|].
      discriminate. }
    rewrite split_loop_step by exact Hne.
    rewrite chunk_size_packet by assumption.
    destruct (Z.ltb_spec (Z.of_nat (length p)) 0) as [?|_]; [lia|].
    rewrite Nat2Z.id. rewrite drop_app_length.
    rewrite IH by (cbn [length] in Hfuel; lia || assumption).
    unfold slice. rewrite Nat.sub_0_r, drop_0, take_app_length.
    reflexivity.
Qed.

(** X4. On a build with a 64-bit [int], a stream made of length-prefixed
    packets of at most 220 bytes each (length field included) is split
    by [splitIntoChunks] into exactly those packets. *)
Theorem splitIntoChunks_returns_whole_packets (ps : list bytes) :
  Forall (fun p => length_prefixed p /\ (length p <= 220)%nat) ps ->
  splitIntoChunks 64 (concat ps) = Returns ps.
Proof.
  intros Hall. unfold splitIntoChunks.
  destruct (Nat.eqb_spec (length (concat ps)) 0) as [E|_].
  - destruct ps as [|p ps]; [reflexivity|].
    inversion Hall as [|? ? [(H4 & _) _] _]; subst.
    cbn [concat] in E. rewrite length_app in E. lia.
  - apply split_loop_packets; [|exact Hall].
    clear -Hall. induction Hall as [|p ps [(H4 & _) _] _ IH]; [cbn; lia|].
    cbn [concat length]. rewrite length_app. lia.
Qed.

End SplitFacts.

Section SplitFacts32.

Lemma chunk_size_32_wraps (data : bytes) :
  Forall is_byte data -> (4 <= length data)%nat ->
  2147483644 <= Uint32 (slice data 0 4) <= 4294967292 ->
  chunk_size 32 data = Uint32 (slice data 0 4) + 4 - 4294967296.
Proof.
  intros Hb Hlen Hu. unfold chunk_size. cbv zeta.
  change (Z.of_nat maxChunkSize) with 220.
  set (u := Uint32 (slice data 0 4)) in *.
  assert (Hw : wrap_int 32 (wrap_int 32 u + 4) = u + 4 - 4294967296).
  { unfold wrap_int. change (32 - 1) with 31.
    change (2 ^ 31) with 2147483648. change (2 ^ 32) with 4294967296.
    Z.div_mod_to_equations. lia. }
  rewrite Hw.
  repeat match goal with
         | |- context [?a <? ?b] => destruct (Z.ltb_spec a b)
         | |- context [?a <=? ?b] => destruct (Z.leb_spec a b)
         end; cbn [andb]; lia.
Qed.

(** X5. On a build with a 32-bit [int] (the Makefile builds 386),
    [int(packetLen) + 4] wraps: when the first four bytes of the data
    give a length of 0x7ffffffc up to 0xfffffffb, [splitIntoChunks]
    panics in [make] with a negative size; when they give 0xfffffffc the
    chunk size is 0 and the loop never ends.  The 64-bit build returns
    for the same data. *)
Theorem splitIntoChunks_32_bit_int_overflow (data : bytes) :
  Forall is_byte data -> (4 <= length data)%nat ->
  (2147483644 <= Uint32 (slice data 0 4) < 4294967292 ->
   splitIntoChunks 32 data = Panics)
  /\ (Uint32 (slice data 0 4) = 4294967292 ->
      forall fuel, splitIntoChunks_loop 32 fuel data = OutOfFuel)
  /\ exists chunks, splitIntoChunks 64 data = Returns chunks.
Proof.
  intros Hb Hlen.
  assert (Hne : data <> []) by (destruct data; [cbn in Hlen; lia|discriminate]).
  split; [|split].
  - intros Hu. unfold splitIntoChunks.
    destruct (Nat.eqb_spec (length data) 0) as [E|_]; [lia|].
    destruct (length data) as [|n] eqn:El; [lia|].
    rewrite split_loop_step by exact Hne.
    rewrite chunk_size_32_wraps by (assumption || lia).
    destruct (Z.ltb_spec (Uint32 (slice data 0 4) + 4 - 4294967296) 0);
      [reflexivity|lia].
  - intros Hu fuel. induction fuel as [|fuel IH].
    + destruct data; [congruence|reflexivity].
    + rewrite split_loop_step by exact Hne.
      rewrite chunk_size_32_wraps by (assumption || lia).
      rewrite Hu. change (4294967292 + 4 - 4294967296) with 0.
      change (Z.to_nat 0) with 0%nat. rewrite drop_0, IH. reflexivity.
  - unfold splitIntoChunks.
    destruct (Nat.eqb_spec (length data) 0) as [E|_]; [lia|].
    destruct (split_loop_64 (length data) data) as (chunks & E & _);
      [lia|exact Hb|].
    exists chunks. exact E.
Qed.

End SplitFacts32.

(** * Sizes of chunks, labels and names *)

Section SizeFacts.
Import Base32.

Lemma slice_exact_length {A} (x : list A) i e :
  (i <= e <= length x)%nat -> length (slice x i e) = (e - i)%nat.
Proof.
  intros H. unfold slice. rewrite length_take, length_drop. lia.
Qed.

Lemma slices_from_sizes {A} fuel size i (x : list A) :
  (0 < size)%nat ->
  Forall (fun s => (1 <= length s <= size)%nat) (slices_from fuel size i x).
Proof.
  intros Hsize. revert i. induction fuel as [|fuel IH]; intros i; simpl.
  - constructor.
  - destruct (Nat.ltb_spec i (length x)) as [Hi|Hi]; [|constructor].
    constructor; [|apply IH].
    destruct (Nat.ltb_spec (length x) (i + size));
      rewrite slice_exact_length by lia; lia.
Qed.

Lemma slices_from_length {A} fuel size : forall i (x : list A),
  (0 < size)%nat -> (length x <= i + fuel)%nat ->
  length (slices_from fuel size i x)
  = ((length x - i + size - 1) / size)%nat.
Proof.
  induction fuel as [|fuel IH]; intros i x Hsize Hfuel; simpl.
  - replace (length x - i)%nat with 0%nat by lia.
    symmetry. apply Nat.div_small. lia.
  - destruct (Nat.ltb_spec i (length x)) as [Hi|Hi].
    + cbn [length]. rewrite IH by lia.
      destruct (Nat.le_gt_cases (length x) (i + size)) as [Hle|Hgt].
      * replace (length x - (i + size))%nat with 0%nat by lia.
        rewrite (Nat.div_small (0 + size - 1)) by lia.
        apply (Nat.div_unique _ _ 1 (length x - i - 1)); lia.
      * replace (length x - i + size - 1)%nat
          with ((length x - (i + size) + size - 1) + 1 * size)%nat by lia.
        rewrite Nat.div_add by lia. lia.
    + replace (length x - i)%nat with 0%nat by lia.
      symmetry. apply Nat.div_small. lia.
Qed.

Lemma splitDataIntoChunks_length (data : bytes) (chunkSize : nat) :
  (0 < chunkSize)%nat ->
  Forall (fun c => (1 <= length c <= chunkSize)%nat)
         (splitDataIntoChunks data chunkSize)
  /\ length (splitDataIntoChunks data chunkSize)
     = ((length data + chunkSize - 1) / chunkSize)%nat.
Proof.
  intros Hsize. unfold splitDataIntoChunks, slices, bytes in *. split.
  - apply slices_from_sizes, Hsize.
  - rewrite slices_from_length by lia. rewrite Nat.sub_0_r. reflexivity.
Qed.

(** X6. For a positive chunk size, [splitDataIntoChunks] cuts the data
    into ceil(len/chunkSize) chunks, each of 1 to [chunkSize] bytes,
    whose concatenation is the data. *)
Theorem splitDataIntoChunks_partitions (data : bytes) (chunkSize : nat) :
  (0 < chunkSize)%nat ->
  concat (splitDataIntoChunks data chunkSize) = data
  /\ Forall (fun c => (1 <= length c <= chunkSize)%nat)
            (splitDataIntoChunks data chunkSize)
  /\ length (splitDataIntoChunks data chunkSize)
     = ((length data + chunkSize - 1) / chunkSize)%nat.
Proof.
  intros Hsize.
  destruct (splitDataIntoChunks_length data chunkSize Hsize) as [H1 H2].
  split; [|split; assumption].
  apply (slices_concat chunkSize data Hsize).
Qed.

Lemma emit_length alphabet size b :
  length b = 8%nat -> length (emit alphabet size b) = Nat.min 8 size.
Proof.
  intros H. unfold emit. rewrite length_map, length_take, H. lia.
Qed.

Lemma Encode_length alphabet n : forall src,
  (length src <= n)%nat ->
  length (Encode alphabet (EncodedLen (length src)) src)
  = EncodedLen (length src).
Proof.
  induction n as [|n IH]; intros src Hn.
  - destruct src; [reflexivity|cbn [length] in Hn; lia].
  - destruct src as [|s0 [|s1 [|s2 [|s3 [|s4 rest]]]]];
      try reflexivity.
    change (Encode alphabet (EncodedLen (length (s0 :: s1 :: s2 :: s3 :: s4 :: rest)))
              (s0 :: s1 :: s2 :: s3 :: s4 :: rest))
      with (emit alphabet (EncodedLen (S (S (S (S (S (length rest)))))))
              (quantum (s0 :: s1 :: s2 :: s3 :: s4 :: rest))
            ++ Encode alphabet
                 (EncodedLen (S (S (S (S (S (length rest)))))) - 8) rest).
    cbn [length]. rewrite EncodedLen_quantum.
    rewrite length_app, emit_length by reflexivity.
    replace (EncodedLen (length rest) + 8 - 8)%nat
      with (EncodedLen (length rest)) by lia.
    rewrite IH by (cbn [length] in Hn; lia). lia.
Qed.

Lemma Join_length (ls : list gostring) sep :
  ls <> [] ->
  length (Join ls sep) = (length (concat ls) + length ls - 1)%nat.
Proof.
  induction ls as [|l ls IH]; intros Hne; [congruence|].
  destruct ls as [|l' ls'].
  - cbn. rewrite app_nil_r. lia.
  - change (Join (l :: l' :: ls') sep) with (l ++ sep :: Join (l' :: ls') sep).
    rewrite length_app. cbn [length concat].
    rewrite IH by discriminate. cbn [length concat].
    rewrite !length_app. lia.
Qed.

Lemma encodeDNSSafe_length_eq (data : bytes) :
  data <> [] ->
  let L := EncodedLen (length data) in
  length (Split (encodeDNSSafe data) dot) = ((L + 39) / 40)%nat
  /\ length (encodeDNSSafe data) = (L + (L + 39) / 40 - 1)%nat.
Proof.
  intros Hdata L.
  set (enc := EncodeToString dnsBase32Alphabet data).
  assert (Henc : length enc = L)
    by (apply (Encode_length _ (length data)); lia).
  assert (HL : (1 <= L)%nat).
  { subst L. destruct data; [congruence|]. cbn [length]. unfold EncodedLen.
    apply (Nat.div_le_lower_bound _ 5 1); lia. }
  assert (Hcount : length (slices maxSafeLabelSize enc) = ((L + 39) / 40)%nat).
  { unfold slices. rewrite slices_from_length by (unfold maxSafeLabelSize; lia).
    rewrite Nat.sub_0_r, Henc. unfold maxSafeLabelSize.
    replace (L + 40 - 1)%nat with (L + 39)%nat by lia. reflexivity. }
  assert (Hne : slices maxSafeLabelSize enc <> []).
  { apply slices_nonempty. intros E. rewrite E in Henc. cbn [length] in Henc. lia. }
  split.
  - rewrite Split_encodeDNSSafe by assumption. exact Hcount.
  - rewrite encodeDNSSafe_Join by exact Hdata. fold enc.
    rewrite Join_length by exact Hne. unfold gostring in *.
    rewrite slices_concat by (unfold maxSafeLabelSize; lia).
    rewrite Hcount, Henc. reflexivity.
Qed.

Lemma encodeDNSSafe_length_100 (data : bytes) :
  (length data <= 100)%nat -> (length (encodeDNSSafe data) <= 163)%nat.
Proof.
  intros H100. destruct data as [|b data']; [cbn; lia|].
  destruct (encodeDNSSafe_length_eq (b :: data') ltac:(discriminate))
    as [_ Hlen].
  rewrite Hlen.
  set (L := EncodedLen (length (b :: data'))).
  assert (L < 161)%nat.
  { subst L. unfold EncodedLen.
    apply Nat.Div0.div_lt_upper_bound. lia. }
  assert ((L + 39) / 40 < 5)%nat
    by (apply Nat.Div0.div_lt_upper_bound; lia).
  lia.
Qed.

(** X7. For a non-empty payload of n bytes, with L = ceil(8n/5) base32
    characters, [encodeDNSSafe] gives ceil(L/40) labels and a text of
    L + ceil(L/40) - 1 characters; a payload of at most 100 bytes gives
    at most 163 characters. *)
Theorem encodeDNSSafe_length (data : bytes) :
  data <> [] ->
  let L := EncodedLen (length data) in
  length (Split (encodeDNSSafe data) dot) = ((L + 39) / 40)%nat
  /\ length (encodeDNSSafe data) = (L + (L + 39) / 40 - 1)%nat
  /\ ((length data <= 100)%nat ->
      (length (encodeDNSSafe data) <= 163)%nat).
Proof.
  intros Hdata L.
  destruct (encodeDNSSafe_length_eq data Hdata) as [H1 H2].
  split; [exact H1|]. split; [exact H2|]. apply encodeDNSSafe_length_100.
Qed.

End SizeFacts.

(** * What [decodeDNSSafe] accepts *)

Section CharsetFacts.
Import Base32.

Lemma index_of_In c l : forall i v, index_of c l i = Some v -> In c l.
Proof.
  induction l as [|d l IH]; intros i v; simpl; [discriminate|].
  destruct (Ascii.eqb_spec c d) as [->|_]; [intros _; left; reflexivity|].
  intros H. right. eapply IH, H.
Qed.

Lemma decodeMap_known alphabet c :
  (decodeMap alphabet c =? 255) = false -> In c alphabet.
Proof.
  unfold decodeMap. destruct (index_of c alphabet 0) as [v|] eqn:E.
  - intros _. eapply index_of_In, E.
  - rewrite Z.eqb_refl. discriminate.
Qed.

Lemma read_quantum_chars olen need : forall src dbuf d dlen fin rest,
  Forall (fun c => c <> padByte) src ->
  read_quantum encodeStd olen need src dbuf = QRead d dlen fin rest ->
  Forall (fun c => In c encodeStd) (firstn need src)
  /\ rest = skipn need src
  /\ (fin = true -> rest = []).
Proof.
  induction need as [|need IH]; intros src dbuf d dlen fin rest Hpad;
    cbn [read_quantum].
  - intros [= <- <- <- <-].
    split; [constructor|split; [reflexivity|discriminate]].
  - destruct src as [|c src'].
    + intros [= <- <- <- <-]. split; [constructor|split; reflexivity].
    + inversion Hpad as [|? ? Hc Hpad']; subst.
      destruct (Ascii.eqb_spec c padByte) as [->|_]; [congruence|].
      cbn [andb].
      destruct (decodeMap encodeStd c =? 255) eqn:Ev; [discriminate|].
      intros H. destruct (IH _ _ _ _ _ _ Hpad' H) as (Hall & Hrest & Hfin).
      split; [|split; assumption].
      cbn [firstn]. constructor; [|exact Hall].
      apply decodeMap_known, Ev.
Qed.

Lemma decode_loop_chars fuel : forall olen src out,
  Forall (fun c => c <> padByte) src -> (length src <= fuel)%nat ->
  decode_loop encodeStd fuel olen src = inl out ->
  Forall (fun c => In c encodeStd) src.
Proof.
  induction fuel as [|fuel IH]; intros olen src out Hpad Hlen.
  - destruct src; [constructor|cbn [length] in Hlen; lia].
  - destruct src as [|c src']; [constructor|].
    set (src := c :: src') in *.
    change (decode_loop encodeStd (S fuel) olen src)
      with (match read_quantum encodeStd olen 8 src [] with
            | QErr e => inr e
            | QRead dbuf dlen finished rest =>
                if finished then inl (pack dbuf dlen)
                else match decode_loop encodeStd fuel olen rest with
                     | inl out => inl (pack dbuf dlen ++ out)
                     | inr e => inr e
                     end
            end).
    destruct (read_quantum encodeStd olen 8 src []) as [d dlen fin rest|e] eqn:E;
      [|discriminate].
    destruct (read_quantum_chars _ _ _ _ _ _ _ _ Hpad E) as (Hall & Hrest & Hfin).
    intros Hres.
    rewrite <- (firstn_skipn 8 src). apply List.Forall_app. split; [exact Hall|].
    rewrite <- Hrest. destruct fin.
    + rewrite Hfin by reflexivity. constructor.
    + destruct (decode_loop encodeStd fuel olen rest) as [out'|e] eqn:E';
        [|discriminate].
      apply (IH olen rest out'); [| |exact E'].
      * rewrite Hrest. apply Forall_drop, Hpad.
      * rewrite Hrest, length_skipn. subst src. cbn [length] in *. lia.
Qed.

Lemma alphabet_forallb (l : gostring) :
  forallb (fun c => existsb (Ascii.eqb c) encodeStd) l = true ->
  Forall (fun c => In c encodeStd) l.
Proof.
  intros H. apply List.Forall_forall. intros c Hc.
  rewrite forallb_forall in H. specialize (H c Hc).
  apply existsb_exists in H as (d & Hd & E).
  apply Ascii.eqb_eq in E. subst d. exact Hd.
Qed.

(** X8. [decodeDNSSafe] is case-sensitive and accepts the base32
    alphabet only: for a text without the byte 0xff, it returns a payload
    if and only if every character left after removing dots, CR and LF
    is one of A-Z, 2-7.  (With [NoPadding] the decoder takes 0xff for its
    padding character.) *)
Theorem decodeDNSSafe_accepts_exactly_the_alphabet (s : gostring) :
  let text := stripNewlines (ReplaceAll_empty s dot) in
  Forall (fun c => c <> padByte) text ->
  ((exists out, decodeDNSSafe s = inl out)
   <-> Forall (fun c => In c encodeStd) text).
Proof.
  intros text Hpad. unfold decodeDNSSafe, gostring_eqb.
  case_bool_decide as E.
  - subst s. split; [intros _|intros _; eauto].
    apply alphabet_forallb. vm_compute. reflexivity.
  - fold text. unfold DecodeString. fold text.
    split.
    + intros [out H].
      destruct (decode_loop encodeStd (length text) (Z.of_nat (length text)) text)
        as [out'|e] eqn:E'; [|discriminate].
      eapply decode_loop_chars; [exact Hpad| |exact E']. lia.
    + intros Hall.
      destruct (decode_loop_total (length text) (Z.of_nat (length text)) text Hall)
        as [out E'].
      rewrite E'. eauto.
Qed.

End CharsetFacts.

Section NameFacts.
Import Client Server.

Lemma Join_Split s sep : Join (Split s sep) sep = s.
Proof.
  induction s as [|c s IH]; [reflexivity|]. simpl.
  pose proof (Split_nonempty s sep) as Hne.
  destruct (is_sep sep c) eqn:E.
  - apply is_sep_true in E. subst c.
    destruct (Split s sep) as [|p ps]; [congruence|].
    change (Join ([] :: p :: ps) sep) with ([] ++ sep :: Join (p :: ps) sep).
    rewrite IH. reflexivity.
  - destruct (Split s sep) as [|p ps]; [congruence|].
    destruct ps as [|p' ps'].
    + simpl in *. congruence.
    + change (Join ((c :: p) :: p' :: ps') sep)
        with (c :: (p ++ sep :: Join (p' :: ps') sep)).
      change (Join (p :: p' :: ps') sep)
        with (p ++ sep :: Join (p' :: ps') sep) in IH.
      rewrite IH. reflexivity.
Qed.

Lemma Fqdn_open_name y c :
  is_sep dot c = false -> Fqdn (y ++ [c]) = (y ++ [c]) ++ [dot].
Proof. intros H. unfold Fqdn, IsFqdn. rewrite rev_unit, H. reflexivity. Qed.

Lemma TrimSuffix_dot x : TrimSuffix (x ++ [dot]) dot = x.
Proof. unfold TrimSuffix. rewrite rev_unit. simpl. apply rev_involutive. Qed.

Lemma last_char_not_dot (t : gostring) :
  t <> [] -> ~ In dot t -> exists y c, t = y ++ [c] /\ is_sep dot c = false.
Proof.
  intros Hne Hdot. destruct (exists_last Hne) as (y & c & ->).
  exists y, c. split; [reflexivity|].
  destruct (is_sep dot c) eqn:E; [|reflexivity].
  apply is_sep_true in E. subst c. exfalso. apply Hdot.
  apply in_or_app. right. left. reflexivity.
Qed.

(** Parsing recovers the fields of a composed name. *)
Lemma parseName_composeName encoded seqHex sid tld :
  ~ In dot seqHex -> ~ In dot sid -> ~ In dot tld -> tld <> [] ->
  parseName (Fqdn (composeName encoded seqHex sid tld))
  = Some (mkParsed encoded seqHex sid tld).
Proof.
  intros Hseq Hsid Htld Hne.
  destruct (last_char_not_dot tld Hne Htld) as (y & c & Ey & Hc).
  assert (EF : Fqdn (composeName encoded seqHex sid tld)
               = composeName encoded seqHex sid tld ++ [dot]).
  { unfold composeName. rewrite Ey.
    replace (encoded ++ dot :: seqHex ++ dot :: sid ++ dot :: y ++ [c])
      with ((encoded ++ dot :: seqHex ++ dot :: sid ++ dot :: y) ++ [c])
      by (rewrite <- !app_assoc; simpl; rewrite <- !app_assoc; simpl;
          rewrite <- !app_assoc; reflexivity).
    apply Fqdn_open_name, Hc. }
  unfold parseName. rewrite EF, TrimSuffix_dot. unfold composeName.
  rewrite !Split_app_sep, (Split_no_sep seqHex), (Split_no_sep sid),
    (Split_no_sep tld) by assumption.
  pose proof (Split_nonempty encoded dot) as HneS.
  pose proof (Join_Split encoded dot) as HJ.
  set (A := Split encoded dot) in *.
  rewrite !length_app. cbn [length].
  destruct (Nat.ltb_spec (length A + (1 + (1 + 1))) 4) as [Hlt|_].
  { destruct A; [congruence|simpl in Hlt; lia]. }
  replace (length A + (1 + (1 + 1)) - 3)%nat with (length A + 0)%nat by lia.
  replace (length A + (1 + (1 + 1)) - 2)%nat with (length A + 1)%nat by lia.
  replace (length A + (1 + (1 + 1)) - 1)%nat with (length A + 2)%nat by lia.
  rewrite !app_nth2_plus. rewrite Nat.add_0_r.
  rewrite firstn_app, firstn_all, Nat.sub_diag. cbn [firstn].
  rewrite app_nil_r, HJ. reflexivity.
Qed.

Lemma hexdigit_not_dot v : hexdigit v <> dot.
Proof.
  unfold hexdigit.
  destruct (nth_in_or_default (Z.to_nat v) (str "0123456789abcdef") "0"%char)
    as [H|H]; [|rewrite H; discriminate].
  revert H. generalize (nth (Z.to_nat v) (str "0123456789abcdef") "0"%char).
  intros a H E. subst a. unfold str in H. simpl in H.
  repeat (destruct H as [H|H]; [discriminate H|]). exact H.
Qed.

Lemma fmt_04x_no_dot v : ~ In dot (fmt_04x v).
Proof.
  unfold fmt_04x. simpl. intros H.
  repeat (destruct H as [H|H]; [exact (hexdigit_not_dot _ H)|]). exact H.
Qed.

Lemma hexdigit_f a : 0 <= a < 16 -> hexdigit a = "f"%char -> a = 15.
Proof.
  intros Ha H.
  assert (E : a = 0 \/ a = 1 \/ a = 2 \/ a = 3 \/ a = 4 \/ a = 5 \/ a = 6 \/
              a = 7 \/ a = 8 \/ a = 9 \/ a = 10 \/ a = 11 \/ a = 12 \/
              a = 13 \/ a = 14 \/ a = 15) by lia.
  repeat (destruct E as [->|E]; [discriminate H|]). exact E.
Qed.

Lemma fmt_04x_ffff v : 0 <= v < 65536 -> fmt_04x v = str "ffff" -> v = 65535.
Proof.
  intros Hv H. unfold fmt_04x, str in H. simpl in H.
  injection H as H3 H2 H1 H0.
  apply hexdigit_f in H3; [|apply Z.mod_pos_bound; lia].
  apply hexdigit_f in H2; [|apply Z.mod_pos_bound; lia].
  apply hexdigit_f in H1; [|apply Z.mod_pos_bound; lia].
  apply hexdigit_f in H0; [|apply Z.mod_pos_bound; lia].
  revert H3 H2 H1 H0. Z.div_mod_to_equations. lia.
Qed.

End NameFacts.

Section UplinkFacts.
Import Client.
Variable net : nat -> exchange.
Variables sid tld : gostring.

Lemma sendQuery_attempts_emitted left name k :
  Forall (eq name) (emitted (sendQuery_attempts net left name k)).
Proof.
  revert k. induction left as [|left IH]; intros k; simpl; [constructor|].
  destruct (net k) as [[|]|rcode answer]; simpl.
  - constructor; [reflexivity|apply IH].
  - repeat constructor.
  - destruct rcode; simpl; try (constructor; [reflexivity|apply IH]).
    destruct answer as [|[t|] answer]; simpl; try (repeat constructor; fail).
    destruct (gostring_eqb (concat (Txt t)) EMPTY); simpl;
      [repeat constructor|].
    destruct (decodeDNSSafe (concat (Txt t))); simpl; repeat constructor.
Qed.

(** [sendQuery] fails with one of its own three errors. *)
Lemma sendQuery_attempts_error left name k err :
  value (sendQuery_attempts net left name k) = inr err ->
  err = ErrExchange \/ err = ErrMaxRetries \/ exists e, err = ErrDecode e.
Proof.
  revert k. induction left as [|left IH]; intros k; simpl.
  - intros [= <-]. auto.
  - destruct (net k) as [[|]|rcode answer]; simpl; try apply IH.
    + intros [= <-]. auto.
    + destruct rcode; simpl; try apply IH.
      destruct answer as [|[t|] answer]; simpl; try discriminate.
      destruct (gostring_eqb (concat (Txt t)) EMPTY); simpl; [discriminate|].
      destruct (decodeDNSSafe (concat (Txt t))) eqn:E; simpl;
        [discriminate|].
      intros [= <-]. eauto.
Qed.

(** The queries of one [sendChunk] are numbered from [sequence + i] on. *)
Lemma sendChunk_range_emitted chunks : forall i sequence k name,
  In name (emitted (sendChunk_range net sid tld i chunks sequence k)) ->
  exists encoded j,
    (i <= j < i + length chunks)%nat /\
    name = Fqdn (dataName sid tld encoded
                   (u16 (sequence + u16 (Z.of_nat j)))).
Proof.
  induction chunks as [|subChunk chunks IH]; intros i sequence k name;
    cbn [sendChunk_range]; [intros []|].
  set (q := sendQuery net _ k).
  assert (Hq : forall n, In n (emitted q) ->
             n = Fqdn (dataName sid tld (encodeDNSSafe subChunk)
                         (u16 (sequence + u16 (Z.of_nat i))))).
  { intros n Hn. pose proof (sendQuery_attempts_emitted maxRetries
      (Fqdn (dataName sid tld (encodeDNSSafe subChunk)
               (u16 (sequence + u16 (Z.of_nat i))))) k) as HF.
    rewrite List.Forall_forall in HF. symmetry. apply HF, Hn. }
  destruct (value q); cbn [emitted]; intros Hin.
  - apply in_app_or in Hin as [Hin|Hin].
    + exists (encodeDNSSafe subChunk), i. split; [simpl; lia|auto].
    + destruct (IH _ _ _ _ Hin) as (e & j & Hj & ->).
      exists e, j. split; [simpl; lia|reflexivity].
  - exists (encodeDNSSafe subChunk), i. split; [simpl; lia|auto].
Qed.

Lemma chunk_count data :
  (length data <= maxChunkSize)%nat ->
  (length (splitDataIntoChunks data 100) <= 3)%nat.
Proof.
  unfold maxChunkSize, splitDataIntoChunks, slices. intros H.
  destruct (slices_from_count (length data) 100 0 data) as [E|Hc]; [lia| |].
  - unfold bytes. rewrite E. simpl. lia.
  - unfold bytes. lia.
Qed.

(** While the counter plus the reads still to come stay below 65534, every
    data query carries a sequence value below 0xffff. *)
Lemma uplink_emitted reads : forall sequence k name,
  Forall read_fits reads ->
  0 <= sequence -> sequence + Z.of_nat (length reads) <= 65533 ->
  In name (emitted (uplink net sid tld reads sequence k)) ->
  exists encoded v,
    0 <= v < 65535 /\ name = Fqdn (dataName sid tld encoded v).
Proof.
  induction reads as [|r reads IH]; intros sequence k name Hfit H0 Hbound;
    cbn [uplink]; [intros []|].
  inversion Hfit as [|? ? Hr Hrs]; subst.
  destruct r as [data|]; [|intros []].
  cbn [length] in Hbound.
  destruct (0 <? length data)%nat; [|apply IH; (assumption || lia)].
  assert (Hhere : forall n,
            In n (emitted (sendChunk net sid tld data sequence k)) ->
            exists encoded v,
              0 <= v < 65535 /\ n = Fqdn (dataName sid tld encoded v)).
  { intros n Hn. unfold sendChunk in Hn.
    apply sendChunk_range_emitted in Hn as (e & j & Hj & ->).
    pose proof (chunk_count data Hr) as Hc.
    exists e, (u16 (sequence + u16 (Z.of_nat j))). split; [|reflexivity].
    unfold u16. rewrite (Z.mod_small (Z.of_nat j)) by lia.
    rewrite Z.mod_small by lia. lia. }
  destruct (value (sendChunk net sid tld data sequence k)); [apply Hhere|].
  cbn [emitted]. intros Hin. apply in_app_or in Hin as [Hin|Hin];
    [apply Hhere, Hin|].
  revert Hin. apply IH; [assumption|unfold u16| unfold u16].
  - apply Z.mod_pos_bound. lia.
  - rewrite Z.mod_small by lia. lia.
Qed.

Hypothesis sid_no_dot : ~ In dot sid.
Hypothesis tld_no_dot : ~ In dot tld.
Hypothesis tld_nonempty : tld <> [].

Lemma seq_field_dataName encoded v :
  seq_field (Fqdn (dataName sid tld encoded v)) = Some (fmt_04x v).
Proof.
  unfold seq_field.
  change (dataName sid tld encoded v)
    with (composeName encoded (fmt_04x v) sid tld).
  rewrite parseName_composeName by (assumption || apply fmt_04x_no_dot).
  reflexivity.
Qed.

Lemma seq_field_pollName :
  seq_field (Fqdn (pollName sid tld)) = Some (str "ffff").
Proof.
  unfold seq_field.
  change (pollName sid tld) with (composeName (str "AA") (str "ffff") sid tld).
  rewrite parseName_composeName; try assumption; [reflexivity|].
  simpl. intros H. repeat (destruct H as [H|H]; [discriminate H|]). exact H.
Qed.

(** C8, amended. On a connection that has delivered at most 65533 reads
    (each at most [maxChunkSize] bytes) no data query carries the
    sequence field "ffff", which the poll query carries. *)
Theorem C8_no_ffff_before_the_counter_wraps (reads : list local_read) :
  Forall read_fits reads ->
  Z.of_nat (length reads) <= 65533 ->
  (forall name,
      In name (emitted (handleConnection_uplink net sid tld reads)) ->
      seq_field name <> Some (str "ffff"))
  /\ seq_field (Fqdn (pollName sid tld)) = Some (str "ffff").
Proof.
  intros Hfit Hlen. split; [|apply seq_field_pollName].
  intros name Hin. unfold handleConnection_uplink in Hin.
  apply uplink_emitted in Hin as (e & v & Hv & ->); try assumption; try lia.
  rewrite seq_field_dataName. intros Heq.
  assert (H : fmt_04x v = str "ffff") by congruence.
  apply fmt_04x_ffff in H; lia.
Qed.

End UplinkFacts.

(** * The client: retries, chunk numbering, names *)

Section RetryFacts.
Import Client.
Variable net : nat -> exchange.

Lemma sendQuery_attempts_run left name : forall k,
  let r := sendQuery_attempts net left name k in
  (exchanges r <= k + left)%nat
  /\ ((0 < left)%nat -> (k < exchanges r)%nat)
  /\ emitted r = repeat name (exchanges r - k)
  /\ (forall j, (k <= j)%nat -> (S j < exchanges r)%nat ->
                retried (net j) = true)
  /\ (value r = inr ErrMaxRetries
      <-> forall j, (k <= j < k + left)%nat -> retried (net j) = true).
Proof.
  induction left as [|left IH]; intros k; cbn [sendQuery_attempts].
  - cbn [exchanges emitted value]. rewrite Nat.sub_diag.
    split; [lia|]. split; [lia|]. split; [reflexivity|].
    split; [intros; lia|]. split; [intros _ j Hj; lia|reflexivity].
  - specialize (IH (S k)). cbv zeta in IH.
    destruct IH as (IH1 & IH2 & IH3 & IH4 & IH5).
    assert (Hretry :
      retried (net k) = true ->
      let r := sendQuery_attempts net left name (S k) in
      let r' := mkRan (value r) (name :: emitted r) (exchanges r) in
      (exchanges r' <= k + S left)%nat
      /\ ((0 < S left)%nat -> (k < exchanges r')%nat)
      /\ emitted r' = repeat name (exchanges r' - k)
      /\ (forall j, (k <= j)%nat -> (S j < exchanges r')%nat ->
                    retried (net j) = true)
      /\ (value r' = inr ErrMaxRetries
          <-> forall j, (k <= j < k + S left)%nat -> retried (net j) = true)).
    { intros Hk. cbv zeta. cbn [exchanges emitted value].
      assert (Hmono : (S k <= exchanges (sendQuery_attempts net left name (S k)))%nat).
      { destruct left; [cbn; lia|]. specialize (IH2 ltac:(lia)). lia. }
      split; [lia|]. split; [lia|]. split.
      - rewrite IH3.
        replace (exchanges (sendQuery_attempts net left name (S k)) - k)%nat
          with (S (exchanges (sendQuery_attempts net left name (S k)) - S k))
          by lia.
        reflexivity.
      - split.
        + intros j Hj1 Hj2. destruct (Nat.eq_dec j k) as [->|Hne];
            [exact Hk|]. apply IH4; lia.
        + rewrite IH5. split.
          * intros H j Hj. destruct (Nat.eq_dec j k) as [->|Hne];
              [exact Hk|]. apply H. lia.
          * intros H j Hj. apply H. lia. }
    assert (Hstop : forall v : bytes + client_error,
      retried (net k) = false -> v <> inr ErrMaxRetries ->
      let r' := mkRan v [name] (S k) in
      (exchanges r' <= k + S left)%nat
      /\ ((0 < S left)%nat -> (k < exchanges r')%nat)
      /\ emitted r' = repeat name (exchanges r' - k)
      /\ (forall j, (k <= j)%nat -> (S j < exchanges r')%nat ->
                    retried (net j) = true)
      /\ (value r' = inr ErrMaxRetries
          <-> forall j, (k <= j < k + S left)%nat -> retried (net j) = true)).
    { intros v Hk Hv. cbv zeta. cbn [exchanges emitted value].
      split; [lia|]. split; [lia|]. split.
      - replace (S k - k)%nat with 1%nat by lia. reflexivity.
      - split; [intros; lia|]. split; [congruence|].
        intros H. specialize (H k ltac:(lia)). congruence. }
    destruct (net k) as [io|rcode ans] eqn:En.
    + destruct io.
      * apply Hretry. reflexivity.
      * apply Hstop; [reflexivity|discriminate].
    + destruct rcode; try (apply Hretry; reflexivity).
      destruct ans as [|[t|] ans'];
        try (apply Hstop; [reflexivity|discriminate]).
      destruct (gostring_eqb (concat (Txt t)) EMPTY);
        [apply Hstop; [reflexivity|discriminate]|].
      destruct (decodeDNSSafe (concat (Txt t)));
        apply Hstop; (reflexivity || discriminate).
Qed.

(** X9. [sendQuery] makes at least one and at most three exchanges,
    all for the same fully qualified name; every exchange but the last
    was an i/o timeout or a response with a failure RCODE; and the result
    is "max retries exceeded" exactly when all three were. *)
Theorem sendQuery_gives_up_after_three_attempts (fqdn : gostring) (k : nat) :
  let r := sendQuery net fqdn k in
  (k < exchanges r <= k + 3)%nat
  /\ emitted r = repeat (Fqdn fqdn) (exchanges r - k)
  /\ (forall j, (k <= j)%nat -> (S j < exchanges r)%nat ->
                retried (net j) = true)
  /\ (value r = inr ErrMaxRetries
      <-> forall j, (k <= j < k + 3)%nat -> retried (net j) = true).
Proof.
  cbv zeta. unfold sendQuery.
  destruct (sendQuery_attempts_run maxRetries (Fqdn fqdn) k)
    as (H1 & H2 & H3 & H4 & H5).
  change maxRetries with 3%nat in *.
  split; [split; [apply H2; lia|exact H1]|].
  split; [exact H3|]. split; [exact H4|exact H5].
Qed.

End RetryFacts.

Section ChunkFacts.
Import Client.
Variable net : nat -> exchange.
Variables sid tld : gostring.

Lemma sendQuery_acknowledged fqdn k :
  acknowledges (net k) ->
  sendQuery net fqdn k = mkRan (inl []) [Fqdn fqdn] (S k).
Proof.
  intros (t & rest & E & Ht). unfold sendQuery.
  change maxRetries with 3%nat. cbn [sendQuery_attempts].
  rewrite E, Ht. reflexivity.
Qed.

Lemma sendChunk_range_acknowledged chunks : forall i sequence k,
  (forall j, acknowledges (net j)) ->
  sendChunk_range net sid tld i chunks sequence k
  = mkRan None
      (imap (fun j sub =>
               Fqdn (dataName sid tld (encodeDNSSafe sub)
                       (u16 (sequence + u16 (Z.of_nat (i + j))))))
            chunks)
      (k + length chunks).
Proof.
  induction chunks as [|sub chunks IH]; intros i sequence k Hack.
  - cbn. rewrite Nat.add_0_r. reflexivity.
  - cbn [sendChunk_range]. rewrite sendQuery_acknowledged by apply Hack.
    cbn [value emitted exchanges]. rewrite IH by exact Hack.
    cbn [value emitted exchanges imap app length].
    rewrite Nat.add_0_r. f_equal.
    + f_equal. apply imap_ext. intros j x _. cbn.
      replace (i + S j)%nat with (S (i + j)) by lia. reflexivity.
    + lia.
Qed.

(** X10. When every query is acknowledged, [sendChunk] sends one query
    per 100-byte subchunk, ceil(len/100) in all and in order; subchunk
    [i] carries the sequence number [sequence + i] (modulo 2^16), and no
    error is returned.  [sendData] is [sendChunk] at sequence 0. *)
Theorem sendChunk_sends_one_query_per_100_bytes (chunk : bytes)
    (sequence : Z) (k : nat) :
  (forall j, acknowledges (net j)) ->
  let chunks := splitDataIntoChunks chunk 100 in
  let r := sendChunk net sid tld chunk sequence k in
  value r = None
  /\ exchanges r = (k + length chunks)%nat
  /\ length chunks = ((length chunk + 99) / 100)%nat
  /\ emitted r
     = imap (fun i sub =>
               Fqdn (dataName sid tld (encodeDNSSafe sub)
                       (u16 (sequence + u16 (Z.of_nat i)))))
            chunks
  /\ sendData net sid tld chunk k = sendChunk net sid tld chunk 0 k.
Proof.
  intros Hack chunks r. subst r. unfold sendChunk. cbv zeta. fold chunks.
  rewrite sendChunk_range_acknowledged by exact Hack.
  cbn [value emitted exchanges].
  split; [reflexivity|]. split; [reflexivity|]. split.
  - subst chunks.
    destruct (splitDataIntoChunks_length chunk 100 ltac:(lia)) as [_ H].
    rewrite H. f_equal. lia.
  - split; [reflexivity|].
    unfold sendData. destruct chunk as [|b chunk']; reflexivity.
Qed.

End ChunkFacts.

Section NameSizeFacts.
Import Client Server.

Lemma generateSessionID_safe (rnd : nat -> Z) :
  (forall i, 0 <= rnd i < 32) ->
  length (generateSessionID rnd) = 7%nat
  /\ Forall in_alphabet (generateSessionID rnd)
  /\ ~ In dot (generateSessionID rnd).
Proof.
  intros Hrnd.
  assert (Hall : Forall in_alphabet (generateSessionID rnd)).
  { unfold generateSessionID. cbv zeta. apply List.Forall_forall.
    intros c Hc. apply in_map_iff in Hc as (i & <- & _).
    unfold in_alphabet, dnsBase32Alphabet. apply nth_In.
    specialize (Hrnd i). change (length (str "ABCDEFGHIJKLMNOPQRSTUVWXYZ234567"))
      with 32%nat. lia. }
  split; [reflexivity|]. split; [exact Hall|].
  intros Hdot. rewrite List.Forall_forall in Hall.
  apply dot_not_in_alphabet, Hall, Hdot.
Qed.

Lemma defaultTLD_safe : ~ In dot defaultTLD /\ defaultTLD <> [].
Proof.
  split; [|discriminate]. cbn. intros H.
  repeat (destruct H as [H|H]; [discriminate H|]). exact H.
Qed.

(** X12. A session id made by [generateSessionID] has seven characters
    of the base32 alphabet and no dot, so the server's name parsing gets
    back the encoded data, the sequence text, the session id and the TLD
    of every data and poll name the client composes. *)
Theorem generated_session_ids_parse_back (rnd : nat -> Z)
    (encoded : gostring) (seq : Z) :
  (forall i, 0 <= rnd i < 32) ->
  let '(sid, tld) := NewDNSClient rnd in
  length sid = 7%nat /\ Forall in_alphabet sid /\ ~ In dot sid
  /\ parseName (Fqdn (dataName sid tld encoded seq))
     = Some (mkParsed encoded (fmt_04x seq) sid tld)
  /\ parseName (Fqdn (pollName sid tld))
     = Some (mkParsed (str "AA") (str "ffff") sid tld).
Proof.
  intros Hrnd. unfold NewDNSClient.
  destruct (generateSessionID_safe rnd Hrnd) as (Hlen & Hall & Hdot).
  destruct defaultTLD_safe as [Htld Hne].
  split; [exact Hlen|]. split; [exact Hall|]. split; [exact Hdot|]. split.
  - change (dataName (generateSessionID rnd) defaultTLD encoded seq)
      with (composeName encoded (fmt_04x seq) (generateSessionID rnd) defaultTLD).
    apply parseName_composeName; try assumption. apply fmt_04x_no_dot.
  - change (pollName (generateSessionID rnd) defaultTLD)
      with (composeName (str "AA") (str "ffff") (generateSessionID rnd) defaultTLD).
    apply parseName_composeName; try assumption.
    cbn. intros H. repeat (destruct H as [H|H]; [discriminate H|]). exact H.
Qed.

Lemma sendChunk_range_emitted_sub net sid tld chunks :
  forall i sequence k name,
  In name (emitted (sendChunk_range net sid tld i chunks sequence k)) ->
  exists sub v,
    In sub chunks /\ name = Fqdn (dataName sid tld (encodeDNSSafe sub) v).
Proof.
  induction chunks as [|sub chunks IH]; intros i sequence k name;
    cbn [sendChunk_range]; [intros []|].
  set (q := sendQuery net _ k).
  assert (Hq : forall n, In n (emitted q) ->
               exists sub' v, In sub' (sub :: chunks)
                 /\ n = Fqdn (dataName sid tld (encodeDNSSafe sub') v)).
  { intros n Hn. exists sub, (u16 (sequence + u16 (Z.of_nat i))).
    split; [left; reflexivity|].
    pose proof (sendQuery_attempts_emitted net maxRetries
                  (Fqdn (dataName sid tld (encodeDNSSafe sub)
                           (u16 (sequence + u16 (Z.of_nat i))))) k) as Hall.
    rewrite List.Forall_forall in Hall. symmetry. apply Hall, Hn. }
  destruct (value q) as [v|err]; cbn [emitted]; [|apply Hq].
  intros Hin. apply in_app_or in Hin as [Hin|Hin]; [apply Hq, Hin|].
  destruct (IH _ _ _ _ Hin) as (sub' & v' & Hs & E).
  exists sub', v'. split; [right; exact Hs|exact E].
Qed.

Lemma Fqdn_length s : (length (Fqdn s) <= length s + 1)%nat.
Proof.
  unfold Fqdn. destruct (IsFqdn s); [lia|]. rewrite length_app. cbn. lia.
Qed.

Lemma Split_dataName (sid tld encoded seqHex : gostring) :
  ~ In dot sid -> ~ In dot tld -> tld <> [] -> ~ In dot seqHex ->
  Split (Fqdn (composeName encoded seqHex sid tld)) dot
  = Split encoded dot ++ [seqHex; sid; tld; []].
Proof.
  intros Hsid Htld Hne Hseq.
  destruct (last_char_not_dot tld Hne Htld) as (y & c & Ey & Hc).
  assert (EF : Fqdn (composeName encoded seqHex sid tld)
               = composeName encoded seqHex sid tld ++ [dot]).
  { unfold composeName. rewrite Ey.
    replace (encoded ++ dot :: seqHex ++ dot :: sid ++ dot :: y ++ [c])
      with ((encoded ++ dot :: seqHex ++ dot :: sid ++ dot :: y) ++ [c])
      by (rewrite <- !app_assoc; cbn; rewrite <- !app_assoc; cbn;
          rewrite <- !app_assoc; reflexivity).
    apply Fqdn_open_name, Hc. }
  rewrite EF. unfold composeName.
  replace ((encoded ++ dot :: seqHex ++ dot :: sid ++ dot :: tld) ++ [dot])
    with (encoded ++ dot :: (seqHex ++ dot :: (sid ++ dot :: (tld ++ dot :: []))))
    by (rewrite <- !app_assoc; cbn; rewrite <- !app_assoc; cbn;
        rewrite <- !app_assoc; reflexivity).
  rewrite !Split_app_sep.
  rewrite (Split_no_sep seqHex), (Split_no_sep sid), (Split_no_sep tld)
    by assumption.
  reflexivity.
Qed.

(** X11. With the session id and the TLD that [NewDNSClient] sets, every
    question name [sendChunk] puts on the wire has at most 181
    characters, and each of its labels at most 40: the names fit the DNS
    limits of 253 and 63, whatever the chunk. *)
Theorem data_query_names_fit_dns_limits (net : nat -> exchange)
    (rnd : nat -> Z) (chunk : bytes) (sequence : Z) (k : nat) :
  (forall i, 0 <= rnd i < 32) ->
  let '(sid, tld) := NewDNSClient rnd in
  Forall (fun name =>
            (length name <= 181)%nat
            /\ Forall (fun label => (length label <= 40)%nat)
                      (Split name dot))
         (emitted (sendChunk net sid tld chunk sequence k)).
Proof.
  intros Hrnd. unfold NewDNSClient.
  destruct (generateSessionID_safe rnd Hrnd) as (Hlen & Hall & Hdot).
  destruct defaultTLD_safe as [Htld Hne].
  apply List.Forall_forall. intros name Hin.
  unfold sendChunk in Hin. cbv zeta in Hin.
  apply sendChunk_range_emitted_sub in Hin as (sub & v & Hsub & ->).
  destruct (splitDataIntoChunks_length chunk 100 ltac:(lia)) as [Hsizes _].
  rewrite List.Forall_forall in Hsizes. specialize (Hsizes sub Hsub).
  split.
  - etransitivity; [apply Fqdn_length|].
    unfold dataName. rewrite length_app. cbn [length].
    rewrite length_app. cbn [length]. rewrite length_app. cbn [length].
    rewrite Hlen. change (length (fmt_04x v)) with 4%nat.
    change (length defaultTLD) with 3%nat.
    pose proof (encodeDNSSafe_length_100 sub ltac:(lia)). lia.
  - change (dataName (generateSessionID rnd) defaultTLD (encodeDNSSafe sub) v)
      with (composeName (encodeDNSSafe sub) (fmt_04x v)
              (generateSessionID rnd) defaultTLD).
    rewrite Split_dataName by (assumption || apply fmt_04x_no_dot).
    apply List.Forall_app. split.
    + assert (Hs : sub <> []) by (destruct sub; [cbn in Hsizes; lia|discriminate]).
      rewrite Split_encodeDNSSafe; [|exact Hs|].
      * eapply List.Forall_impl; [|apply slices_from_bound].
        intros l [Hl _]. exact Hl.
      * apply slices_nonempty. intros E.
        pose proof (Encode_length_ge (length sub) sub (Nat.le_refl _)) as Hge.
        unfold Base32.EncodeToString in E. rewrite E in Hge.
        destruct sub; [congruence|cbn in Hge; lia].
    + repeat constructor; rewrite ?Hlen; cbn; lia.
Qed.

End NameSizeFacts.

Section UplinkNumbering.
Import Client Server.
Variable net : nat -> exchange.
Variables sid tld : gostring.
Hypothesis Hack : forall j, acknowledges (net j).

Lemma sendChunk_acknowledged data sequence k :
  sendChunk net sid tld data sequence k
  = mkRan None (chunk_names sid tld data sequence)
          (k + length (splitDataIntoChunks data 100)).
Proof.
  unfold sendChunk. cbv zeta.
  rewrite sendChunk_range_acknowledged by exact Hack. reflexivity.
Qed.

Lemma uplink_acknowledged (datas : list bytes) : forall sequence k,
  0 <= sequence < 65536 ->
  emitted (uplink net sid tld (map LocalData datas) sequence k)
  = concat (imap (fun j data =>
                    chunk_names sid tld data (u16 (sequence + Z.of_nat j)))
                 (List.filter (fun d => (0 <? length d)%nat) datas))
  /\ value (uplink net sid tld (map LocalData datas) sequence k) = None.
Proof.
  induction datas as [|data datas IH]; intros sequence k Hseq;
    [split; reflexivity|].
  cbn [map uplink List.filter].
  destruct (0 <? length data)%nat.
  - rewrite sendChunk_acknowledged. cbn [value emitted exchanges].
    destruct (IH (u16 (sequence + 1))
                 (k + length (splitDataIntoChunks data 100))%nat) as [IHe IHv].
    { unfold u16. apply Z.mod_pos_bound. lia. }
    split; [|exact IHv]. rewrite IHe. cbn [imap concat].
    f_equal.
    + rewrite Z.add_0_r. unfold u16 at 1. rewrite Z.mod_small by lia.
      reflexivity.
    + f_equal. apply imap_ext. intros j d _. cbn. f_equal.
      unfold u16. rewrite Zplus_mod_idemp_l. f_equal. lia.
  - apply IH, Hseq.
Qed.

(** X24. When every query is acknowledged and the local socket delivers
    the given data, read after read, the upload goroutine of
    [handleConnection] sends nothing for an empty read, and for the
    [j]-th non-empty read (from 0) one query per 100-byte subchunk, the
    [i]-th of them with sequence number [j + i] modulo 2^16. *)
Theorem uplink_numbers_reads_and_subchunks (datas : list bytes) :
  emitted (handleConnection_uplink net sid tld (map LocalData datas))
  = concat (imap (fun j data => chunk_names sid tld data (u16 (Z.of_nat j)))
                 (List.filter (fun d => (0 <? length d)%nat) datas))
  /\ value (handleConnection_uplink net sid tld (map LocalData datas)) = None.
Proof.
  unfold handleConnection_uplink.
  destruct (uplink_acknowledged datas 0 0 ltac:(lia)) as [He Hv].
  split; [exact He|exact Hv].
Qed.

End UplinkNumbering.

Section RandomTLD.
Import Client Server.

(** X23. With a draw in [0, 5), [getRandomTLD] returns one of com, net,
    org, gov and edu; a data name composed with it and a dot-free session
    id is parsed back by the server into its four fields. *)
Theorem random_tlds_parse_back (rnd : nat -> Z) (sid encoded : gostring)
    (seq : Z) :
  0 <= rnd 0%nat < 5 -> ~ In dot sid ->
  In (getRandomTLD rnd) [str "com"; str "net"; str "org"; str "gov"; str "edu"]
  /\ parseName (Fqdn (dataName sid (getRandomTLD rnd) encoded seq))
     = Some (mkParsed encoded (fmt_04x seq) sid (getRandomTLD rnd)).
Proof.
  intros Hrnd Hsid.
  assert (Hin : In (getRandomTLD rnd)
                   [str "com"; str "net"; str "org"; str "gov"; str "edu"]).
  { unfold getRandomTLD. cbv zeta. apply nth_In. cbn [length]. lia. }
  split; [exact Hin|].
  change (dataName sid (getRandomTLD rnd) encoded seq)
    with (composeName encoded (fmt_04x seq) sid (getRandomTLD rnd)).
  apply parseName_composeName; try assumption; [apply fmt_04x_no_dot| |];
    cbn [In] in Hin;
    repeat (destruct Hin as [<-|Hin];
            [first [discriminate
                   |cbn; intros H;
                    repeat (destruct H as [H|H]; [discriminate H|]); exact H]|]);
    destruct Hin.
Qed.

End RandomTLD.

Section PollFacts.
Import Client.
Variable net : nat -> exchange.
Variables sid tld : gostring.

(** C10, amended. Text over the base32 alphabet decodes without error
    whatever its length, and "CLOSED" decodes to the empty payload.  So
    a TXT answer that spells CLOSED makes [sendQuery] return an empty
    payload, not an error, and the poll loop just sleeps; the loop ends
    with "session closed by server" only when the answer decodes to the
    six bytes CLOSED. *)
Theorem C10_CLOSED_text_decodes_to_nothing (k : nat) :
  (forall s, Forall (fun c => In c Base32.encodeStd) (ReplaceAll_empty s dot) ->
             exists out, decodeDNSSafe s = inl out)
  /\ decodeDNSSafe CLOSED = inl []
  /\ (forall t rest,
        net k = ExchangeMsg RcodeSuccess (RR_TXT t :: rest) ->
        concat (Txt t) = CLOSED ->
        value (sendQuery net (pollName sid tld) k) = inl []
        /\ value (poll_pass net sid tld k) = PollSleep)
  /\ (value (poll_pass net sid tld k) = PollFail ErrSessionClosed ->
      exists data,
        value (sendQuery net (pollName sid tld) k) = inl data
        /\ string_of_bytes data = CLOSED).
Proof.
  split; [exact decodeDNSSafe_total|]. split; [reflexivity|].
  assert (Hsend : forall t rest,
            net k = ExchangeMsg RcodeSuccess (RR_TXT t :: rest) ->
            concat (Txt t) = CLOSED ->
            value (sendQuery net (pollName sid tld) k) = inl []).
  { intros t rest Hnet Htxt. unfold sendQuery, maxRetries.
    cbn [sendQuery_attempts]. rewrite Hnet, Htxt. reflexivity. }
  split.
  - intros t rest Hnet Htxt. split; [eauto|].
    unfold poll_pass, pollForData. rewrite (Hsend t rest Hnet Htxt).
    reflexivity.
  - unfold poll_pass, pollForData. cbn [value].
    destruct (value (sendQuery net (pollName sid tld) k)) as [response|err] eqn:E.
    + destruct ((length response =? 0)%nat
                || gostring_eqb (string_of_bytes response) EMPTY) eqn:Eempty.
      * cbn [value]. intros H. discriminate H.
      * rewrite E. unfold gostring_eqb at 1. case_bool_decide as Hc.
        -- intros _. eauto.
        -- destruct ((0 <? length response)%nat
                     && negb (gostring_eqb (string_of_bytes response) EMPTY));
             discriminate.
    + rewrite E. intros [= ->].
      apply sendQuery_attempts_error in E as [E|[E|[e E]]]; discriminate E.
Qed.

End PollFacts.

Section HandlerFacts.
Import Server.



(** A session returned by [getSession] is in the table and connected. *)
Lemma getSession_connected s bk sid p s1 :
  getSession s bk sid = (Some p, s1) ->
  sessions s1 !! sid = Some p /\
  exists session c, heap s1 !! p = Some session /\ conn session = Some c.
Proof.
  unfold getSession.
  assert (Hfresh :
    match dial bk with
    | None => (None, s)
    | Some c =>
        (Some (length (heap s)),
         mkServer (<[sid := length (heap s)]> (sessions s))
           (heap s ++ [mkSession (Some c) (now bk) false]) (closedConns s))
    end = (Some p, s1) ->
    sessions s1 !! sid = Some p /\
    exists session c, heap s1 !! p = Some session /\ conn session = Some c).
  { destruct (dial bk) as [c|]; [|discriminate].
    intros [= <- <-]. cbn [sessions heap]. split.
    - apply lookup_insert_eq.
    - exists (mkSession (Some c) (now bk) false), c. split; [|reflexivity].
      rewrite lookup_app_r by lia. rewrite Nat.sub_diag. reflexivity. }
  destruct (sessions s !! sid) as [q|] eqn:Eq; [|exact Hfresh].
  destruct (heap s !! q) as [session|] eqn:Eh; [|exact Hfresh].
  destruct (conn session) as [c|] eqn:Ec; [|exact Hfresh].
  intros [= <- <-]. eauto.
Qed.

Section OneRequest.
Variables (s : DNSServer) (bk : Backend) (r : Msg).
Variables (question : Question) (rest : list Question) (q : parsed).
Hypothesis Hquestion : Questions r = question :: rest.
Hypothesis Hparse : parseName (QName question) = Some q.

(** C5, amended. A poll on a session with a live backend connection
    answers a read timeout and a zero-byte read with the base32 text of
    the bytes EMPTY ("IVGVAVCZ"), EOF or a connection reset with the
    base32 text of CLOSED ("INGE6U2FIQ") after closing the session, any
    other read error with ServerFailure, and data with its base32 text
    split at the dots. *)
Theorem C5_poll_answers_are_base32_text (p : nat) (session : Session)
    (c : Conn) :
  sequence q = str "ffff" ->
  sessions s !! sessionID q = Some p ->
  heap s !! p = Some session ->
  conn session = Some c -> closed session = false ->
  match read bk c with
  | ReadErr e =>
      if is_EOF e || mentions_reset e then
        handleDNSRequest s bk r
        = (answer r question RcodeSuccess [[str "INGE6U2FIQ"]],
           mkServer (sessions s)
             (<[p := mkSession None (lastActive session) true]> (heap s))
             (closedConns s ++ [c]))
      else if is_timeout e then
        handleDNSRequest s bk r = (answer r question RcodeSuccess [[str "IVGVAVCZ"]], s)
      else
        handleDNSRequest s bk r = (answer r question RcodeServerFailure [], s)
  | ReadData data =>
      if (length data =? 0)%nat then
        handleDNSRequest s bk r = (answer r question RcodeSuccess [[str "IVGVAVCZ"]], s)
      else
        handleDNSRequest s bk r
        = (answer r question RcodeSuccess [Split (encodeDNSSafe data) dot], s)
  end.
Proof.
  intros Hseq Htable Hheap Hconn Hopen.
  unfold handleDNSRequest, answer. rewrite Hquestion, Hparse.
  unfold getSession. rewrite Htable, Hheap, Hconn, Hheap, Hseq.
  change (gostring_eqb (str "ffff") (str "ffff")) with true. cbv iota.
  unfold handlePoll. rewrite Hopen, Hconn.
  destruct (read bk c) as [data|e].
  - destruct (length data =? 0)%nat eqn:E; [reflexivity|].
    rewrite E. reflexivity.
  - destruct (is_EOF e || mentions_reset e).
    + unfold Session_Close. rewrite Hopen, Hconn. reflexivity.
    + destruct (is_timeout e); reflexivity.
Qed.

(** C6. A data query whose payload decodes to nonempty bytes is
    acknowledged with the one-string TXT answer "EMPTY" when the
    backend write succeeds; when it fails the connection is closed, the
    connection slot of the session becomes nil and the reply is
    ServerFailure. *)
Theorem C6_data_write_acknowledged_or_failed (decodedData : bytes)
    (p : nat) (s1 : DNSServer) :
  sequence q <> str "ffff" ->
  decodeDNSSafe (encodedData q) = inl decodedData ->
  decodedData <> [] ->
  getSession s bk (sessionID q) = (Some p, s1) ->
  exists session c,
    heap s1 !! p = Some session /\ conn session = Some c /\
    match write bk c decodedData with
    | None =>
        handleDNSRequest s bk r
        = (answer r question RcodeSuccess [[str "EMPTY"]],
           set_session s1 p (mkSession (Some c) (now bk) (closed session)))
    | Some _ =>
        exists s2,
          handleDNSRequest s bk r = (answer r question RcodeServerFailure [], s2)
          /\ (exists session2, heap s2 !! p = Some session2
                               /\ conn session2 = None)
          /\ closedConns s2 = closedConns s1 ++ [c]
    end.
Proof.
  intros Hseq Hdecode Hdata Hget.
  destruct (getSession_connected _ _ _ _ _ Hget)
    as (Htable & session & c & Hheap & Hconn).
  exists session, c. split; [exact Hheap|]. split; [exact Hconn|].
  unfold handleDNSRequest, answer. rewrite Hquestion, Hparse, Hget, Hheap.
  assert (Hpoll : gostring_eqb (sequence q) (str "ffff") = false)
    by (unfold gostring_eqb; case_bool_decide; [contradiction|reflexivity]).
  rewrite Hpoll, Hdecode.
  destruct decodedData as [|b data]; [congruence|].
  cbn [length Nat.ltb Nat.leb]. unfold Session_Write. rewrite Hconn.
  destruct (write bk c (b :: data)) as [err|].
  - eexists. split; [reflexivity|]. split; [|reflexivity].
    exists (mkSession None (lastActive session) (closed session)).
    split; [|reflexivity]. cbn [set_session log_close heap].
    apply list_lookup_insert_eq. apply lookup_lt_Some in Hheap. exact Hheap.
  - reflexivity.
Qed.


End OneRequest.

End HandlerFacts.

(** * Client and server together *)

Section TunnelFacts.
Import Client Server.

Lemma not_poll_sequence seq :
  0 <= seq < 65535 -> gostring_eqb (fmt_04x seq) (str "ffff") = false.
Proof.
  intros H. unfold gostring_eqb. case_bool_decide as E; [|reflexivity].
  apply fmt_04x_ffff in E; lia.
Qed.

Lemma ReplaceAll_no_dot (s : gostring) :
  ~ In dot s -> ReplaceAll_empty s dot = s.
Proof.
  unfold ReplaceAll_empty. induction s as [|c s IH]; intros H; [reflexivity|].
  cbn [List.filter]. destruct (is_sep dot c) eqn:E.
  - apply is_sep_true in E. subst c. exfalso. apply H. left. reflexivity.
  - cbn [negb]. rewrite IH; [reflexivity|]. intros Hin. apply H. right. exact Hin.
Qed.

Lemma EncodeToString_no_dot (data : bytes) :
  ~ In dot (Base32.EncodeToString dnsBase32Alphabet data).
Proof.
  intros H.
  pose proof (Encode_in_alphabet (Base32.EncodedLen (length data)) data) as Hall.
  rewrite List.Forall_forall in Hall.
  apply dot_not_in_alphabet, Hall, H.
Qed.

Lemma poll_text (data : bytes) :
  data <> [] ->
  concat (Split (encodeDNSSafe data) dot)
  = Base32.EncodeToString dnsBase32Alphabet data.
Proof.
  intros Hdata.
  assert (Hne : slices maxSafeLabelSize
                  (Base32.EncodeToString dnsBase32Alphabet data) <> []).
  { apply slices_nonempty. intros E.
    pose proof (Encode_length_ge (length data) data (Nat.le_refl _)) as Hge.
    unfold Base32.EncodeToString in E. rewrite E in Hge.
    destruct data; [congruence|cbn in Hge; lia]. }
  rewrite Split_encodeDNSSafe by assumption.
  apply slices_concat. unfold maxSafeLabelSize. lia.
Qed.

Lemma text_EMPTY_iff (data : bytes) :
  Forall is_byte data ->
  Base32.EncodeToString dnsBase32Alphabet data = EMPTY <-> data = [35; 31; 60].
Proof.
  intros Hb. split.
  - intros E. pose proof (DecodeString_EncodeToString data Hb) as Hd.
    rewrite E in Hd. vm_compute in Hd. congruence.
  - intros ->. reflexivity.
Qed.

Lemma decode_text (data : bytes) :
  Forall is_byte data ->
  Base32.EncodeToString dnsBase32Alphabet data <> EMPTY ->
  decodeDNSSafe (Base32.EncodeToString dnsBase32Alphabet data) = inl data.
Proof.
  intros Hb Hne. unfold decodeDNSSafe, gostring_eqb.
  case_bool_decide as E; [contradiction|].
  rewrite ReplaceAll_no_dot by apply EncodeToString_no_dot.
  rewrite DecodeString_EncodeToString by exact Hb. reflexivity.
Qed.

Lemma sendQuery_answer net fqdn k t rest :
  net k = ExchangeMsg RcodeSuccess (RR_TXT t :: rest) ->
  sendQuery net fqdn k
  = mkRan (if gostring_eqb (concat (Txt t)) EMPTY then inl []
           else match decodeDNSSafe (concat (Txt t)) with
                | inr e => inr (ErrDecode e)
                | inl d => inl d
                end)
          [Fqdn fqdn] (S k).
Proof.
  intros E. unfold sendQuery. change maxRetries with 3%nat.
  cbn [sendQuery_attempts]. rewrite E.
  destruct (gostring_eqb (concat (Txt t)) EMPTY); [reflexivity|].
  destruct (decodeDNSSafe (concat (Txt t))); reflexivity.
Qed.

Section OnePoll.
Variables (s : DNSServer) (bk : Backend) (sid tld : gostring).
Variables (p : nat) (session : Session) (c : Conn).
Variable edns : option (Z * bool).
Hypothesis sid_no_dot : ~ In dot sid.
Hypothesis tld_no_dot : ~ In dot tld.
Hypothesis tld_nonempty : tld <> [].
Hypothesis Htable : sessions s !! sid = Some p.
Hypothesis Hheap : heap s !! p = Some session.
Hypothesis Hconn : conn session = Some c.
Hypothesis Hopen : closed session = false.

Let name := Fqdn (pollName sid tld).
Let r := mkMsg [mkQuestion name TypeTXT] edns.

Lemma poll_request_outcome :
  handleDNSRequest s bk r
  = match read bk c with
    | ReadErr e =>
        if is_EOF e || mentions_reset e then
          (answer r (mkQuestion name TypeTXT) RcodeSuccess
             [Split (encodeDNSSafe (bytes_of_string CLOSED)) dot],
           Session_Close s p session)
        else if is_timeout e then
          (answer r (mkQuestion name TypeTXT) RcodeSuccess
             [Split (encodeDNSSafe (bytes_of_string EMPTY)) dot], s)
        else (answer r (mkQuestion name TypeTXT) RcodeServerFailure [], s)
    | ReadData data =>
        if (length data =? 0)%nat then
          (answer r (mkQuestion name TypeTXT) RcodeSuccess
             [Split (encodeDNSSafe (bytes_of_string EMPTY)) dot], s)
        else
          (answer r (mkQuestion name TypeTXT) RcodeSuccess
             [Split (encodeDNSSafe data) dot], s)
    end.
Proof.
  assert (Hparse : parseName name
                   = Some (mkParsed (str "AA") (str "ffff") sid tld)).
  { subst name.
    change (pollName sid tld)
      with (composeName (str "AA") (str "ffff") sid tld).
    apply parseName_composeName; try assumption.
    cbn. intros H. repeat (destruct H as [H|H]; [discriminate H|]). exact H. }
  unfold handleDNSRequest, answer. subst r. cbn [Questions QName].
  rewrite Hparse. cbn [sessionID sequence].
  unfold getSession. rewrite Htable, Hheap, Hconn, Hheap.
  change (gostring_eqb (str "ffff") (str "ffff")) with true. cbv iota.
  unfold handlePoll. rewrite Hopen, Hconn.
  destruct (read bk c) as [data|e].
  - destruct (length data =? 0)%nat eqn:E; [reflexivity|].
    rewrite E. reflexivity.
  - destruct (is_EOF e || mentions_reset e); [reflexivity|].
    destruct (is_timeout e); reflexivity.
Qed.

(** X14. What a poll brings back to the client, given the reply the
    server writes for it.  Backend data is written to the local socket
    unchanged, with three exceptions: the bytes 23 1f 3c and the bytes
    spelling EMPTY are dropped, and the bytes spelling CLOSED end the
    session.  EOF or a reset of the backend ends the session; a read
    timeout and an empty read make the client sleep; any other read
    error is answered with a failure RCODE, which the client retries. *)
Theorem poll_answer_reaches_the_local_socket (net : nat -> exchange)
    (k : nat) :
  net k = deliver (fst (handleDNSRequest s bk r)) ->
  match read bk c with
  | ReadData data =>
      Forall is_byte data ->
      value (poll_pass net sid tld k)
      = if (length data =? 0)%nat then PollSleep
        else if bool_decide (data = [35; 31; 60]) then PollSleep
        else if gostring_eqb (string_of_bytes data) EMPTY then PollSleep
        else if gostring_eqb (string_of_bytes data) CLOSED
             then PollFail ErrSessionClosed
             else PollWrite data
  | ReadErr e =>
      if is_EOF e || mentions_reset e then
        value (poll_pass net sid tld k) = PollFail ErrSessionClosed
      else if is_timeout e then
        value (poll_pass net sid tld k) = PollSleep
      else retried (net k) = true
  end.
Proof.
  rewrite poll_request_outcome. intros Hnet.
  assert (Hidle :
    net k = deliver (answer r (mkQuestion name TypeTXT) RcodeSuccess
                       [Split (encodeDNSSafe (bytes_of_string EMPTY)) dot]) ->
    value (poll_pass net sid tld k) = PollSleep).
  { intros E. unfold poll_pass, pollForData.
    rewrite (sendQuery_answer net _ k _ _ E). reflexivity. }
  destruct (read bk c) as [data|e].
  - intros Hb. destruct (length data =? 0)%nat eqn:El.
    + apply Hidle, Hnet.
    + assert (Hdata : data <> [])
        by (intros ->; discriminate El).
      cbn [fst] in Hnet.
      pose proof (sendQuery_answer net (pollName sid tld) k _ _ Hnet) as Hq.
      cbn [Txt] in Hq. rewrite poll_text in Hq by exact Hdata.
      unfold poll_pass, pollForData.
      case_bool_decide as Ecol.
      * subst data. rewrite Hq. reflexivity.
      * assert (Hne : Base32.EncodeToString dnsBase32Alphabet data <> EMPTY).
        { intros E. apply Ecol. apply text_EMPTY_iff; assumption. }
        unfold gostring_eqb at 1 in Hq.
        rewrite bool_decide_eq_false_2 in Hq by exact Hne.
        rewrite decode_text in Hq by assumption.
        rewrite Hq. cbn [value emitted exchanges]. rewrite El. cbn [orb].
        destruct (gostring_eqb (string_of_bytes data) EMPTY) eqn:E2.
        { reflexivity. }
        cbn [value]. destruct (gostring_eqb (string_of_bytes data) CLOSED);
          [reflexivity|].
        rewrite E2. cbn [negb andb].
        destruct data; [congruence|reflexivity].
  - destruct (is_EOF e || mentions_reset e).
    + cbn [fst] in Hnet. unfold poll_pass, pollForData.
      rewrite (sendQuery_answer net _ k _ _ Hnet). reflexivity.
    + destruct (is_timeout e).
      * apply Hidle, Hnet.
      * cbn [fst] in Hnet. rewrite Hnet. reflexivity.
Qed.

End OnePoll.

(** X13. A data query the client composes for a subchunk reaches the
    backend unchanged: the server parses the name, decodes the payload
    to the subchunk and writes exactly that to the session's connection;
    on success the reply is one the client takes as an acknowledgement,
    on a failed write it is ServerFailure, which the client retries.
    (The subchunk 23 1f 3c, whose text is EMPTY, is left out.) *)
Theorem data_query_is_written_to_the_backend (s : DNSServer) (bk : Backend)
    (sid tld : gostring) (sub : bytes) (seq : Z) (edns : option (Z * bool))
    (p : nat) (s1 : DNSServer) :
  Forall is_byte sub -> sub <> [] -> sub <> [35; 31; 60] ->
  ~ In dot sid -> ~ In dot tld -> tld <> [] ->
  0 <= seq < 65535 ->
  getSession s bk sid = (Some p, s1) ->
  let name := Fqdn (dataName sid tld (encodeDNSSafe sub) seq) in
  let r := mkMsg [mkQuestion name TypeTXT] edns in
  exists session c,
    heap s1 !! p = Some session /\ conn session = Some c /\
    match write bk c sub with
    | None =>
        handleDNSRequest s bk r
        = (answer r (mkQuestion name TypeTXT) RcodeSuccess [[EMPTY]],
           set_session s1 p (mkSession (Some c) (now bk) (closed session)))
        /\ acknowledges (deliver (fst (handleDNSRequest s bk r)))
    | Some _ =>
        reply_rcode (fst (handleDNSRequest s bk r)) = Some RcodeServerFailure
        /\ retried (deliver (fst (handleDNSRequest s bk r))) = true
    end.
Proof.
  intros Hb Hne Hcol Hsid Htld Htldne Hseq Hget name r.
  destruct (getSession_connected _ _ _ _ _ Hget)
    as (Htable & session & c & Hheap & Hconn).
  exists session, c. split; [exact Hheap|]. split; [exact Hconn|].
  assert (Hparse : parseName name
                   = Some (mkParsed (encodeDNSSafe sub) (fmt_04x seq) sid tld)).
  { subst name.
    change (dataName sid tld (encodeDNSSafe sub) seq)
      with (composeName (encodeDNSSafe sub) (fmt_04x seq) sid tld).
    apply parseName_composeName; try assumption. apply fmt_04x_no_dot. }
  assert (Hrun : handleDNSRequest s bk r
    = match write bk c sub with
      | None =>
          (answer r (mkQuestion name TypeTXT) RcodeSuccess [[EMPTY]],
           set_session s1 p (mkSession (Some c) (now bk) (closed session)))
      | Some _ =>
          (answer r (mkQuestion name TypeTXT) RcodeServerFailure [],
           set_session (log_close s1 c) p
             (mkSession None (lastActive session) (closed session)))
      end).
  { unfold handleDNSRequest, answer. subst r. cbn [Questions QName].
    rewrite Hparse. cbn [sessionID sequence encodedData].
    rewrite Hget, Hheap, not_poll_sequence by exact Hseq.
    rewrite roundtrip_except_collision by assumption.
    destruct sub as [|b sub']; [congruence|].
    cbn [length Nat.ltb Nat.leb]. unfold Session_Write. rewrite Hconn.
    destruct (write bk c (b :: sub')); reflexivity. }
  rewrite Hrun. destruct (write bk c sub).
  - split; reflexivity.
  - split; [reflexivity|]. cbn [fst deliver answer].
    eexists _, _. split; reflexivity.
Qed.

End TunnelFacts.

Section ReassemblyFacts.
Import Client Server.
Variable net : nat -> exchange.
Variables sid tld : gostring.
Hypothesis sid_no_dot : ~ In dot sid.
Hypothesis tld_no_dot : ~ In dot tld.
Hypothesis tld_nonempty : tld <> [].

Lemma imap_payloads (chunks : list bytes) : forall (f : nat -> Z),
  Forall (fun sub => Forall is_byte sub /\ sub <> [] /\ sub <> [35; 31; 60])
         chunks ->
  Forall2 (fun name payload =>
             exists q, parseName name = Some q /\ sessionID q = sid
                       /\ decodeDNSSafe (encodedData q) = inl payload)
          (imap (fun i sub => Fqdn (dataName sid tld (encodeDNSSafe sub) (f i)))
                chunks)
          chunks.
Proof.
  induction chunks as [|sub chunks IH]; intros f Hall; [constructor|].
  inversion Hall as [|? ? (Hb & Hne & Hcol) Hall']; subst.
  cbn [imap]. constructor.
  - exists (mkParsed (encodeDNSSafe sub) (fmt_04x (f 0%nat)) sid tld).
    split; [|split; [reflexivity|]].
    + change (dataName sid tld (encodeDNSSafe sub) (f 0%nat))
        with (composeName (encodeDNSSafe sub) (fmt_04x (f 0%nat)) sid tld).
      apply parseName_composeName; try assumption. apply fmt_04x_no_dot.
    + cbn [encodedData]. apply roundtrip_except_collision; assumption.
  - apply (IH (fun i => f (S i))), Hall'.
Qed.

(** X22. When every query is acknowledged, the payloads the server
    decodes from the names [sendChunk] sends for a chunk, in order, all
    under the client's session id, concatenate to the chunk.  (Chunks
    with the subchunk 23 1f 3c are left out.) *)
Theorem uplink_queries_carry_the_chunk (chunk : bytes) (sequence : Z)
    (k : nat) :
  (forall j, acknowledges (net j)) ->
  Forall is_byte chunk ->
  ~ In [35; 31; 60] (splitDataIntoChunks chunk 100) ->
  exists payloads,
    Forall2 (fun name payload =>
               exists q, parseName name = Some q /\ sessionID q = sid
                         /\ decodeDNSSafe (encodedData q) = inl payload)
            (emitted (sendChunk net sid tld chunk sequence k)) payloads
    /\ concat payloads = chunk.
Proof.
  intros Hack Hb Hcol. exists (splitDataIntoChunks chunk 100). split.
  - unfold sendChunk. cbv zeta.
    rewrite sendChunk_range_acknowledged by exact Hack. cbn [emitted].
    apply (imap_payloads _ (fun i => u16 (sequence + u16 (Z.of_nat (0 + i))))).
    apply List.Forall_forall. intros sub Hsub.
    destruct (splitDataIntoChunks_length chunk 100 ltac:(lia)) as [Hsizes _].
    rewrite List.Forall_forall in Hsizes. specialize (Hsizes sub Hsub).
    split; [|split].
    + apply List.Forall_forall. intros b Hin.
      rewrite List.Forall_forall in Hb. apply Hb.
      pose proof (slices_from_bound (length chunk) 100 0 chunk) as Hbound.
      rewrite List.Forall_forall in Hbound.
      apply (proj2 (Hbound sub Hsub)), Hin.
    + intros ->. cbn in Hsizes. lia.
    + intros ->. apply Hcol, Hsub.
  - apply (slices_concat 100 chunk). lia.
Qed.

End ReassemblyFacts.

(** * The server: replies, session table, cleanup *)

Section ReplyFacts.
Import Server.

Lemma EMPTY_txt_ok : txt_string_ok EMPTY.
Proof.
  split; [cbn; lia|]. unfold in_alphabet.
  apply List.Forall_forall. intros c Hc.
  cbn in Hc. cbn.
  repeat (destruct Hc as [<-|Hc]; [tauto|]). destruct Hc.
Qed.

Lemma encodeDNSSafe_strings (data : bytes) :
  data <> [] -> Forall txt_string_ok (Split (encodeDNSSafe data) dot).
Proof.
  intros Hdata.
  assert (Hne : slices maxSafeLabelSize
                  (Base32.EncodeToString dnsBase32Alphabet data) <> []).
  { apply slices_nonempty. intros E.
    pose proof (Encode_length_ge (length data) data (Nat.le_refl _)) as Hge.
    unfold Base32.EncodeToString in E. rewrite E in Hge.
    destruct data; [congruence|cbn in Hge; lia]. }
  rewrite Split_encodeDNSSafe by assumption.
  apply List.Forall_forall. intros l Hl.
  pose proof (slices_from_sizes
                (length (Base32.EncodeToString dnsBase32Alphabet data))
                maxSafeLabelSize 0
                (Base32.EncodeToString dnsBase32Alphabet data)
                ltac:(unfold maxSafeLabelSize; lia)) as Hsizes.
  pose proof (encoded_labels_safe data) as Hsafe.
  rewrite List.Forall_forall in Hsizes, Hsafe.
  split; [apply (Hsizes l Hl)|apply (Hsafe l Hl)].
Qed.

Lemma handlePoll_bytes s bk p session c :
  conn session = Some c ->
  (exists response s2,
      handlePoll s bk p session = (PollBytes response, s2)
      /\ response <> [])
  \/ exists s2, handlePoll s bk p session = (PollError, s2).
Proof.
  intros Hconn. unfold handlePoll. rewrite Hconn.
  destruct (closed session).
  { left. eexists _, _. split; [reflexivity|discriminate]. }
  destruct (read bk c) as [data|e].
  - left. destruct (length data =? 0)%nat eqn:E.
    + eexists _, _. split; [reflexivity|discriminate].
    + eexists _, _. split; [reflexivity|]. intros ->. discriminate E.
  - destruct (is_EOF e || mentions_reset e).
    { left. eexists _, _. split; [reflexivity|discriminate]. }
    destruct (is_timeout e).
    { left. eexists _, _. split; [reflexivity|discriminate]. }
    right. eexists. reflexivity.
Qed.

Lemma request_shape s bk r question rest :
  Questions r = question :: rest ->
  exists rcode answers s',
    handleDNSRequest s bk r
    = (Wrote (mkReply rcode answers (reply_edns r)), s')
    /\ ((rcode = RcodeSuccess
         /\ exists strings,
              strings <> [] /\ Forall txt_string_ok strings
              /\ answers = [txt (QName question) strings])
        \/ ((rcode = RcodeFormatError \/ rcode = RcodeServerFailure)
            /\ answers = [])).
Proof.
  intros Hq. unfold handleDNSRequest. rewrite Hq.
  destruct (parseName (QName question)) as [q|].
  2:{ eexists _, _, _. split; [reflexivity|]. right. auto. }
  destruct (getSession s bk (sessionID q)) as [[p|] s1] eqn:Hget.
  2:{ eexists _, _, _. split; [reflexivity|]. right. auto. }
  destruct (getSession_connected _ _ _ _ _ Hget)
    as (Htable & session & c & Hheap & Hconn).
  rewrite Hheap.
  assert (Hack : forall s' : DNSServer, exists rcode answers s'',
    (Wrote (mkReply RcodeSuccess
              [txt (QName question)
                 (if (maxResponseChunkSize <? length EMPTY)%nat
                  then slices maxResponseChunkSize EMPTY else [EMPTY])]
              (reply_edns r)), s')
    = (Wrote (mkReply rcode answers (reply_edns r)), s'')
    /\ ((rcode = RcodeSuccess
         /\ exists strings,
              strings <> [] /\ Forall txt_string_ok strings
              /\ answers = [txt (QName question) strings])
        \/ ((rcode = RcodeFormatError \/ rcode = RcodeServerFailure)
            /\ answers = []))).
  { intros s'. eexists _, _, _. split; [reflexivity|]. left.
    split; [reflexivity|]. exists [EMPTY].
    split; [discriminate|]. split; [|reflexivity].
    constructor; [apply EMPTY_txt_ok|constructor]. }
  destruct (gostring_eqb (sequence q) (str "ffff")).
  - destruct (handlePoll_bytes s1 bk p session c Hconn)
      as [(response & s2 & -> & Hne)|(s2 & ->)].
    + destruct response as [|b response']; [congruence|].
      cbn [length Nat.eqb].
      eexists _, _, _. split; [reflexivity|]. left.
      split; [reflexivity|]. eexists. split; [apply Split_nonempty|].
      split; [|reflexivity]. apply encodeDNSSafe_strings. discriminate.
    + eexists _, _, _. split; [reflexivity|]. right. auto.
  - destruct (decodeDNSSafe (encodedData q)) as [decodedData|e].
    2:{ eexists _, _, _. split; [reflexivity|]. right. auto. }
    destruct (0 <? length decodedData)%nat; [|apply Hack].
    destruct (Session_Write s1 bk p session decodedData) as [[|] s2];
      [apply Hack|].
    eexists _, _, _. split; [reflexivity|]. right. auto.
Qed.


(** X16. Every string of every TXT record the server writes has between
    1 and 40 characters, all of the base32 alphabet: it fits the 255
    octets of a DNS character-string. *)
Theorem reply_strings_are_short_base32 (s : DNSServer) (bk : Backend)
    (r : Msg) :
  Forall (Forall txt_string_ok) (reply_txt (fst (handleDNSRequest s bk r))).
Proof.
  destruct (Questions r) as [|question rest] eqn:Hq.
  - unfold handleDNSRequest. rewrite Hq. constructor.
  - destruct (request_shape s bk r question rest Hq)
      as (rcode & answers & s' & -> & H).
    cbn [fst reply_txt Answer].
    destruct H as [(-> & strings & Hne & Hall & ->)|(_ & ->)].
    + cbn. constructor; [exact Hall|constructor].
    + constructor.
Qed.

(** X19. Once [getSession] has returned a session for an id, a later
    [getSession] for that id returns the same session and changes
    nothing, whether or not the backend could be dialed then. *)
Theorem connected_session_is_reused_without_dialing (s s1 : DNSServer)
    (bk bk' : Backend) (sid : gostring) (p : nat) :
  getSession s bk sid = (Some p, s1) ->
  getSession s1 bk' sid = (Some p, s1).
Proof.
  intros Hget.
  destruct (getSession_connected _ _ _ _ _ Hget)
    as (Htable & session & c & Hheap & Hconn).
  unfold getSession. rewrite Htable, Hheap, Hconn. reflexivity.
Qed.

End ReplyFacts.

Section InvariantFacts.
Import Server.

Lemma wf_NewDNSServer : wf NewDNSServer.
Proof.
  unfold wf, table_valid, table_injective, closed_released, no_leak,
    NewDNSServer. cbn [sessions heap].
  repeat split; intros; try (rewrite lookup_empty in *; discriminate);
    try discriminate.
Qed.

Lemma wf_set_session s p ses' :
  wf s ->
  (closed ses' = true -> conn ses' = None) ->
  (forall c, conn ses' = Some c -> exists id, sessions s !! id = Some p) ->
  wf (set_session s p ses').
Proof.
  intros (Hv & Hi & Hc & Hl) Hclosed Hreach.
  unfold wf, table_valid, table_injective, closed_released, no_leak,
    set_session. cbn [sessions heap].
  split; [|split; [exact Hi|split]].
  - intros id q Hq. apply lookup_lt_is_Some. rewrite length_insert.
    apply lookup_lt_is_Some. eapply Hv, Hq.
  - intros q x Hx Hcl. apply list_lookup_insert_Some in Hx
      as [(-> & -> & _)|(_ & Hx)]; [auto|eapply Hc; eassumption].
  - intros q x c Hx Hconn. apply list_lookup_insert_Some in Hx
      as [(-> & -> & _)|(_ & Hx)]; [eapply Hreach, Hconn|].
    eapply Hl; eassumption.
Qed.

Lemma wf_log_close s c : wf s -> wf (log_close s c).
Proof. intros H. exact H. Qed.

Lemma wf_Session_Close s p ses : wf s -> wf (Session_Close s p ses).
Proof.
  intros H. unfold Session_Close. destruct (closed ses); [exact H|].
  destruct (conn ses).
  - apply wf_set_session; [apply wf_log_close, H|reflexivity|discriminate].
  - apply wf_set_session; [exact H|reflexivity|discriminate].
Qed.

Lemma wf_Session_Write s bk p ses data id :
  wf s -> sessions s !! id = Some p -> heap s !! p = Some ses ->
  wf (snd (Session_Write s bk p ses data)).
Proof.
  intros H Hid Hp. unfold Session_Write.
  destruct (conn ses) as [c|] eqn:Ec; [|exact H].
  destruct (write bk c data); cbn [snd].
  - apply wf_set_session; [apply wf_log_close, H|intros _; reflexivity
                           |discriminate].
  - apply wf_set_session; [exact H| |intros _ _; eauto].
    cbn [closed conn]. intros Hcl.
    destruct H as (_ & _ & Hc & _). rewrite <- Ec. eapply Hc; eassumption.
Qed.

Lemma wf_handlePoll s bk p ses :
  wf s -> wf (snd (handlePoll s bk p ses)).
Proof.
  intros H. unfold handlePoll. destruct (closed ses); [exact H|].
  destruct (conn ses) as [c|]; [|exact H].
  destruct (read bk c) as [data|e].
  - destruct (length data =? 0)%nat; exact H.
  - destruct (is_EOF e || mentions_reset e);
      [apply wf_Session_Close, H|].
    destruct (is_timeout e); exact H.
Qed.

Lemma wf_getSession s bk sid :
  wf s -> wf (snd (getSession s bk sid)).
Proof.
  intros H. unfold getSession.
  assert (Hfresh :
    (forall p0 ses0 c0, sessions s !! sid = Some p0 ->
                        heap s !! p0 = Some ses0 -> conn ses0 = Some c0 ->
                        False) ->
    wf (snd match dial bk with
            | None => (None, s)
            | Some c =>
                (Some (length (heap s)),
                 mkServer (<[sid := length (heap s)]> (sessions s))
                   (heap s ++ [mkSession (Some c) (now bk) false])
                   (closedConns s))
            end)).
  { intros Hstale. destruct (dial bk) as [c|]; [|exact H]. cbn [snd].
    destruct H as (Hv & Hi & Hc & Hl).
    unfold wf, table_valid, table_injective, closed_released, no_leak.
    cbn [sessions heap].
    split; [|split; [|split]].
    - intros id q Hq. apply lookup_lt_is_Some. rewrite length_app. cbn [length].
      apply lookup_insert_Some in Hq as [(_ & <-)|(_ & Hq)]; [lia|].
      apply Hv, lookup_lt_is_Some in Hq. lia.
    - intros id1 id2 q H1 H2.
      apply lookup_insert_Some in H1 as [(<- & <-)|(Hn1 & H1)];
        apply lookup_insert_Some in H2 as [(<- & E2)|(Hn2 & H2)];
        try reflexivity.
      + apply Hv, lookup_lt_is_Some in H2. lia.
      + subst q. apply Hv, lookup_lt_is_Some in H1. lia.
      + eapply Hi; eassumption.
    - intros q x Hx Hcl. apply lookup_app_Some in Hx as [Hx|(_ & Hx)].
      + eapply Hc; eassumption.
      + apply list_lookup_singleton_Some in Hx as (_ & <-). discriminate Hcl.
    - intros q x c' Hx Hconn. apply lookup_app_Some in Hx as [Hx|(Hge & Hx)].
      + destruct (Hl q x c' Hx Hconn) as (id & Hid).
        exists id. rewrite lookup_insert_ne; [exact Hid|].
        intros <-. eapply Hstale; eassumption.
      + apply list_lookup_singleton_Some in Hx as (Hq & _).
        exists sid. rewrite lookup_insert_eq. f_equal. lia. }
  destruct (sessions s !! sid) as [p0|] eqn:E0;
    [|apply Hfresh; intros; discriminate].
  destruct (heap s !! p0) as [ses0|] eqn:E1;
    [|apply Hfresh; intros ? ? ? [= <-]; congruence].
  destruct (conn ses0) as [c0|] eqn:E2; [exact H|].
  apply Hfresh. intros ? ? ? [= <-] ? ?. congruence.
Qed.

Lemma wf_handleDNSRequest s bk r :
  wf s -> wf (snd (handleDNSRequest s bk r)).
Proof.
  intros H. unfold handleDNSRequest.
  destruct (Questions r) as [|question rest]; [exact H|].
  destruct (parseName (QName question)) as [q|]; [|exact H].
  pose proof (wf_getSession s bk (sessionID q) H) as H1.
  destruct (getSession s bk (sessionID q)) as [[p|] s1] eqn:Hget;
    cbn [snd] in H1; [|exact H1].
  destruct (getSession_connected _ _ _ _ _ Hget)
    as (Htable & session & c & Hheap & Hconn).
  rewrite Hheap.
  destruct (gostring_eqb (sequence q) (str "ffff")).
  - pose proof (wf_handlePoll s1 bk p session H1) as H2.
    destruct (handlePoll s1 bk p session) as [[response| |] s2];
      cbn [snd] in H2; try exact H2.
    destruct (length response =? 0)%nat; exact H2.
  - destruct (decodeDNSSafe (encodedData q)) as [decodedData|e];
      [|exact H1].
    destruct (0 <? length decodedData)%nat; [|exact H1].
    pose proof (wf_Session_Write s1 bk p session decodedData _ H1 Htable Hheap)
      as H2.
    destruct (Session_Write s1 bk p session decodedData) as [[|] s2];
      exact H2.
Qed.

End InvariantFacts.

Section CleanupFacts.
Import Server.

Lemma Session_Close_effect s p ses :
  heap s !! p = Some ses ->
  sessions (Session_Close s p ses) = sessions s
  /\ (forall q, q <> p -> heap (Session_Close s p ses) !! q = heap s !! q)
  /\ (exists ses', heap (Session_Close s p ses) !! p = Some ses'
                   /\ closed ses' = true
                   /\ (closed ses = false -> conn ses' = None)
                   /\ (closed ses = true -> ses' = ses))
  /\ (forall c, In c (closedConns s) ->
                In c (closedConns (Session_Close s p ses)))
  /\ (forall c, closed ses = false -> conn ses = Some c ->
                In c (closedConns (Session_Close s p ses))).
Proof.
  intros Hp. pose proof (lookup_lt_Some _ _ _ Hp) as Hlt.
  unfold Session_Close. destruct (closed ses) eqn:Hcl.
  - split; [reflexivity|]. split; [reflexivity|].
    split; [exists ses; repeat split; auto; discriminate|].
    split; [auto|discriminate].
  - destruct (conn ses) as [c0|] eqn:Hc; cbn [set_session log_close sessions heap closedConns].
    + split; [reflexivity|].
      split; [intros q Hq; apply list_lookup_insert_ne; congruence|].
      split.
      { eexists. split; [apply list_lookup_insert_eq, Hlt|].
        repeat split; discriminate. }
      split; [intros c Hin; apply in_or_app; left; exact Hin|].
      intros c _ [= <-]. apply in_or_app. right. left. reflexivity.
    + split; [reflexivity|].
      split; [intros q Hq; apply list_lookup_insert_ne; congruence|].
      split.
      { eexists. split; [apply list_lookup_insert_eq, Hlt|].
        repeat split; discriminate. }
      split; [auto|discriminate].
Qed.

Lemma cleanup_entry_kept now s id p ses :
  heap s !! p = Some ses -> expired now ses = false ->
  cleanup_entry now s (id, p) = s.
Proof.
  intros Hp He. unfold cleanup_entry. rewrite Hp.
  unfold expired in He. rewrite He. reflexivity.
Qed.

Lemma cleanup_entry_removed now s id p ses :
  heap s !! p = Some ses -> expired now ses = true ->
  cleanup_entry now s (id, p)
  = mkServer (delete id (sessions (Session_Close s p ses)))
             (heap (Session_Close s p ses))
             (closedConns (Session_Close s p ses)).
Proof.
  intros Hp He. unfold cleanup_entry. rewrite Hp.
  unfold expired in He. rewrite He. reflexivity.
Qed.

Lemma wf_cleanup_entry now s id p :
  wf s -> sessions s !! id = Some p -> wf (cleanup_entry now s (id, p)).
Proof.
  intros H Hid.
  destruct H as (Hv & Hi & Hc & Hl).
  destruct (Hv id p Hid) as [ses Hp].
  destruct (expired now ses) eqn:He;
    [|rewrite (cleanup_entry_kept _ _ _ _ _ Hp He); repeat split; assumption].
  rewrite (cleanup_entry_removed _ _ _ _ _ Hp He).
  pose proof (wf_Session_Close s p ses (conj Hv (conj Hi (conj Hc Hl))))
    as (Hv1 & Hi1 & Hc1 & Hl1).
  destruct (Session_Close_effect s p ses Hp)
    as (Es & Hother & (ses' & Hp' & Hcl' & Hopen' & Hsame') & _ & _).
  unfold wf, table_valid, table_injective, closed_released, no_leak.
  cbn [sessions heap].
  split; [|split; [|split]].
  - intros id' q Hq. apply lookup_delete_Some in Hq as [_ Hq]. eapply Hv1, Hq.
  - intros id1 id2 q H1 H2. apply lookup_delete_Some in H1 as [_ H1].
    apply lookup_delete_Some in H2 as [_ H2]. eapply Hi1; eassumption.
  - exact Hc1.
  - intros q x c Hx Hconn. destruct (Hl1 q x c Hx Hconn) as (id' & Hid').
    exists id'. apply lookup_delete_Some. split; [|exact Hid'].
    intros <-. rewrite Es, Hid in Hid'. injection Hid' as <-.
    rewrite Hp' in Hx. injection Hx as <-.
    destruct (closed ses) eqn:Hcs.
    + rewrite (Hsame' eq_refl) in Hconn.
      rewrite (Hc p ses Hp Hcs) in Hconn. discriminate.
    + rewrite (Hopen' eq_refl) in Hconn. discriminate.
Qed.

Lemma cleanup_pass_spec now order : forall t,
  wf t -> NoDup (order.*1) ->
  (forall id p, In (id, p) order -> sessions t !! id = Some p) ->
  let t' := cleanupSessions_pass now order t in
  wf t'
  /\ (forall id p,
        sessions t' !! id = Some p
        <-> sessions t !! id = Some p
            /\ ~ (In (id, p) order
                  /\ exists ses, heap t !! p = Some ses
                                 /\ expired now ses = true))
  /\ (forall id p, sessions t' !! id = Some p -> heap t' !! p = heap t !! p)
  /\ (forall id p ses,
        In (id, p) order -> heap t !! p = Some ses ->
        expired now ses = true ->
        (exists ses', heap t' !! p = Some ses'
                      /\ closed ses' = true /\ conn ses' = None)
        /\ forall c, conn ses = Some c -> In c (closedConns t'))
  /\ (forall c, In c (closedConns t) -> In c (closedConns t'))
  /\ (forall q, (forall id, ~ In (id, q) order) -> heap t' !! q = heap t !! q).
Proof.
  induction order as [|[id0 p0] rest IH]; intros t Hwf Hnd Hin; cbv zeta.
  - cbn [cleanupSessions_pass fold_left].
    split; [exact Hwf|]. split.
    { intros id p. split; [intros H; split; [exact H|intros [[] _]]|tauto]. }
    split; [reflexivity|]. split; [intros ? ? ? []|]. split; auto.
  - change (cleanupSessions_pass now ((id0, p0) :: rest) t)
      with (cleanupSessions_pass now rest (cleanup_entry now t (id0, p0))).
    set (t1 := cleanup_entry now t (id0, p0)).
    assert (Hid0 : sessions t !! id0 = Some p0) by (apply Hin; left; reflexivity).
    pose proof (wf_cleanup_entry now t id0 p0 Hwf Hid0) as Hwf1. fold t1 in Hwf1.
    rewrite fmap_cons in Hnd. apply NoDup_cons in Hnd as [Hnot Hnd].
    assert (Hne : forall id p, In (id, p) rest -> id <> id0).
    { intros id p Hr <-. apply Hnot. apply list_elem_of_fmap.
      exists (id, p). split; [reflexivity|apply list_elem_of_In, Hr]. }
    destruct Hwf as (Hv & Hi & Hc & Hl).
    assert (Hpne : forall id p, In (id, p) rest -> p <> p0).
    { intros id p Hr <-. apply (Hne id p Hr).
      apply (Hi id id0 p); [apply Hin; right; exact Hr|exact Hid0]. }
    destruct (Hv id0 p0 Hid0) as [ses0 Hp0].
    assert (F :
      (forall id, id <> id0 -> sessions t1 !! id = sessions t !! id)
      /\ (sessions t1 !! id0
          = if expired now ses0 then None else Some p0)
      /\ (forall q, q <> p0 -> heap t1 !! q = heap t !! q)
      /\ (expired now ses0 = false -> heap t1 = heap t)
      /\ (expired now ses0 = true ->
          (exists ses', heap t1 !! p0 = Some ses'
                        /\ closed ses' = true /\ conn ses' = None)
          /\ forall c, conn ses0 = Some c -> In c (closedConns t1))
      /\ (forall c, In c (closedConns t) -> In c (closedConns t1))).
    { subst t1. destruct (expired now ses0) eqn:He.
      - rewrite (cleanup_entry_removed _ _ _ _ _ Hp0 He).
        destruct (Session_Close_effect t p0 ses0 Hp0)
          as (Es & Hother & (ses' & Hp' & Hcl' & Hopen' & Hsame') & Hmono & Hlog).
        cbn [sessions heap closedConns]. rewrite Es.
        split; [intros id Hn; apply lookup_delete_ne; congruence|].
        split; [apply lookup_delete_eq|].
        split; [exact Hother|]. split; [discriminate|].
        split; [|exact Hmono]. intros _. split.
        + exists ses'. split; [exact Hp'|]. split; [exact Hcl'|].
          destruct (closed ses0) eqn:Hcs.
          * rewrite (Hsame' eq_refl). eapply Hc; eassumption.
          * apply Hopen'. reflexivity.
        + intros c Hconn. destruct (closed ses0) eqn:Hcs.
          * rewrite (Hc p0 ses0 Hp0 Hcs) in Hconn. discriminate.
          * apply Hlog; [reflexivity|exact Hconn].
      - rewrite (cleanup_entry_kept _ _ _ _ _ Hp0 He).
        split; [reflexivity|]. split; [exact Hid0|].
        split; [reflexivity|]. split; [reflexivity|].
        split; [discriminate|auto]. }
    destruct F as (Fs & Fs0 & Fh & Fkeep & Fexp & Fmono).
    assert (Hin1 : forall id p, In (id, p) rest -> sessions t1 !! id = Some p).
    { intros id p Hr. rewrite Fs by (eapply Hne, Hr). apply Hin. right. exact Hr. }
    destruct (IH t1 Hwf1 Hnd Hin1) as (W & S & K & X & M & U).
    split; [exact W|]. split; [|split; [|split; [|split]]].
    + intros id p. rewrite S. split.
      * intros [H1 Hn]. destruct (decide (id = id0)) as [->|Hd].
        -- rewrite Fs0 in H1. destruct (expired now ses0) eqn:He; [discriminate|].
           injection H1 as <-. split; [exact Hid0|].
           intros [_ (ses & Hs & Hexp)]. congruence.
        -- rewrite Fs in H1 by exact Hd. split; [exact H1|].
           intros [[[= -> ->]|Hr] (ses & Hs & Hexp)]; [congruence|].
           apply Hn. split; [exact Hr|]. exists ses.
           rewrite Fh by (eapply Hpne, Hr). auto.
      * intros [H1 Hn]. destruct (decide (id = id0)) as [->|Hd].
        -- assert (p = p0) by congruence. subst p.
           destruct (expired now ses0) eqn:He.
           ++ exfalso. apply Hn. split; [left; reflexivity|eauto].
           ++ rewrite Fs0. split; [reflexivity|].
              intros [Hr _]. apply (Hne _ _ Hr). reflexivity.
        -- rewrite Fs by exact Hd. split; [exact H1|].
           intros [Hr (ses & Hs & Hexp)]. apply Hn.
           split; [right; exact Hr|]. exists ses.
           rewrite Fh in Hs by (eapply Hpne, Hr). auto.
    + intros id p Hk. rewrite (K id p Hk).
      apply S in Hk as [Hk _].
      destruct (decide (id = id0)) as [->|Hd].
      * rewrite Fs0 in Hk. destruct (expired now ses0) eqn:He; [discriminate|].
        rewrite Fkeep by reflexivity. reflexivity.
      * rewrite Fs in Hk by exact Hd. apply Fh. intros ->.
        apply Hd. eapply Hi; eassumption.
    + intros id p ses [[= -> ->]|Hr] Hs Hexp.
      * assert (ses = ses0) by congruence. subst ses.
        destruct (Fexp Hexp) as ((ses' & Hp' & Hcl' & Hcn') & Hlog).
        split.
        -- exists ses'. rewrite U; [auto|].
           intros id' Hr. apply (Hpne _ _ Hr). reflexivity.
        -- intros c Hconn. apply M, Hlog, Hconn.
      * apply (X id p ses Hr); [|exact Hexp].
        rewrite Fh by (eapply Hpne, Hr). exact Hs.
    + intros c Hc0. apply M, Fmono, Hc0.
    + intros q Hq. rewrite U by (intros id Hr; apply (Hq id); right; exact Hr).
      apply Fh. intros ->. apply (Hq id0). left. reflexivity.
Qed.

Lemma order_of_table (s : DNSServer) (order : list (gostring * nat)) :
  Permutation order (map_to_list (sessions s)) ->
  NoDup (order.*1)
  /\ forall id p, In (id, p) order <-> sessions s !! id = Some p.
Proof.
  intros Hperm. split.
  - rewrite Hperm. apply NoDup_fst_map_to_list.
  - intros id p. rewrite <- elem_of_map_to_list, <- list_elem_of_In.
    split; intros H; [rewrite <- Hperm|rewrite Hperm]; exact H.
Qed.

(** X21. One pass of [cleanupSessions], in whatever order the table is
    visited: the sessions that stay are exactly those that are open and
    were active within the last five minutes, and their objects are
    untouched; every other session is removed from the table, marked
    closed with an empty connection slot, and the connection it held is
    closed. *)
Theorem cleanup_removes_exactly_the_expired_sessions (s : DNSServer)
    (now : Z) (order : list (gostring * nat)) :
  wf s -> Permutation order (map_to_list (sessions s)) ->
  let s' := cleanupSessions_pass now order s in
  (forall id p,
      sessions s' !! id = Some p
      <-> sessions s !! id = Some p
          /\ exists ses, heap s !! p = Some ses /\ expired now ses = false)
  /\ (forall id p, sessions s' !! id = Some p -> heap s' !! p = heap s !! p)
  /\ (forall id p ses,
        sessions s !! id = Some p -> heap s !! p = Some ses ->
        expired now ses = true ->
        (exists ses', heap s' !! p = Some ses'
                      /\ closed ses' = true /\ conn ses' = None)
        /\ forall c, conn ses = Some c -> In c (closedConns s'))
  /\ wf s'.
Proof.
  intros Hwf Hperm. destruct (order_of_table s order Hperm) as [Hnd Hmem].
  destruct (cleanup_pass_spec now order s Hwf Hnd (fun id p H => proj1 (Hmem id p) H))
    as (W & S & K & X & _ & _).
  cbv zeta. split; [|split; [exact K|split; [|exact W]]].
  - intros id p. rewrite S. split.
    + intros [H1 Hn]. split; [exact H1|].
      destruct Hwf as (Hv & _). destruct (Hv id p H1) as [ses Hs].
      exists ses. split; [exact Hs|].
      destruct (expired now ses) eqn:He; [|reflexivity].
      exfalso. apply Hn. split; [apply Hmem, H1|eauto].
    + intros [H1 (ses & Hs & He)]. split; [exact H1|].
      intros [_ (ses' & Hs' & He')]. congruence.
  - intros id p ses H1 Hs He. apply (X id p ses); [apply Hmem, H1| |]; assumption.
Qed.

Lemma wf_cleanupSessions_tick now s : wf s -> wf (cleanupSessions_tick now s).
Proof.
  intros Hwf. unfold cleanupSessions_tick.
  destruct (order_of_table s (map_to_list (sessions s)) (Permutation_refl _))
    as [Hnd Hmem].
  apply (cleanup_pass_spec now _ s Hwf Hnd (fun id p H => proj1 (Hmem id p) H)).
Qed.

Lemma run_keeps_wf events : forall s, wf s -> wf (run s events).
Proof.
  induction events as [|e events IH]; intros s Hwf; [exact Hwf|].
  cbn [run fold_left]. apply IH. destruct e as [bk r|now]; cbn [step].
  - apply wf_handleDNSRequest, Hwf.
  - apply wf_cleanupSessions_tick, Hwf.
Qed.

(** X17. In every state the server reaches from [NewDNSServer] by
    requests and cleanup ticks: every table entry points to a session
    object, no two session ids share one, a closed session holds no
    connection, and a session object that holds a connection is in the
    table (no connection is left behind unreachable). *)
Theorem reachable_states_are_well_formed (events : list event) :
  let s := run NewDNSServer events in
  table_valid s /\ table_injective s /\ closed_released s /\ no_leak s.
Proof.
  cbv zeta. apply (run_keeps_wf events NewDNSServer wf_NewDNSServer).
Qed.

End CleanupFacts.

Section FrameFacts.
Import Server.

Lemma getSession_frame s bk sid id' :
  sid <> id' -> table_valid s ->
  sessions (snd (getSession s bk sid)) !! id' = sessions s !! id'
  /\ forall p', is_Some (heap s !! p') ->
                heap (snd (getSession s bk sid)) !! p' = heap s !! p'.
Proof.
  intros Hne Hv. unfold getSession.
  assert (Hfresh :
    let s1 := snd match dial bk with
                  | None => (None, s)
                  | Some c =>
                      (Some (length (heap s)),
                       mkServer (<[sid := length (heap s)]> (sessions s))
                         (heap s ++ [mkSession (Some c) (now bk) false])
                         (closedConns s))
                  end in
    sessions s1 !! id' = sessions s !! id'
    /\ forall p', is_Some (heap s !! p') -> heap s1 !! p' = heap s !! p').
  { destruct (dial bk) as [c|]; cbn [snd sessions heap]; [|auto].
    split; [apply lookup_insert_ne, Hne|].
    intros p' Hp'. apply lookup_app_l, lookup_lt_is_Some, Hp'. }
  destruct (sessions s !! sid) as [p0|]; [|exact Hfresh].
  destruct (heap s !! p0) as [ses0|]; [|exact Hfresh].
  destruct (conn ses0); [auto|exact Hfresh].
Qed.

Lemma Session_Write_frame s bk p ses data p' :
  p' <> p ->
  sessions (snd (Session_Write s bk p ses data)) = sessions s
  /\ heap (snd (Session_Write s bk p ses data)) !! p' = heap s !! p'.
Proof.
  intros Hne. unfold Session_Write.
  destruct (conn ses) as [c|]; [|auto].
  destruct (write bk c data); cbn [snd set_session log_close sessions heap];
    (split; [reflexivity|apply list_lookup_insert_ne; congruence]).
Qed.

Lemma handlePoll_frame s bk p ses p' :
  heap s !! p = Some ses -> p' <> p ->
  sessions (snd (handlePoll s bk p ses)) = sessions s
  /\ heap (snd (handlePoll s bk p ses)) !! p' = heap s !! p'.
Proof.
  intros Hp Hne. unfold handlePoll.
  destruct (closed ses); [auto|]. destruct (conn ses) as [c|]; [|auto].
  destruct (read bk c) as [data|e].
  - destruct (length data =? 0)%nat; auto.
  - destruct (is_EOF e || mentions_reset e).
    + cbn [snd]. destruct (Session_Close_effect s p ses Hp) as (Es & Ho & _).
      split; [exact Es|apply Ho, Hne].
    + destruct (is_timeout e); auto.
Qed.

(** X18. A request touches the session of its own session id only: the
    table entry of every other session id and the session object behind
    it are as before. *)
Theorem request_leaves_other_sessions_alone (s : DNSServer) (bk : Backend)
    (r : Msg) (id' : gostring) :
  wf s ->
  (forall question rest q,
      Questions r = question :: rest ->
      parseName (QName question) = Some q -> sessionID q <> id') ->
  let s' := snd (handleDNSRequest s bk r) in
  sessions s' !! id' = sessions s !! id'
  /\ forall p', sessions s !! id' = Some p' -> heap s' !! p' = heap s !! p'.
Proof.
  intros Hwf Hother. cbv zeta. unfold handleDNSRequest.
  destruct (Questions r) as [|question rest] eqn:Hq; [auto|].
  destruct (parseName (QName question)) as [q|] eqn:Hparse; [|auto].
  specialize (Hother question rest q eq_refl Hparse).
  pose proof (wf_getSession s bk (sessionID q) Hwf) as Hwf1.
  destruct Hwf as (Hv & _).
  destruct (getSession_frame s bk (sessionID q) id' Hother Hv) as [Fs Fh].
  destruct (getSession s bk (sessionID q)) as [[p|] s1] eqn:Hget;
    cbn [snd] in Fs, Fh, Hwf1.
  2:{ cbn [snd]. split; [exact Fs|]. intros p' Hp'. apply Fh. eapply Hv, Hp'. }
  destruct (getSession_connected _ _ _ _ _ Hget)
    as (Htable & session & c & Hheap & Hconn).
  rewrite Hheap.
  assert (Hp : forall p', sessions s !! id' = Some p' -> p' <> p).
  { intros p' Hp' ->. apply Hother.
    destruct Hwf1 as (_ & Hi1 & _).
    apply (Hi1 _ _ p); [exact Htable|]. rewrite Fs. exact Hp'. }
  assert (Hbase : sessions s1 !! id' = sessions s !! id'
                  /\ forall p', sessions s !! id' = Some p' ->
                                heap s1 !! p' = heap s !! p').
  { split; [exact Fs|]. intros p' Hp'. apply Fh. eapply Hv, Hp'. }
  destruct (gostring_eqb (sequence q) (str "ffff")).
  - assert (Hpoll :
      sessions (snd (handlePoll s1 bk p session)) !! id' = sessions s !! id'
      /\ forall p', sessions s !! id' = Some p' ->
                    heap (snd (handlePoll s1 bk p session)) !! p'
                    = heap s !! p').
    { split.
      - destruct (sessions s !! id') as [p'|] eqn:E.
        + destruct (handlePoll_frame s1 bk p session p' Hheap (Hp p' eq_refl))
            as [Es _]. rewrite Es. exact Fs.
        + destruct (handlePoll_frame s1 bk p session (S p) Hheap ltac:(lia))
            as [Es _]. rewrite Es. exact Fs.
      - intros p' Hp'.
        destruct (handlePoll_frame s1 bk p session p' Hheap (Hp p' Hp'))
          as [_ Eh]. rewrite Eh. apply Hbase, Hp'. }
    destruct (handlePoll s1 bk p session) as [[response| |] s2];
      cbn [snd] in Hpoll |- *; try exact Hpoll.
    destruct (length response =? 0)%nat; exact Hpoll.
  - destruct (decodeDNSSafe (encodedData q)) as [decodedData|e];
      [|exact Hbase].
    destruct (0 <? length decodedData)%nat; [|exact Hbase].
    assert (Hwrite :
      sessions (snd (Session_Write s1 bk p session decodedData)) !! id'
      = sessions s !! id'
      /\ forall p', sessions s !! id' = Some p' ->
                    heap (snd (Session_Write s1 bk p session decodedData)) !! p'
                    = heap s !! p').
    { split.
      - destruct (Session_Write_frame s1 bk p session decodedData (S p)
                    ltac:(lia)) as [Es _].
        rewrite Es. exact Fs.
      - intros p' Hp'.
        destruct (Session_Write_frame s1 bk p session decodedData p' (Hp p' Hp'))
          as [_ Eh]. rewrite Eh. apply Hbase, Hp'. }
    destruct (Session_Write s1 bk p session decodedData) as [[|] s2];
      exact Hwrite.
Qed.

(** X20. Polling does not refresh [lastActive].  Polls that meet data, a
    timeout or an error other than EOF and reset leave the server state
    unchanged, so a session whose last write is more than five minutes
    old is removed by the next cleanup tick, and its backend connection
    closed, however often it is polled. *)
Theorem polling_does_not_keep_a_session_alive (s : DNSServer)
    (sid tld : gostring) (p : nat) (session : Session) (c : Conn)
    (edns : option (Z * bool)) (bks : list Backend) (now : Z) :
  wf s ->
  ~ In dot sid -> ~ In dot tld -> tld <> [] ->
  sessions s !! sid = Some p -> heap s !! p = Some session ->
  conn session = Some c -> closed session = false ->
  Forall (fun bk => match read bk c with
                    | ReadErr e => is_EOF e || mentions_reset e = false
                    | ReadData _ => True
                    end) bks ->
  fiveMinutes < now - lastActive session ->
  let r := mkMsg [mkQuestion (Client.Fqdn (Client.pollName sid tld)) TypeTXT]
                 edns in
  let s1 := run s (map (fun bk => Request bk r) bks) in
  s1 = s
  /\ sessions (cleanupSessions_tick now s1) !! sid = None
  /\ In c (closedConns (cleanupSessions_tick now s1)).
Proof.
  intros Hwf Hsid Htld Hne Htable Hheap Hconn Hopen Hreads Hidle r s1.
  assert (Hsame : s1 = s).
  { subst s1. induction Hreads as [|bk bks Hbk _ IH]; [reflexivity|].
    cbn [map run fold_left step].
    replace (snd (handleDNSRequest s bk r)) with s; [exact IH|].
    subst r.
    rewrite (poll_request_outcome s bk sid tld p session c edns
               Hsid Htld Hne Htable Hheap Hconn Hopen).
    destruct (read bk c) as [data|e].
    - destruct (length data =? 0)%nat; reflexivity.
    - rewrite Hbk. destruct (is_timeout e); reflexivity. }
  split; [exact Hsame|]. rewrite Hsame. unfold cleanupSessions_tick.
  destruct (order_of_table s (map_to_list (sessions s)) (Permutation_refl _))
    as [Hnd Hmem].
  destruct (cleanup_pass_spec now _ s Hwf Hnd (fun id q H => proj1 (Hmem id q) H))
    as (_ & S & _ & X & _ & _).
  assert (Hexp : expired now session = true).
  { unfold expired. rewrite Hopen. cbn [orb]. apply Z.ltb_lt, Hidle. }
  split.
  - destruct (sessions (cleanupSessions_pass now (map_to_list (sessions s)) s)
                !! sid) as [q|] eqn:E; [|reflexivity].
    exfalso. apply S in E as [E Hn]. apply Hn.
    split; [apply Hmem, E|]. assert (q = p) by congruence. subst q. eauto.
  - destruct (X sid p session) as [_ Hlog];
      [apply Hmem, Htable|exact Hheap|exact Hexp|].
    apply Hlog, Hconn.
Qed.

End FrameFacts.

(** * The wire codec *)

Section CodecFacts.
Import Base32.

(** C1. The round trip [decodeDNSSafe (encodeDNSSafe P) = P] fails for the
    three-byte payload 23 1f 3c: its base32 text is the five letters
    EMPTY, which [decodeDNSSafe] reads as the empty payload.  It is the
    only such payload: every other non-empty sequence of bytes comes back
    unchanged. *)
Theorem C1_roundtrip_lost_on_EMPTY_collision :
  let P := [35; 31; 60] in
  (1 <= length P <= 100)%nat /\ Forall is_byte P /\
  encodeDNSSafe P = str "EMPTY" /\
  decodeDNSSafe (encodeDNSSafe P) = inl [] /\
  decodeDNSSafe (encodeDNSSafe P) <> inl P /\
  (forall data : bytes,
      Forall is_byte data -> data <> [] -> data <> P ->
      decodeDNSSafe (encodeDNSSafe data) = inl data).
Proof.
  cbv zeta. split; [simpl; lia|]. split.
  - repeat constructor; unfold is_byte; lia.
  - split; [reflexivity|]. split; [reflexivity|]. split; [discriminate|].
    intros data Hb Hne Hcol. apply roundtrip_except_collision; assumption.
Qed.

(** C10, as stated, fails: "CLOSED" has six characters (6 modulo 8), all
    of the alphabet, and [decodeDNSSafe] returns the empty payload for it
    without an error. *)
Lemma C10_CLOSED_decodes_without_error :
  (length (ReplaceAll_empty (str "CLOSED") dot) mod 8 = 6)%nat /\
  decodeDNSSafe (str "CLOSED") = inl [] /\
  ~ (exists e, decodeDNSSafe (str "CLOSED") = inr e).
Proof.
  split; [reflexivity|]. split; [reflexivity|].
  intros [e He]. discriminate He.
Qed.

End CodecFacts.

(** * The client uplink *)

Section ClientFacts.
Import Client.

(** C3. Two consecutive reads of 220 bytes on one connection: each read
    is sent as three queries numbered from the counter, but the counter
    advances by one per read, so the second read reuses 0001 and 0002. *)
Theorem C3_sequence_numbers_reused_across_reads :
  map seq_field
      (emitted (handleConnection_uplink ack_resolver (str "ABCDEFG") defaultTLD
                  [LocalData (repeat 65 220); LocalData (repeat 66 220)]))
  = [Some (str "0000"); Some (str "0001"); Some (str "0002");
     Some (str "0001"); Some (str "0002"); Some (str "0003")].
Proof. vm_compute. reflexivity. Qed.

(** C8, as stated, fails: after 65535 one-byte reads the counter is
    0xffff, and the data query of the next read carries "ffff". *)
Lemma C8_data_query_with_ffff :
  let reads := repeat (LocalData [65]) (Z.to_nat 65536) in
  let sent := emitted (handleConnection_uplink ack_resolver (str "ABCDEFG")
                         defaultTLD reads) in
  nth (Z.to_nat 65535) sent [] = str "IE.ffff.ABCDEFG.edu." /\
  seq_field (nth (Z.to_nat 65535) sent []) = Some (str "ffff") /\
  nth (Z.to_nat 65535) sent [] <> Fqdn (pollName (str "ABCDEFG") defaultTLD).
Proof.
  intros reads sent.
  assert (H : nth (Z.to_nat 65535) sent [] = str "IE.ffff.ABCDEFG.edu.")
    by (vm_compute; reflexivity).
  rewrite H. split; [reflexivity|]. split; [reflexivity|].
  vm_compute. discriminate.
Qed.

End ClientFacts.

(** * The server handler *)

Section ServerFacts.
Import Server.

(** C2. A poll that meets backend EOF closes the session; the next poll
    and the next data query with the same session id are nevertheless
    served on a freshly dialed connection: [getSession] replaces the
    closed entry because its connection is nil. *)
Theorem C2_closed_session_is_redialed :
  let sid := str "ABCDEFG" in
  let run := serve NewDNSServer
               [(backend 1%nat (ReadErr EOF) 0, query "AA.ffff.ABCDEFG.edu.");
                (backend 2%nat (ReadErr timeout) 1, query "AA.ffff.ABCDEFG.edu.");
                (backend 3%nat (ReadErr timeout) 2, query "JBEQ.0000.ABCDEFG.edu.")] in
  map reply_rcode (fst run)
    = [Some RcodeSuccess; Some RcodeSuccess; Some RcodeSuccess] /\
  map reply_txt (fst run)
    = [[[encodeDNSSafe (bytes_of_string CLOSED)]];
       [[encodeDNSSafe (bytes_of_string EMPTY)]];
       [[EMPTY]]] /\
  heap (snd run) !! 0%nat = Some (mkSession None 0 true) /\
  sessions (snd run) !! sid = Some 1%nat /\
  heap (snd run) !! 1%nat = Some (mkSession (Some 2%nat) 2 false) /\
  closedConns (snd run) = [1%nat].
Proof. vm_compute. repeat split; reflexivity. Qed.


(** C5, as stated, fails: on a read timeout the TXT answer is not the
    string "EMPTY" but the base32 text of the five bytes EMPTY. *)
Lemma C5_timeout_answer_is_encoded :
  let s := snd (handleDNSRequest NewDNSServer (backend 1%nat (ReadErr timeout) 0)
                  (query "AA.ffff.ABCDEFG.edu.")) in
  let o := fst (handleDNSRequest s (backend 2%nat (ReadErr timeout) 1)
                  (query "AA.ffff.ABCDEFG.edu.")) in
  (exists p session, sessions s !! str "ABCDEFG" = Some p /\
                     heap s !! p = Some session /\
                     conn session = Some 1%nat /\ closed session = false) /\
  reply_txt o = [[str "IVGVAVCZ"]] /\
  reply_txt o <> [[str "EMPTY"]].
Proof.
  cbv zeta. split.
  - exists 0%nat, (mkSession (Some 1%nat) 0 false). vm_compute.
    repeat split; reflexivity.
  - split; [vm_compute; reflexivity | vm_compute; discriminate].
Qed.

End ServerFacts.

(** * The theorems at concrete inputs *)

Section Witnesses.
Import Client Server.


Lemma C5_poll_answers_are_base32_text_witness :
handleDNSRequest one_session (backend 2%nat (ReadErr timeout) 7)
  (query "AA.ffff.ABCDEFG.edu.")
= (answer (query "AA.ffff.ABCDEFG.edu.")
     (mkQuestion (str "AA.ffff.ABCDEFG.edu.") TypeTXT)
     RcodeSuccess [[str "IVGVAVCZ"]],
   one_session).
Proof.
refine (C5_poll_answers_are_base32_text one_session
          (backend 2%nat (ReadErr timeout) 7) (query "AA.ffff.ABCDEFG.edu.")
          (mkQuestion (str "AA.ffff.ABCDEFG.edu.") TypeTXT) []
          (mkParsed (str "AA") (str "ffff") (str "ABCDEFG") (str "edu"))
          _ _ 0%nat (mkSession (Some 1%nat) 0 false) 1%nat _ _ _ _ _);
  vm_compute; reflexivity.
Defined.

Lemma C6_data_write_acknowledged_or_failed_witness :
exists session c,
  heap one_session !! 0%nat = Some session /\ conn session = Some c /\
  handleDNSRequest one_session (backend 2%nat (ReadErr timeout) 7)
    (query "JBEQ.0000.ABCDEFG.edu.")
  = (answer (query "JBEQ.0000.ABCDEFG.edu.")
       (mkQuestion (str "JBEQ.0000.ABCDEFG.edu.") TypeTXT)
       RcodeSuccess [[str "EMPTY"]],
     set_session one_session 0%nat (mkSession (Some c) 7 (closed session))).
Proof.
refine (C6_data_write_acknowledged_or_failed one_session
          (backend 2%nat (ReadErr timeout) 7) (query "JBEQ.0000.ABCDEFG.edu.")
          (mkQuestion (str "JBEQ.0000.ABCDEFG.edu.") TypeTXT) []
          (mkParsed (str "JBEQ") (str "0000") (str "ABCDEFG") (str "edu"))
          _ _ [72; 73] 0%nat one_session _ _ _ _);
  try (vm_compute; reflexivity); vm_compute; discriminate.
Defined.

Lemma C8_no_ffff_before_the_counter_wraps_witness :
(forall name,
    In name (emitted (handleConnection_uplink ack_resolver (str "ABCDEFG")
                        defaultTLD [LocalData [72; 73]])) ->
    seq_field name <> Some (str "ffff"))
/\ seq_field (Fqdn (pollName (str "ABCDEFG") defaultTLD)) = Some (str "ffff").
Proof.
apply (C8_no_ffff_before_the_counter_wraps ack_resolver (str "ABCDEFG")
         defaultTLD).
- simpl. intros H. repeat (destruct H as [H|H]; [discriminate H|]). exact H.
- simpl. intros H. repeat (destruct H as [H|H]; [discriminate H|]). exact H.
- discriminate.
- constructor; [unfold read_fits, maxChunkSize; simpl; lia|constructor].
- simpl. lia.
Defined.


Lemma C10_CLOSED_text_decodes_to_nothing_witness :
value (sendQuery closed_resolver (pollName (str "ABCDEFG") defaultTLD) 0)
= inl []
/\ value (poll_pass closed_resolver (str "ABCDEFG") defaultTLD 0) = PollSleep.
Proof.
apply (proj1 (proj2 (proj2 (C10_CLOSED_text_decodes_to_nothing
                              closed_resolver (str "ABCDEFG") defaultTLD 0)))
         (mkTXT [] TypeTXT ClassINET 0 [CLOSED]) []);
  reflexivity.
Defined.

End Witnesses.

(** * The further theorems at concrete inputs *)

Section MoreWitnesses.
Import Client Server.

Lemma repeat_is_byte b n : is_byte b -> Forall is_byte (repeat b n).
Proof.
  intros Hb. apply List.Forall_forall. intros x Hx.
  apply repeat_spec in Hx. subst x. exact Hb.
Qed.

Lemma wf_one_session : wf one_session.
Proof.
  change one_session
    with (snd (handleDNSRequest NewDNSServer (backend 1%nat (ReadErr timeout) 0)
                 (query "AA.ffff.ABCDEFG.edu."))).
  apply wf_handleDNSRequest, wf_NewDNSServer.
Qed.

Lemma checksum_detects_one_changed_byte_witness :
  verifyAndStripChecksum (<[1%nat := 7]> (addChecksumToData [1; 2; 3]))
  = inr ChecksumMismatch.
Proof.
  apply (checksum_detects_one_changed_byte [1; 2; 3] 1 2 7);
    [reflexivity|discriminate].
Defined.

Lemma splitIntoChunks_cuts_into_pieces_of_at_most_220_witness :
  exists chunks,
    splitIntoChunks 64 (repeat 65%Z 500) = Returns chunks
    /\ concat chunks = repeat 65%Z 500
    /\ Forall (fun c => (1 <= length c <= 220)%nat) chunks.
Proof.
  apply (splitIntoChunks_cuts_into_pieces_of_at_most_220 (repeat 65%Z 500)).
  apply repeat_is_byte. unfold is_byte. lia.
Defined.

Lemma splitIntoChunks_returns_whole_packets_witness :
  splitIntoChunks 64 (concat [[0; 0; 0; 1; 9]; [0; 0; 0; 0]; [0; 0; 0; 2; 7; 8]])
  = Returns [[0; 0; 0; 1; 9]; [0; 0; 0; 0]; [0; 0; 0; 2; 7; 8]].
Proof.
  apply (splitIntoChunks_returns_whole_packets
           [[0; 0; 0; 1; 9]; [0; 0; 0; 0]; [0; 0; 0; 2; 7; 8]]).
  repeat constructor; unfold is_byte; cbn; lia.
Defined.

Lemma splitIntoChunks_32_bit_int_overflow_witness :
  splitIntoChunks 32 [128; 0; 0; 0; 1] = Panics
  /\ (forall fuel, splitIntoChunks_loop 32 fuel [255; 255; 255; 252; 1]
                   = OutOfFuel)
  /\ exists chunks, splitIntoChunks 64 [255; 255; 255; 252; 1] = Returns chunks.
Proof.
  split; [|split].
  - apply (splitIntoChunks_32_bit_int_overflow [128; 0; 0; 0; 1]);
      [repeat constructor; unfold is_byte; lia|cbn; lia|vm_compute; split; congruence].
  - apply (splitIntoChunks_32_bit_int_overflow [255; 255; 255; 252; 1]);
      [repeat constructor; unfold is_byte; lia|cbn; lia|reflexivity].
  - apply (splitIntoChunks_32_bit_int_overflow [255; 255; 255; 252; 1]);
      [repeat constructor; unfold is_byte; lia|cbn; lia].
Defined.

Lemma splitDataIntoChunks_partitions_witness :
  concat (splitDataIntoChunks (repeat 65%Z 220) 100) = repeat 65%Z 220
  /\ Forall (fun c => (1 <= length c <= 100)%nat)
            (splitDataIntoChunks (repeat 65%Z 220) 100)
  /\ length (splitDataIntoChunks (repeat 65%Z 220) 100) = 3%nat.
Proof.
  apply (splitDataIntoChunks_partitions (repeat 65%Z 220) 100). lia.
Defined.

Lemma encodeDNSSafe_length_witness :
  length (Split (encodeDNSSafe (repeat 65%Z 100)) dot) = 4%nat
  /\ length (encodeDNSSafe (repeat 65%Z 100)) = 163%nat
  /\ ((length (repeat 65%Z 100) <= 100)%nat ->
      (length (encodeDNSSafe (repeat 65%Z 100)) <= 163)%nat).
Proof.
  apply (encodeDNSSafe_length (repeat 65%Z 100)). discriminate.
Defined.

Lemma decodeDNSSafe_accepts_exactly_the_alphabet_witness :
  (exists out, decodeDNSSafe (str "JB.EQ") = inl out)
  /\ ~ (exists out, decodeDNSSafe (str "jbeq") = inl out).
Proof.
  split.
  - apply (decodeDNSSafe_accepts_exactly_the_alphabet (str "JB.EQ")).
    + vm_compute. repeat constructor; discriminate.
    + apply alphabet_forallb. vm_compute. reflexivity.
  - intros H.
    apply (decodeDNSSafe_accepts_exactly_the_alphabet (str "jbeq")) in H.
    + apply Forall_inv in H. cbn in H.
      repeat (destruct H as [H|H]; [discriminate H|]). exact H.
    + vm_compute. repeat constructor; discriminate.
Defined.

Lemma sendChunk_sends_one_query_per_100_bytes_witness :
  let chunks := splitDataIntoChunks (repeat 65%Z 150) 100 in
  let r := sendChunk ack_resolver (str "ABCDEFG") defaultTLD (repeat 65%Z 150) 7 0 in
  value r = None
  /\ exchanges r = (0 + length chunks)%nat
  /\ length chunks = ((length (repeat 65%Z 150) + 99) / 100)%nat
  /\ emitted r
     = imap (fun i sub =>
               Fqdn (dataName (str "ABCDEFG") defaultTLD (encodeDNSSafe sub)
                       (u16 (7 + u16 (Z.of_nat i)))))
            chunks
  /\ sendData ack_resolver (str "ABCDEFG") defaultTLD (repeat 65%Z 150) 0
     = sendChunk ack_resolver (str "ABCDEFG") defaultTLD (repeat 65%Z 150) 0 0.
Proof.
  apply (sendChunk_sends_one_query_per_100_bytes ack_resolver (str "ABCDEFG")
           defaultTLD (repeat 65%Z 150) 7 0).
  intros j. eexists _, _. split; reflexivity.
Defined.

Lemma data_query_names_fit_dns_limits_witness :
  Forall (fun name =>
            (length name <= 181)%nat
            /\ Forall (fun label => (length label <= 40)%nat) (Split name dot))
         (emitted (sendChunk ack_resolver (generateSessionID (fun _ => 5))
                     defaultTLD (repeat 65%Z 220) 0 0)).
Proof.
  apply (data_query_names_fit_dns_limits ack_resolver (fun _ => 5)
           (repeat 65%Z 220) 0 0).
  intros i. lia.
Defined.

Lemma generated_session_ids_parse_back_witness :
  let sid := generateSessionID (fun i => Z.of_nat i mod 32) in
  length sid = 7%nat
  /\ Forall in_alphabet sid
  /\ ~ In dot sid
  /\ parseName (Fqdn (dataName sid defaultTLD (str "JBEQ") 3))
     = Some (mkParsed (str "JBEQ") (fmt_04x 3) sid defaultTLD)
  /\ parseName (Fqdn (pollName sid defaultTLD))
     = Some (mkParsed (str "AA") (str "ffff") sid defaultTLD).
Proof.
  apply (generated_session_ids_parse_back (fun i => Z.of_nat i mod 32)
           (str "JBEQ") 3).
  intros i. apply Z.mod_pos_bound. lia.
Defined.

Lemma data_query_is_written_to_the_backend_witness :
  let name := Fqdn (dataName (str "ABCDEFG") defaultTLD
                      (encodeDNSSafe [72; 73]) 0) in
  let r := mkMsg [mkQuestion name TypeTXT] None in
  exists session c,
    heap one_session !! 0%nat = Some session /\ conn session = Some c /\
    (handleDNSRequest one_session (backend 2%nat (ReadErr timeout) 7) r
     = (answer r (mkQuestion name TypeTXT) RcodeSuccess [[EMPTY]],
        set_session one_session 0%nat
          (mkSession (Some c) 7 (closed session)))
     /\ acknowledges
          (deliver (fst (handleDNSRequest one_session
                           (backend 2%nat (ReadErr timeout) 7) r)))).
Proof.
  apply (data_query_is_written_to_the_backend one_session
           (backend 2%nat (ReadErr timeout) 7) (str "ABCDEFG") defaultTLD
           [72; 73] 0 None 0%nat one_session).
  - repeat constructor; unfold is_byte; lia.
  - discriminate.
  - discriminate.
  - cbn. intros H. repeat (destruct H as [H|H]; [discriminate H|]). exact H.
  - cbn. intros H. repeat (destruct H as [H|H]; [discriminate H|]). exact H.
  - discriminate.
  - lia.
  - vm_compute. reflexivity.
Defined.

Lemma poll_answer_reaches_the_local_socket_witness :
  let r := mkMsg [mkQuestion (Fqdn (pollName (str "ABCDEFG") defaultTLD)) TypeTXT]
                 None in
  let net := fun _ : nat =>
    deliver (fst (handleDNSRequest one_session
                    (backend 2%nat (ReadData [72; 73]) 7) r)) in
  value (poll_pass net (str "ABCDEFG") defaultTLD 0) = PollWrite [72; 73].
Proof.
  intros r net.
  refine (poll_answer_reaches_the_local_socket one_session
            (backend 2%nat (ReadData [72; 73]) 7) (str "ABCDEFG") defaultTLD
            0%nat (mkSession (Some 1%nat) 0 false) 1%nat None
            _ _ _ _ _ _ _ net 0%nat _ _).
  - cbn. intros H. repeat (destruct H as [H|H]; [discriminate H|]). exact H.
  - cbn. intros H. repeat (destruct H as [H|H]; [discriminate H|]). exact H.
  - discriminate.
  - vm_compute. reflexivity.
  - reflexivity.
  - reflexivity.
  - reflexivity.
  - reflexivity.
  - repeat constructor; unfold is_byte; lia.
Defined.

Lemma request_leaves_other_sessions_alone_witness :
  let s' := snd (handleDNSRequest one_session
                   (backend 2%nat (ReadErr EOF) 7)
                   (query "AA.ffff.OTHERID.edu.")) in
  sessions s' !! str "ABCDEFG" = sessions one_session !! str "ABCDEFG"
  /\ forall p', sessions one_session !! str "ABCDEFG" = Some p' ->
                heap s' !! p' = heap one_session !! p'.
Proof.
  apply (request_leaves_other_sessions_alone one_session
           (backend 2%nat (ReadErr EOF) 7) (query "AA.ffff.OTHERID.edu.")
           (str "ABCDEFG")).
  - apply wf_one_session.
  - intros question rest q [= <- <-] Hq. vm_compute in Hq.
    injection Hq as <-. discriminate.
Defined.

Lemma connected_session_is_reused_without_dialing_witness :
  getSession one_session (mkBackend None (fun _ => ReadErr EOF)
                            (fun _ _ => None) 9)
    (str "ABCDEFG")
  = (Some 0%nat, one_session).
Proof.
  apply (connected_session_is_reused_without_dialing NewDNSServer one_session
           (backend 1%nat (ReadErr timeout) 0)).
  vm_compute. reflexivity.
Defined.

Lemma polling_does_not_keep_a_session_alive_witness :
  let r := mkMsg [mkQuestion (Fqdn (pollName (str "ABCDEFG") defaultTLD)) TypeTXT]
                 None in
  let s1 := run one_session
              (map (fun bk => Request bk r)
                   [backend 2%nat (ReadErr timeout) 100;
                    backend 2%nat (ReadData [72; 73]) 200]) in
  s1 = one_session
  /\ sessions (cleanupSessions_tick (fiveMinutes + 1) s1) !! str "ABCDEFG" = None
  /\ In 1%nat (closedConns (cleanupSessions_tick (fiveMinutes + 1) s1)).
Proof.
  apply (polling_does_not_keep_a_session_alive one_session (str "ABCDEFG")
           defaultTLD 0%nat (mkSession (Some 1%nat) 0 false) 1%nat None
           [backend 2%nat (ReadErr timeout) 100;
            backend 2%nat (ReadData [72; 73]) 200]
           (fiveMinutes + 1)).
  - apply wf_one_session.
  - cbn. intros H. repeat (destruct H as [H|H]; [discriminate H|]). exact H.
  - cbn. intros H. repeat (destruct H as [H|H]; [discriminate H|]). exact H.
  - discriminate.
  - vm_compute. reflexivity.
  - reflexivity.
  - reflexivity.
  - reflexivity.
  - repeat constructor.
  - cbn. lia.
Defined.

Lemma cleanup_removes_exactly_the_expired_sessions_witness :
  let now := fiveMinutes + 1 in
  let s' := cleanupSessions_pass now (map_to_list (sessions one_session))
              one_session in
  (forall id p,
      sessions s' !! id = Some p
      <-> sessions one_session !! id = Some p
          /\ exists ses, heap one_session !! p = Some ses
                         /\ expired now ses = false)
  /\ (forall id p, sessions s' !! id = Some p ->
                   heap s' !! p = heap one_session !! p)
  /\ (forall id p ses,
        sessions one_session !! id = Some p ->
        heap one_session !! p = Some ses ->
        expired now ses = true ->
        (exists ses', heap s' !! p = Some ses'
                      /\ closed ses' = true /\ conn ses' = None)
        /\ forall c, conn ses = Some c -> In c (closedConns s'))
  /\ wf s'.
Proof.
  apply (cleanup_removes_exactly_the_expired_sessions one_session
           (fiveMinutes + 1) (map_to_list (sessions one_session))).
  - apply wf_one_session.
  - apply Permutation_refl.
Defined.

Lemma uplink_queries_carry_the_chunk_witness :
  exists payloads,
    Forall2 (fun name payload =>
               exists q, parseName name = Some q
                         /\ sessionID q = str "ABCDEFG"
                         /\ decodeDNSSafe (encodedData q) = inl payload)
            (emitted (sendChunk ack_resolver (str "ABCDEFG") defaultTLD
                        (repeat 65%Z 150) 0 0))
            payloads
    /\ concat payloads = repeat 65%Z 150.
Proof.
  apply (uplink_queries_carry_the_chunk ack_resolver (str "ABCDEFG") defaultTLD).
  - cbn. intros H. repeat (destruct H as [H|H]; [discriminate H|]). exact H.
  - cbn. intros H. repeat (destruct H as [H|H]; [discriminate H|]). exact H.
  - discriminate.
  - intros j. eexists _, _. split; reflexivity.
  - apply repeat_is_byte. unfold is_byte. lia.
  - vm_compute. intros H. repeat (destruct H as [H|H]; [discriminate H|]). exact H.
Defined.

Lemma random_tlds_parse_back_witness :
  In (getRandomTLD (fun _ => 3))
     [str "com"; str "net"; str "org"; str "gov"; str "edu"]
  /\ parseName (Fqdn (dataName (str "ABCDEFG") (getRandomTLD (fun _ => 3))
                        (str "JBEQ") 1))
     = Some (mkParsed (str "JBEQ") (fmt_04x 1) (str "ABCDEFG")
               (getRandomTLD (fun _ => 3))).
Proof.
  apply (random_tlds_parse_back (fun _ => 3) (str "ABCDEFG") (str "JBEQ") 1).
  - lia.
  - cbn. intros H. repeat (destruct H as [H|H]; [discriminate H|]). exact H.
Defined.

Lemma uplink_numbers_reads_and_subchunks_witness :
  let datas := [[72]; []; repeat 65 150] in
  emitted (handleConnection_uplink ack_resolver (str "ABCDEFG") defaultTLD
             (map LocalData datas))
  = concat (imap (fun j data =>
                    chunk_names (str "ABCDEFG") defaultTLD data
                      (u16 (Z.of_nat j)))
                 (List.filter (fun d => (0 <? length d)%nat) datas))
  /\ value (handleConnection_uplink ack_resolver (str "ABCDEFG") defaultTLD
              (map LocalData datas)) = None.
Proof.
  apply (uplink_numbers_reads_and_subchunks ack_resolver (str "ABCDEFG")
           defaultTLD).
  intros j. eexists _, _. split; reflexivity.
Defined.

End MoreWitnesses.
